(** * Project store and diagram merge engine

    A shallow embedding of two parts of the document-generation backend:

    - [DiagramAgent._apply_changes] (src/agents/DiagramAgent.py), the merge
      of a change-set into a diagram document, and
    - [Project] with its [Context] (src/utils/Project.py,
      src/utils/Context.py), the file records of a project, their
      reconciliation with the file system and the metadata file.

    Python objects that the code mutates in place (the diagram dictionary
    and the arrays it holds) live in an explicit store, so that aliasing
    between the input document and the returned one is visible. *)

From Stdlib Require Import Ascii.
From stdpp Require Import gmap strings list fin_maps sorting pretty.

Set Warnings "-register-all".
Set Default Proof Using "Type".

(** ** Python values

    The values [json.loads] produces, without floating-point numbers: a
    JSON number is an integer here. *)

Inductive value : Type :=
  | VNone
  | VBool (b : bool)
  | VInt (z : Z)
  | VStr (s : string)
  | VList (l : list value)
  | VDict (d : list (string * value)).

(** A JSON object: the entries of a Python [dict] with string keys. *)
Abbreviation obj := (list (string * value)).

Fixpoint lookup_key (k : string) (d : obj) : option value :=
  match d with
  | [] => None
  | (k', v) :: d' => if String.eqb k k' then Some v else lookup_key k d'
  end.

(** [d.get(k)]: the entry, or [None] when the key is absent. *)
Definition get (d : obj) (k : string) : value :=
  default VNone (lookup_key k d).

(** Python's [==] on these values. [True == 1] and [False == 0] hold;
    lists compare element by element; dictionaries compare by size and
    then entry by entry, whatever the order of the keys. *)
Fixpoint py_eq (a b : value) : bool :=
  match a, b with
  | VNone, VNone => true
  | VBool x, VBool y => Bool.eqb x y
  | VBool x, VInt y => (Z.b2z x =? y)%Z
  | VInt x, VBool y => (x =? Z.b2z y)%Z
  | VInt x, VInt y => (x =? y)%Z
  | VStr x, VStr y => String.eqb x y
  | VList xs, VList ys =>
      (fix go (xs ys : list value) : bool :=
         match xs, ys with
         | [], [] => true
         | x :: xs', y :: ys' => py_eq x y && go xs' ys'
         | _, _ => false
         end) xs ys
  | VDict d1, VDict d2 =>
      (length d1 =? length d2) &&
      (fix go (d : obj) : bool :=
         match d with
         | [] => true
         | (k, v) :: d' =>
             match lookup_key k d2 with
             | Some w => py_eq v w
             | None => false
             end && go d'
         end) d1
  | _, _ => false
  end.

(** Lists and dictionaries cannot be hashed: putting one in a [set], or
    looking one up in a [set], raises [TypeError]. *)
Definition hashable (v : value) : bool :=
  match v with
  | VList _ | VDict _ => false
  | _ => true
  end.

(** ** Results and exceptions *)

Inductive exn : Type := TypeError | KeyError | OSError | BadRef.

Inductive result (A : Type) : Type :=
  | Ok (a : A)
  | Raise (e : exn).
Arguments Ok {A} a.
Arguments Raise {A} e.

Global Instance result_ret : MRet result := λ A a, Ok a.
Global Instance result_bind : MBind result := λ A B f m,
  match m with
  | Ok a => f a
  | Raise e => Raise e
  end.
Global Instance result_fmap : FMap result := λ A B f m,
  match m with
  | Ok a => Ok (f a)
  | Raise e => Raise e
  end.

(** [set(l)] and [x in s]; a set is kept as the list of its elements. *)
Definition py_set (l : list value) : result (list value) :=
  if forallb hashable l then Ok l else Raise TypeError.

Definition set_contains (x : value) (s : list value) : result bool :=
  if hashable x then Ok (existsb (λ e, py_eq e x) s) else Raise TypeError.

(** A list comprehension [[x for x in xs if p(x)]] whose condition may
    raise. *)
Fixpoint filterM {A} (p : A → result bool) (xs : list A) : result (list A) :=
  match xs with
  | [] => Ok []
  | x :: xs' =>
      b ← p x;
      r ← filterM p xs';
      mret (if b : bool then x :: r else r)
  end.

(** A loop that threads a value and may raise. *)
Fixpoint foldM {A B} (f : B → A → result B) (b : B) (l : list A) : result B :=
  match l with
  | [] => Ok b
  | a :: l' => b' ← f b a; foldM f b' l'
  end.

(** * The diagram merge engine *)

Module Diagram.

(** ** The store

    A diagram document is a Python [dict]. Under [classes], [actors],
    [useCases] and [relationships] it holds arrays of objects; these are
    Python [list] objects, held by reference. The other entries
    ([diagramType], [diagramName], ...) are carried as values. *)

Abbreviation loc := positive.

Record pydict : Type := PyDict {
  arrays : gmap string loc;
  others : gmap string value
}.

Record store : Type := Store {
  dicts : gmap loc pydict;
  lists : gmap loc (list obj)
}.

Definition M (A : Type) : Type := store → result (A * store).

Global Instance M_ret : MRet M := λ A a st, Ok (a, st).
Global Instance M_bind : MBind M := λ A B f m st,
  match m st with
  | Ok (a, st') => f a st'
  | Raise e => Raise e
  end.

Definition lift {A} (r : result A) : M A := λ st,
  match r with
  | Ok a => Ok (a, st)
  | Raise e => Raise e
  end.

(** [d.copy()]: a new dictionary with the same entries; the arrays are
    shared with [d]. *)
Definition dict_copy (d : loc) : M loc := λ st,
  match dicts st !! d with
  | Some pd =>
      let d' := fresh (dom (dicts st)) in
      Ok (d', Store (<[d' := pd]> (dicts st)) (lists st))
  | None => Raise BadRef
  end.

(** [k in d] *)
Definition dict_contains (d : loc) (k : string) : M bool := λ st,
  match dicts st !! d with
  | Some pd => Ok (bool_decide (is_Some (arrays pd !! k)), st)
  | None => Raise BadRef
  end.

(** [d[k]] *)
Definition dict_getitem (d : loc) (k : string) : M loc := λ st,
  match dicts st !! d with
  | Some pd =>
      match arrays pd !! k with
      | Some l => Ok (l, st)
      | None => Raise KeyError
      end
  | None => Raise BadRef
  end.

(** [d[k] = l] *)
Definition dict_setitem (d : loc) (k : string) (l : loc) : M unit := λ st,
  match dicts st !! d with
  | Some pd =>
      Ok ((), Store (<[d := PyDict (<[k := l]> (arrays pd)) (others pd)]> (dicts st))
                    (lists st))
  | None => Raise BadRef
  end.

(** A new list object. *)
Definition list_new (xs : list obj) : M loc := λ st,
  let l := fresh (dom (lists st)) in
  Ok (l, Store (dicts st) (<[l := xs]> (lists st))).

(** The elements of a list object. *)
Definition list_read (l : loc) : M (list obj) := λ st,
  match lists st !! l with
  | Some xs => Ok (xs, st)
  | None => Raise BadRef
  end.

(** [l.append(x)] *)
Definition list_append (l : loc) (x : obj) : M unit := λ st,
  match lists st !! l with
  | Some xs => Ok ((), Store (dicts st) (<[l := xs ++ [x]]> (lists st)))
  | None => Raise BadRef
  end.

(** [for x in xs: body(x)] *)
Fixpoint for_each {A} (xs : list A) (body : A → M unit) : M unit :=
  match xs with
  | [] => mret ()
  | x :: xs' => body x;; for_each xs' body
  end.

(** ** The change-set *)

Record entity_changes : Type := EntityChanges {
  ec_remove : option (list value);
  ec_add : option (list obj)
}.

Record rel_changes : Type := RelChanges {
  rc_remove : option (list obj);
  rc_add : option (list obj)
}.

Record change_data : Type := ChangeData {
  cd_classes : option entity_changes;
  cd_actors : option entity_changes;
  cd_useCases : option entity_changes;
  cd_relationships : option rel_changes
}.

(** The [changes] argument: a dictionary that may hold the envelope
    under its key [changes]. *)
Record changes : Type := Changes {
  envelope : option change_data
}.

(** ** [_apply_changes] *)

(** The blocks for [classes], [actors] and [useCases] are the same code
    up to the key; each has a removal part and an addition part. *)
Definition remove_entities (key : string) (modified : loc)
    (class_changes : entity_changes) : M unit :=
  match ec_remove class_changes with
  | Some rm =>
      classes_to_remove ← lift (py_set rm);
      present ← dict_contains modified key;
      if present : bool then
        l ← dict_getitem modified key;
        xs ← list_read l;
        kept ← lift (filterM
                  (λ cls, negb <$> set_contains (get cls "name") classes_to_remove)
                  xs);
        l' ← list_new kept;
        dict_setitem modified key l'
      else mret ()
  | None => mret ()
  end.

(** One turn of the addition loop. *)
Definition add_entity (key : string) (modified : loc) (new_class : obj) : M unit :=
  l ← dict_getitem modified key;
  xs ← list_read l;
  existing_names ← lift (py_set (map (λ cls, get cls "name") xs));
  dup ← lift (set_contains (get new_class "name") existing_names);
  if dup : bool then mret ()
  else l ← dict_getitem modified key; list_append l new_class.

(** [if key not in modified: modified[key] = []] *)
Definition ensure_array (key : string) (modified : loc) : M unit :=
  present ← dict_contains modified key;
  if present : bool then mret ()
  else l ← list_new []; dict_setitem modified key l.

Definition add_entities (key : string) (modified : loc)
    (class_changes : entity_changes) : M unit :=
  match ec_add class_changes with
  | Some adds =>
      ensure_array key modified;;
      for_each adds (add_entity key modified)
  | None => mret ()
  end.

Definition apply_entity_changes (key : string) (modified : loc)
    (class_changes : entity_changes) : M unit :=
  remove_entities key modified class_changes;;
  add_entities key modified class_changes.

(** The condition of the removal comprehension: [rel] is kept. *)
Definition kept_by_removal (rel_to_remove rel : obj) : bool :=
  negb (py_eq (get rel "fromClass") (get rel_to_remove "from") &&
        py_eq (get rel "toClass") (get rel_to_remove "to") &&
        py_eq (get rel "type") (get rel_to_remove "type")) &&
  negb (py_eq (get rel "from") (get rel_to_remove "from") &&
        py_eq (get rel "to") (get rel_to_remove "to") &&
        py_eq (get rel "type") (get rel_to_remove "type")).

(** The condition under [any] in the addition loop. *)
Definition same_relationship (new_rel rel : obj) : bool :=
  (py_eq (get rel "fromClass") (get new_rel "fromClass") &&
   py_eq (get rel "toClass") (get new_rel "toClass") &&
   py_eq (get rel "type") (get new_rel "type")) ||
  (py_eq (get rel "from") (get new_rel "from") &&
   py_eq (get rel "to") (get new_rel "to") &&
   py_eq (get rel "type") (get new_rel "type")).

(** One turn of the removal loop: the array is replaced by a new one. *)
Definition remove_relationship (modified : loc) (rel_to_remove : obj) : M unit :=
  l ← dict_getitem modified "relationships";
  xs ← list_read l;
  l' ← list_new (filter (λ rel, kept_by_removal rel_to_remove rel) xs);
  dict_setitem modified "relationships" l'.

Definition remove_relationships (modified : loc) (rel_changes : rel_changes) : M unit :=
  match rc_remove rel_changes with
  | Some rm =>
      present ← dict_contains modified "relationships";
      if present : bool then for_each rm (remove_relationship modified)
      else mret ()
  | None => mret ()
  end.

(** One turn of the addition loop. *)
Definition add_relationship (modified : loc) (new_rel : obj) : M unit :=
  l ← dict_getitem modified "relationships";
  xs ← list_read l;
  let exists_ := existsb (same_relationship new_rel) xs in
  if exists_ then mret ()
  else l ← dict_getitem modified "relationships"; list_append l new_rel.

Definition add_relationships (modified : loc) (rel_changes : rel_changes) : M unit :=
  match rc_add rel_changes with
  | Some adds =>
      ensure_array "relationships" modified;;
      for_each adds (add_relationship modified)
  | None => mret ()
  end.

Definition apply_relationship_changes (modified : loc)
    (rel_changes : rel_changes) : M unit :=
  remove_relationships modified rel_changes;;
  add_relationships modified rel_changes.

Definition when_present {A} (o : option A) (body : A → M unit) : M unit :=
  match o with
  | Some a => body a
  | None => mret ()
  end.

Definition _apply_changes (current_diagram : loc) (changes : changes) : M loc :=
  modified ← dict_copy current_diagram;
  match envelope changes with
  | None => mret modified
  | Some change_data =>
      when_present (cd_classes change_data)
        (apply_entity_changes "classes" modified);;
      when_present (cd_actors change_data)
        (apply_entity_changes "actors" modified);;
      when_present (cd_useCases change_data)
        (apply_entity_changes "useCases" modified);;
      when_present (cd_relationships change_data)
        (apply_relationship_changes modified);;
      mret modified
  end.

(** ** Reading the store *)

(** The array a dictionary holds under a key, read through the store. *)
Definition array_at (st : store) (d : loc) (k : string) : option (list obj) :=
  pd ← dicts st !! d;
  l ← arrays pd !! k;
  lists st !! l.

(** A dictionary of the store is well formed when it exists, its arrays
    exist, and no list object sits under two of its keys (as in a document
    that [json.loads] built). *)
Definition wf (st : store) (d : loc) : Prop :=
  ∃ pd, dicts st !! d = Some pd ∧
    (∀ k l, arrays pd !! k = Some l → is_Some (lists st !! l)) ∧
    (∀ k1 k2 l, arrays pd !! k1 = Some l → arrays pd !! k2 = Some l → k1 = k2).

(** ** The merge on the arrays themselves

    What each part of [_apply_changes] computes for the array under its
    key, as a function of that array; [None] is an absent key. The lemmas
    below relate the code on the store to these functions. *)

Definition name_of (cls : obj) : value := get cls "name".

Definition removed_entities (rm : option (list value)) (arr : option (list obj))
    : result (option (list obj)) :=
  match rm with
  | Some rm =>
      to_remove ← py_set rm;
      match arr with
      | Some xs =>
          Some <$> filterM (λ cls, negb <$> set_contains (name_of cls) to_remove) xs
      | None => Ok None
      end
  | None => Ok arr
  end.

(** One turn of the addition loop, on the array. *)
Definition added_entity (xs : list obj) (new_class : obj) : result (list obj) :=
  existing_names ← py_set (map name_of xs);
  dup ← set_contains (name_of new_class) existing_names;
  mret (if dup : bool then xs else xs ++ [new_class]).

Definition added_entities_loop (xs adds : list obj) : result (list obj) :=
  foldM added_entity xs adds.

Definition added_entities (adds : option (list obj)) (arr : option (list obj))
    : result (option (list obj)) :=
  match adds with
  | Some adds => Some <$> added_entities_loop (default [] arr) adds
  | None => Ok arr
  end.

Definition merged_entities (ec : entity_changes) (arr : option (list obj))
    : result (option (list obj)) :=
  removed_entities (ec_remove ec) arr ≫= added_entities (ec_add ec).

(** One turn of the removal loop and of the addition loop for
    relationships, on the array. *)
Definition removed_relationship (xs : list obj) (rel_to_remove : obj) : list obj :=
  filter (λ rel, kept_by_removal rel_to_remove rel) xs.

Definition added_relationship (xs : list obj) (new_rel : obj) : list obj :=
  if existsb (same_relationship new_rel) xs then xs else xs ++ [new_rel].

Definition removed_relationships (rm : option (list obj)) (arr : option (list obj))
    : option (list obj) :=
  match rm, arr with
  | Some rm, Some xs => Some (foldl removed_relationship xs rm)
  | _, _ => arr
  end.

Definition added_relationships_loop (xs adds : list obj) : list obj :=
  foldl added_relationship xs adds.

Definition added_relationships (adds : option (list obj)) (arr : option (list obj))
    : option (list obj) :=
  match adds with
  | Some adds => Some (added_relationships_loop (default [] arr) adds)
  | None => arr
  end.

Definition merged_relationships (rc : rel_changes) (arr : option (list obj))
    : option (list obj) :=
  added_relationships (rc_add rc) (removed_relationships (rc_remove rc) arr).

(** The candidate's name is among [names], for Python's [==]. *)
Definition named_in (names : list value) (cls : obj) : bool :=
  existsb (λ e, py_eq e (name_of cls)) names.

(** The array the addition loop of an entity category starts from: the
    array of the document, filtered when there is a removal list, and the
    empty array when the key is absent. *)
Definition kept_entities (rm : option (list value)) (arr : option (list obj))
    : list obj :=
  match rm with
  | Some rm => filter (λ cls, negb (named_in rm cls)) (default [] arr)
  | None => default [] arr
  end.

(** A turn that appends the candidate unless [dup] holds of the array. *)
Definition append_unless (dup : list obj → obj → bool) (xs : list obj) (c : obj)
    : list obj :=
  if dup xs c then xs else xs ++ [c].

(** Two relationships carry the same endpoint fields with equal values:
    both have [fromClass] and [toClass], or both have [from] and [to];
    and their types are equal. *)
Definition agree_present (k : string) (rel new_rel : obj) : bool :=
  match lookup_key k rel, lookup_key k new_rel with
  | Some a, Some b => py_eq a b
  | _, _ => false
  end.

Definition convention_match (rel new_rel : obj) : bool :=
  (agree_present "fromClass" rel new_rel && agree_present "toClass" rel new_rel ||
   agree_present "from" rel new_rel && agree_present "to" rel new_rel) &&
  py_eq (get rel "type") (get new_rel "type").

Definition merged_entities_opt (ec : option entity_changes) (arr : option (list obj))
    : result (option (list obj)) :=
  match ec with
  | Some ec => merged_entities ec arr
  | None => Ok arr
  end.

Definition merged_relationships_opt (rc : option rel_changes) (arr : option (list obj))
    : option (list obj) :=
  match rc with
  | Some rc => merged_relationships rc arr
  | None => arr
  end.

(** A check of [wf] that computes. *)
Definition wf_check (st : store) (d : loc) : bool :=
  match dicts st !! d with
  | Some pd =>
      forallb (λ kl, bool_decide (is_Some (lists st !! kl.2))) (map_to_list (arrays pd)) &&
      bool_decide (NoDup (map_to_list (arrays pd)).*2)
  | None => false
  end.

(** The names the merge hashes can all be hashed: the entries of the
    removal lists, the names of the candidates, and the names of the
    elements of the entity arrays. *)
Definition names_hashable (xs : list obj) : bool :=
  forallb (λ cls, hashable (name_of cls)) xs.

Definition entity_changes_hashable (ec : option entity_changes) : bool :=
  match ec with
  | Some ec =>
      forallb hashable (default [] (ec_remove ec)) &&
      names_hashable (default [] (ec_add ec))
  | None => true
  end.

Definition changes_hashable (changes : changes) : bool :=
  match envelope changes with
  | Some cd =>
      entity_changes_hashable (cd_classes cd) &&
      entity_changes_hashable (cd_actors cd) &&
      entity_changes_hashable (cd_useCases cd)
  | None => true
  end.

Definition array_hashable (st : store) (d : loc) (k : string) : bool :=
  names_hashable (default [] (array_at st d k)).

Definition document_hashable (st : store) (d : loc) : bool :=
  array_hashable st d "classes" && array_hashable st d "actors" &&
  array_hashable st d "useCases".

(** The changes of one entity category, by its key. *)
Definition entity_changes_of (cd : change_data) (key : string) : option entity_changes :=
  if String.eqb key "classes" then cd_classes cd
  else if String.eqb key "actors" then cd_actors cd
  else if String.eqb key "useCases" then cd_useCases cd
  else None.

(** ** Runs of the code against the merge on the arrays *)

(** What a run that changes the array under [key] of [d] into [r] leaves
    in place. *)
Definition updates (key : string) (d : loc) (st st' : store)
    (r : option (list obj)) : Prop :=
  wf st' d ∧ array_at st' d key = r ∧
  (∀ k, k ≠ key → array_at st' d k = array_at st d k) ∧
  (∀ d', d' ≠ d → dicts st' !! d' = dicts st !! d') ∧
  (others <$> dicts st' !! d) = (others <$> dicts st !! d).

(** A run from [st] ends as [spec] says: with the array under [key] of
    [d] changed into the given one, or with the same exception. *)
Definition outcome (key : string) (d : loc) (st : store)
    (run : result (unit * store)) (spec : result (option (list obj))) : Prop :=
  match spec with
  | Ok r => ∃ st', run = Ok ((), st') ∧ updates key d st st' r
  | Raise e => run = Raise e
  end.

(** The code [m] computes [f] on the array under [key] of [d]. *)
Definition refines (key : string) (d : loc) (m : M unit)
    (f : option (list obj) → result (option (list obj))) : Prop :=
  ∀ st, wf st d → outcome key d st (m st) (f (array_at st d key)).

(** ** Documents and change-sets of the examples *)

(** A store that holds one document, with one array. *)
Definition document : loc := 1%positive.

Definition single_array_store (key : string) (xs : list obj) : store :=
  Store {[ document := PyDict {[ key := 1%positive ]} ∅ ]} {[ 1%positive := xs ]}.

Definition entity_changes_only (key : string) (ec : entity_changes) : changes :=
  Changes (Some (ChangeData
    (if String.eqb key "classes" then Some ec else None)
    (if String.eqb key "actors" then Some ec else None)
    (if String.eqb key "useCases" then Some ec else None)
    None)).

Definition relationship_changes_only (rc : rel_changes) : changes :=
  Changes (Some (ChangeData None None None (Some rc))).

Definition named (name : string) : obj := [("name", VStr name)].

Definition user_with_attributes : obj :=
  [("name", VStr "User");
   ("attributes", VList [VDict [("name", VStr "email"); ("type", VStr "String")]])].

Definition class_relationship (a b t : string) : obj :=
  [("fromClass", VStr a); ("toClass", VStr b); ("type", VStr t)].

Definition plain_relationship (a b t : string) : obj :=
  [("from", VStr a); ("to", VStr b); ("type", VStr t)].

End Diagram.

(** * The project store *)

Module Project.

(** ** Strings and paths

    Strings are byte strings; [lower] maps the ASCII capitals, which is
    all [str.lower] does to a string that ends in one of the ASCII
    suffixes tested below. Paths follow [posixpath]. *)

Definition lower_char (c : ascii) : ascii :=
  let n := nat_of_ascii c in
  if (65 <=? n) && (n <=? 90) then ascii_of_nat (n + 32) else c.

Fixpoint lower (s : string) : string :=
  match s with
  | EmptyString => EmptyString
  | String c s' => String (lower_char c) (lower s')
  end.

(** [s.endswith(suffix)] *)
Definition endswith (s suffix : string) : bool :=
  let n := String.length s in
  let m := String.length suffix in
  (m <=? n) && String.eqb (String.substring (n - m) m s) suffix.

(** [s.endswith((a, b, ...))] *)
Definition endswith_any (s : string) (suffixes : list string) : bool :=
  existsb (endswith s) suffixes.

(** [s.replace(a, b)] for single characters. *)
Fixpoint replace_char (a b : ascii) (s : string) : string :=
  match s with
  | EmptyString => EmptyString
  | String c s' => String (if Ascii.eqb c a then b else c) (replace_char a b s')
  end.

(** [s.rfind(c)]: the index of the last [c], or -1. *)
Fixpoint rfind_from (c : ascii) (s : string) (i last : Z) : Z :=
  match s with
  | EmptyString => last
  | String c' s' => rfind_from c s' (i + 1)%Z (if Ascii.eqb c' c then i else last)
  end.

Definition rfind (c : ascii) (s : string) : Z := rfind_from c s 0 (-1).

Fixpoint all_dots (s : string) : bool :=
  match s with
  | EmptyString => true
  | String c s' => Ascii.eqb c "." && all_dots s'
  end.

(** [os.path.splitext]: the extension starts at the last dot of the last
    component, unless only dots precede it there. *)
Definition splitext (p : string) : string * string :=
  let sepIndex := rfind "/" p in
  let dotIndex := rfind "." p in
  if (sepIndex <? dotIndex)%Z then
    let filenameIndex := Z.to_nat (sepIndex + 1) in
    let dot := Z.to_nat dotIndex in
    if all_dots (String.substring filenameIndex (dot - filenameIndex) p) then (p, EmptyString)
    else (String.substring 0 dot p, String.substring dot (String.length p - dot) p)
  else (p, EmptyString).

(** [os.path.join] of two components. *)
Definition join (a b : string) : string :=
  if String.prefix "/" b then b
  else if String.eqb a "" || endswith a "/" then a +:+ b
  else a +:+ "/" +:+ b.

(** A name of one component: not empty, without separator. *)
Fixpoint has_char (c : ascii) (s : string) : bool :=
  match s with
  | EmptyString => false
  | String c' s' => Ascii.eqb c' c || has_char c s'
  end.

Definition plain_name (n : string) : bool :=
  negb (String.eqb n "") && negb (has_char "/" n).

(** A directory path to which [join] adds a separator. *)
Definition canonical (d : string) : bool :=
  negb (String.eqb d "") && negb (endswith d "/").

Fixpoint strip_prefix (p s : string) : option string :=
  match p, s with
  | EmptyString, _ => Some s
  | String a p', String b s' => if Ascii.eqb a b then strip_prefix p' s' else None
  | String _ _, EmptyString => None
  end.

(** [_get_file_type_from_extension] *)
Definition _get_file_type_from_extension (file_name : string) : string :=
  let extension := lower (splitext file_name).2 in
  if bool_decide (extension ∈ [".txt"; ".md"; ".csv"]) then "text"
  else if bool_decide (extension ∈ [".png"; ".jpg"; ".jpeg"; ".gif"; ".bmp"; ".svg"])
  then "image"
  else if bool_decide (extension ∈ [".xlsx"; ".xls"]) then "excel"
  else if bool_decide (extension ∈ [".pdf"]) then "pdf"
  else if bool_decide (extension ∈ [".json"]) then "json"
  else if bool_decide (extension ∈ [".html"; ".htm"]) then "html"
  else "file".

(** ** The library and the system

    What the code takes from Python's library and from the operating
    system: the dates and their ISO format, the text of files and the JSON
    reader and writer, the clock. *)

Class Library : Type := {
  datetime : Type;
  text : Type;
  isoformat : datetime → string;
  fromisoformat : string → option datetime;
  json_dump : value → text;
  json_load : text → option value;
  (** [datetime.datetime.now()] at the n-th reading of the clock *)
  now : nat → datetime;
  (** [f"{int(t.timestamp() * 1000):x}"[-8:]] *)
  timestamp_id : datetime → string;
  abspath : string → string;
  getcwd : string;
  (** the size in bytes of a text on disk *)
  getsize : text → Z
}.

Section WithLibrary.
Context {L : Library}.

(** ** The file system

    A map from canonical paths to nodes; paths are compared as strings. *)

Inductive node : Type :=
  | File (content : text) (ctime mtime : datetime)
  | Dir.

Abbreviation filesystem := (gmap string node).

Record world : Type := World {
  fs : filesystem;
  ticks : nat
}.

Definition read_clock (w : world) : datetime * world :=
  (now (ticks w), World (fs w) (S (ticks w))).

(** [os.path.exists], [os.path.isfile], [os.path.isdir] *)
Definition path_exists (f : filesystem) (p : string) : bool :=
  bool_decide (is_Some (f !! p)).

Definition isfile (f : filesystem) (p : string) : bool :=
  match f !! p with
  | Some (File _ _ _) => true
  | _ => false
  end.

Definition isdir (f : filesystem) (p : string) : bool :=
  match f !! p with
  | Some Dir => true
  | _ => false
  end.

(** The name of the entry [k] when it lies directly in [d]. *)
Definition child_name (d k : string) : option string :=
  match strip_prefix (if endswith d "/" then d else d +:+ "/") k with
  | Some rest => if plain_name rest then Some rest else None
  | None => None
  end.

(** [os.listdir]: in the order of the file system; raises on what is not
    a directory. *)
Definition listdir (f : filesystem) (d : string) : result (list string) :=
  if isdir f d then Ok (omap (λ kv, child_name d kv.1) (map_to_list f))
  else Raise OSError.

(** Reading a file as text. *)
Definition read_text (f : filesystem) (p : string) : option text :=
  match f !! p with
  | Some (File content _ _) => Some content
  | _ => None
  end.

(** [p] lies directly in a directory of the file system. *)
Definition has_parent (f : filesystem) (p : string) : bool :=
  existsb (λ kv, match kv.2 with
                 | Dir => bool_decide (is_Some (child_name kv.1 p))
                 | File _ _ _ => false
                 end)
          (map_to_list f).

(** [open(p, 'w')] and [write]: needs the directory of [p], and [p] not
    to be a directory; the file is stamped with the time of the
    system. *)
Definition write_text (w : world) (p : string) (content : text) : option world :=
  if has_parent (fs w) p && negb (isdir (fs w) p) then
    let t := now (ticks w) in
    let created :=
      match fs w !! p with
      | Some (File _ ctime _) => ctime
      | _ => t
      end in
    Some (World (<[p := File content created t]> (fs w)) (ticks w))
  else None.

(** [os.rename] of a file. *)
Definition rename (w : world) (old new : string) : option world :=
  match fs w !! old with
  | Some n =>
      if has_parent (fs w) new && negb (isdir (fs w) new) then
        Some (World (<[new := n]> (delete old (fs w))) (ticks w))
      else None
  | None => None
  end.

(** ** Records *)

Record file_record : Type := FileRecord {
  f_path : string;
  f_name : string;
  f_type : string;
  f_added_date : string;
  f_modified_date : string;
  f_size : Z
}.

Inductive bucket : Type := Input | Processed | Output.

Global Instance bucket_eq_dec : EqDecision bucket.
Proof. solve_decision. Defined.

(** [self.files]: a dictionary with the keys [input], [processed] and
    [output]. *)
Record files_dict : Type := Files {
  input : list file_record;
  processed : list file_record;
  output : list file_record
}.

Definition bucket_of (file_type : string) : option bucket :=
  if String.eqb file_type "input" then Some Input
  else if String.eqb file_type "processed" then Some Processed
  else if String.eqb file_type "output" then Some Output
  else None.

Definition files_get (fl : files_dict) (b : bucket) : list file_record :=
  match b with
  | Input => input fl
  | Processed => processed fl
  | Output => output fl
  end.

Definition files_set (fl : files_dict) (b : bucket) (l : list file_record) : files_dict :=
  match b with
  | Input => Files l (processed fl) (output fl)
  | Processed => Files (input fl) l (output fl)
  | Output => Files (input fl) (processed fl) l
  end.

Record Requirements : Type := mkRequirements {
  input_description : value;
  output_description : value;
  features : value;
  further_requirements : value
}.

Record Context : Type := mkContext {
  csv_description : list text;
  ui_image : list string;
  diagram_image : list string;
  project_name : string;
  requirements : Requirements;
  tech_stack : value;
  generated_text_doc : value;
  generated_diagram : value;
  prototype_code : value
}.

(** The fields the code never inspects ([description], [tags],
    [processing_history], the requirements) hold Python values as they
    are. *)
Record Project : Type := mkProject {
  name : string;
  created_date : datetime;
  modified_date : datetime;
  id : string;
  base_dir : string;
  project_dir : string;
  input_dir : string;
  processed_dir : string;
  output_dir : string;
  description : value;
  tags : value;
  files : files_dict;
  processing_history : value;
  context : Context
}.

Definition dir_of (p : Project) (b : bucket) : string :=
  match b with
  | Input => input_dir p
  | Processed => processed_dir p
  | Output => output_dir p
  end.

Definition set_files (p : Project) (fl : files_dict) : Project :=
  mkProject (name p) (created_date p) (modified_date p) (id p) (base_dir p)
    (project_dir p) (input_dir p) (processed_dir p) (output_dir p)
    (description p) (tags p) fl (processing_history p) (context p).

Definition set_modified_date (p : Project) (d : datetime) : Project :=
  mkProject (name p) (created_date p) d (id p) (base_dir p)
    (project_dir p) (input_dir p) (processed_dir p) (output_dir p)
    (description p) (tags p) (files p) (processing_history p) (context p).

Definition set_context (p : Project) (c : Context) : Project :=
  mkProject (name p) (created_date p) (modified_date p) (id p) (base_dir p)
    (project_dir p) (input_dir p) (processed_dir p) (output_dir p)
    (description p) (tags p) (files p) (processing_history p) c.

(** ** [Context] *)

(** [get_image_dirs], [get_csv_dirs] *)
Definition get_image_dirs (p : Project) : list string :=
  map f_path
    (filter (λ file, endswith_any (lower (f_path file)) [".png"; ".jpg"; ".jpeg"])
       (processed (files p))).

Definition get_csv_dirs (p : Project) : list string :=
  map f_path
    (filter (λ file, endswith (lower (f_path file)) ".csv") (processed (files p))).

(** [Context.update_from_project]; a CSV file that cannot be read is left
    out. *)
Definition update_from_project (p : Project) (f : filesystem) : Project :=
  let c := context p in
  let all_images := get_image_dirs p in
  set_context p
    (mkContext (omap (read_text f) (get_csv_dirs p)) all_images all_images
       (name p) (requirements c) (tech_stack c)
       (generated_text_doc c) (generated_diagram c) (prototype_code c)).

(** [Context.__init__], before its call of [update_from_project]. *)
Definition new_context : Context :=
  mkContext [] [] [] ""
    (mkRequirements (VStr "") (VStr "") (VDict []) (VStr ""))
    (VStr "") (VDict []) (VDict []) (VStr "").

(** ** [Project] *)

Definition folder_name (name id : string) : string :=
  replace_char " " "_" name +:+ "_" +:+ id.

(** [Project.__init__] *)
Definition init (name : string) (base_dir : option string) (w : world)
    : Project * world :=
  let '(created, w) := read_clock w in
  let '(t, w) := read_clock w in
  let id := timestamp_id t in
  let base :=
    match base_dir with
    | Some b => if String.eqb b "" then getcwd else abspath b
    | None => getcwd
    end in
  let project_dir := join base (folder_name name id) in
  let p :=
    mkProject name created created id base project_dir
      (join project_dir "input") (join project_dir "processed")
      (join project_dir "output")
      (VStr "") (VList []) (Files [] [] []) (VList []) new_context in
  (update_from_project p (fs w), w).

Definition file_to_value (f : file_record) : value :=
  VDict [("path", VStr (f_path f)); ("name", VStr (f_name f));
         ("type", VStr (f_type f)); ("added_date", VStr (f_added_date f));
         ("modified_date", VStr (f_modified_date f)); ("size", VInt (f_size f))].

Definition files_to_value (fl : files_dict) : value :=
  VDict [("input", VList (map file_to_value (input fl)));
         ("processed", VList (map file_to_value (processed fl)));
         ("output", VList (map file_to_value (output fl)))].

(** [to_dict] *)
Definition to_dict (p : Project) : value :=
  VDict [
    ("name", VStr (name p));
    ("id", VStr (id p));
    ("created_date", VStr (isoformat (created_date p)));
    ("modified_date", VStr (isoformat (modified_date p)));
    ("description", description p);
    ("tags", tags p);
    ("directories",
      VDict [("base", VStr (base_dir p)); ("project", VStr (project_dir p));
             ("input", VStr (input_dir p)); ("processed", VStr (processed_dir p));
             ("output", VStr (output_dir p))]);
    ("files", files_to_value (files p));
    ("processing_history", processing_history p);
    ("requirements",
      VDict [("input_description", input_description (requirements (context p)));
             ("output_description", output_description (requirements (context p)));
             ("features", features (requirements (context p)));
             ("further_requirements", further_requirements (requirements (context p)))]);
    ("tech_stack", tech_stack (context p))
  ].

(** *** [scan_and_update_files] *)

(** A dictionary display [{k1: v1, k2: v2, ...}]: a key written twice
    keeps its first place and its last value. *)
Fixpoint dict_insert {V} (k : string) (v : V) (d : list (string * V))
    : list (string * V) :=
  match d with
  | [] => [(k, v)]
  | (k', v') :: d' =>
      if String.eqb k k' then (k, v) :: d' else (k', v') :: dict_insert k v d'
  end.

Definition dict_display {V} (items : list (string * V)) : list (string * V) :=
  foldl (λ d kv, dict_insert kv.1 kv.2 d) [] items.

(** The record of a file found by the scan. *)
Definition scanned_record (f : filesystem) (file_path file_name : string)
    : file_record :=
  match f !! file_path with
  | Some (File content ctime mtime) =>
      FileRecord file_path file_name (_get_file_type_from_extension file_name)
        (isoformat ctime) (isoformat mtime) (getsize content)
  | _ =>
      FileRecord file_path file_name (_get_file_type_from_extension file_name) "" "" 0
  end.

(** The loop over the names of one directory. *)
Definition scan_name (f : filesystem) (directory : string)
    (found : list file_record) (file_name : string) : list file_record :=
  let file_path := join directory file_name in
  if isfile f file_path then
    if endswith (lower file_name) ".geometry.json" then found
    else if existsb (λ r, String.eqb (f_path r) file_path) found then found
    else found ++ [scanned_record f file_path file_name]
  else found.

(** [sorted(l, key=lambda x: x['name'])]: stable, by the order of
    strings. *)
Fixpoint insert_by_name (x : file_record) (l : list file_record) : list file_record :=
  match l with
  | [] => [x]
  | y :: l' =>
      if String.leb (f_name x) (f_name y) then x :: y :: l'
      else y :: insert_by_name x l'
  end.

Definition sorted_by_name (l : list file_record) : list file_record :=
  foldr insert_by_name [] l.

(** The order of the sorted lists. *)
Definition name_le (x y : file_record) : Prop :=
  String.leb (f_name x) (f_name y) = true.

Definition all_sorted (fl : files_dict) : Prop :=
  ∀ b, Sorted name_le (files_get fl b).

(** One turn of the loop over [dir_map.items()]. *)
Definition scan_directory (f : filesystem) (fl : files_dict) (item : string * bucket)
    : result files_dict :=
  let '(directory, type_key) := item in
  fl ← (if path_exists f directory then
          names ← listdir f directory;
          mret (files_set fl type_key
                  (foldl (scan_name f directory) (files_get fl type_key) names))
        else mret fl);
  mret (files_set fl type_key (sorted_by_name (files_get fl type_key))).

(** The loop; when a turn raises, the files collected so far stay. *)
Fixpoint scan_directories (f : filesystem) (fl : files_dict)
    (items : list (string * bucket)) : files_dict * option exn :=
  match items with
  | [] => (fl, None)
  | item :: items' =>
      match scan_directory f fl item with
      | Ok fl' => scan_directories f fl' items'
      | Raise e => (fl, Some e)
      end
  end.

(** The list a scan leaves for a bucket whose directory exists. *)
Definition scanned (f : filesystem) (d : string) : result (list file_record) :=
  names ← listdir f d;
  mret (sorted_by_name (foldl (scan_name f d) [] names)).

Definition dir_map (p : Project) : list (string * bucket) :=
  dict_display [(input_dir p, Input); (processed_dir p, Processed);
                (output_dir p, Output)].

(** [scan_and_update_files]; the broadcast at its end leaves the project
    and the file system as they are and is not modelled. *)
Definition scan_and_update_files (p : Project) (w : world)
    : result unit * Project * world :=
  match scan_directories (fs w) (Files [] [] []) (dir_map p) with
  | (fl, None) =>
      let p := set_files p fl in
      let '(t, w) := read_clock w in
      let p := set_modified_date p t in
      (Ok (), update_from_project p (fs w), w)
  | (fl, Some e) => (Raise e, set_files p fl, w)
  end.

(** *** [add_file] *)
Definition add_file (p : Project) (w : world) (file_path file_type : string)
    : bool * Project * world :=
  match bucket_of file_type with
  | None => (false, p, w)
  | Some b =>
      if negb (path_exists (fs w) file_path) then (false, p, w)
      else if existsb (λ f, String.eqb (f_path f) file_path) (files_get (files p) b)
      then (true, p, w)
      else
        match scan_and_update_files p w with
        | (Ok _, p, w) =>
            let '(t, w) := read_clock w in
            (true, set_modified_date p t, w)
        | (Raise _, p, w) => (false, p, w)
        end
  end.

(** *** [create_file] *)

(** The name tried at the given turn of the loop. *)
Definition numbered_name (original_file_name file_extension : string) (counter : nat)
    : string :=
  original_file_name +:+ "_" +:+ pretty counter +:+ file_extension.

(** The [while os.path.exists(new_file_path)] loop, from the turn
    [counter] on; [fuel] bounds the number of turns. *)
Fixpoint free_name (fuel : nat) (f : filesystem) (dest_dir original_file_name
    file_extension current_file_name : string) (counter : nat) : option string :=
  if path_exists f (join dest_dir current_file_name) then
    match fuel with
    | O => None
    | S fuel' =>
        free_name fuel' f dest_dir original_file_name file_extension
          (numbered_name original_file_name file_extension counter) (S counter)
    end
  else Some current_file_name.

(** [create_file]; [None] in the first component is a loop that ran out
    of fuel, [Some None] the failure the code returns as [None]. *)
Definition create_file (fuel : nat) (p : Project) (w : world)
    (file_name file_type : string) (content : text)
    : option (option string) * Project * world :=
  match bucket_of file_type with
  | None => (Some None, p, w)
  | Some b =>
      let dest_dir := dir_of p b in
      if String.eqb dest_dir "" then (Some None, p, w)
      else
        let '(original_file_name, file_extension) := splitext file_name in
        match free_name fuel (fs w) dest_dir original_file_name file_extension
                file_name 1 with
        | None => (None, p, w)
        | Some current_file_name =>
            let new_file_path := join dest_dir current_file_name in
            match write_text w new_file_path content with
            | Some w =>
                let '(_, p, w) := add_file p w new_file_path file_type in
                (Some (Some new_file_path), p, w)
            | None => (Some None, p, w)
            end
        end
  end.

(** The name [create_file] settles on: the requested one when it is
    free, and otherwise the first free one among [name_1.ext],
    [name_2.ext], ... *)
Definition first_free_name (f : filesystem) (dest_dir file_name final_name : string)
    : Prop :=
  f !! join dest_dir final_name = None ∧
  (final_name = file_name ∨
   ∃ counter, 1 ≤ counter ∧
     final_name =
       numbered_name (splitext file_name).1 (splitext file_name).2 counter ∧
     path_exists f (join dest_dir file_name) = true ∧
     ∀ k, 1 ≤ k < counter →
       path_exists f
         (join dest_dir
            (numbered_name (splitext file_name).1 (splitext file_name).2 k)) = true).

(** *** [rename_file] *)
Definition rename_file (p : Project) (w : world) (file_name new_name file_type : string)
    : result bool * Project * world :=
  match bucket_of file_type with
  | None => (Ok false, p, w)
  | Some b =>
      let dest_dir := dir_of p b in
      if String.eqb dest_dir "" then (Ok false, p, w)
      else
        match find (λ f, String.eqb (f_name f) file_name) (files_get (files p) b) with
        | None => (Ok false, p, w)
        | Some file_info =>
            let old_path := f_path file_info in
            let rename_it (p : Project) (w : world) :=
              let new_path := join dest_dir new_name in
              if path_exists (fs w) new_path then (Ok false, p, w)
              else
                match rename w old_path new_path with
                | Some w =>
                    match scan_and_update_files p w with
                    | (Ok _, p, w) =>
                        let '(t, w) := read_clock w in
                        (Ok true, set_modified_date p t, w)
                    | (Raise _, p, w) => (Ok false, p, w)
                    end
                | None => (Ok false, p, w)
                end in
            if negb (path_exists (fs w) old_path) then
              match scan_and_update_files p w with
              | (Ok _, p, w) =>
                  if negb (existsb
                             (λ f, String.eqb (f_name f) file_name &&
                                   String.eqb (f_path f) old_path)
                             (files_get (files p) b))
                  then (Ok false, p, w)
                  else rename_it p w
              | (Raise e, p, w) => (Raise e, p, w)
              end
            else rename_it p w
        end
  end.

(** *** [save_metadata], [load_from_metadata] *)

Definition metadata_path (p : Project) : string :=
  join (project_dir p) "project_metadata.json".

Definition save_metadata (p : Project) (w : world) : bool * world :=
  match write_text w (metadata_path p) (json_dump (to_dict p)) with
  | Some w => (true, w)
  | None => (false, w)
  end.

Definition as_str (v : value) : option string :=
  match v with
  | VStr s => Some s
  | _ => None
  end.

Definition as_dict (v : value) : option obj :=
  match v with
  | VDict d => Some d
  | _ => None
  end.

(** Python's truth of a value, for [if base_dir]. *)
Definition truthy (v : value) : bool :=
  match v with
  | VNone => false
  | VBool b => b
  | VInt z => negb (z =? 0)%Z
  | VStr s => negb (String.eqb s "")
  | VList l => negb (bool_decide (l = []))
  | VDict d => negb (bool_decide (length d = 0))
  end.

(** The file records as the code uses them are typed here; the document
    read back is decoded into them. A [files] entry of another shape than
    [to_dict] writes is outside this embedding. *)
Definition file_of_value (v : value) : option file_record :=
  d ← as_dict v;
  path ← lookup_key "path" d ≫= as_str;
  name ← lookup_key "name" d ≫= as_str;
  type ← lookup_key "type" d ≫= as_str;
  added ← lookup_key "added_date" d ≫= as_str;
  modified ← lookup_key "modified_date" d ≫= as_str;
  size ← lookup_key "size" d ≫= (λ v, match v with VInt z => Some z | _ => None end);
  Some (FileRecord path name type added modified size).

Definition file_list_of_value (v : value) : option (list file_record) :=
  match v with
  | VList l => mapM file_of_value l
  | _ => None
  end.

Definition files_of_value (v : value) : option files_dict :=
  d ← as_dict v;
  i ← lookup_key "input" d ≫= file_list_of_value;
  p ← lookup_key "processed" d ≫= file_list_of_value;
  o ← lookup_key "output" d ≫= file_list_of_value;
  Some (Files i p o).

(** The requirements read from [req_data]. *)
Definition requirements_of (req_data : obj) : Requirements :=
  mkRequirements
    (default (VStr "") (lookup_key "input_description" req_data))
    (default (VStr "") (lookup_key "output_description" req_data))
    (default (VDict []) (lookup_key "features" req_data))
    (default (VStr "") (lookup_key "further_requirements" req_data)).

Definition set_requirements (c : Context) (r : Requirements) : Context :=
  mkContext (csv_description c) (ui_image c) (diagram_image c) (project_name c)
    r (tech_stack c) (generated_text_doc c) (generated_diagram c) (prototype_code c).

Definition set_tech_stack (c : Context) (t : value) : Context :=
  mkContext (csv_description c) (ui_image c) (diagram_image c) (project_name c)
    (requirements c) t (generated_text_doc c) (generated_diagram c) (prototype_code c).

Definition lookup_str (k : string) (d : obj) : option string :=
  match lookup_key k d with
  | Some (VStr s) => Some s
  | _ => None
  end.

Definition lookup_dict (k : string) (d : obj) : option obj :=
  match lookup_key k d with
  | Some (VDict d') => Some d'
  | _ => None
  end.

Definition lookup_date (k : string) (d : obj) : option datetime :=
  match lookup_str k d with
  | Some s => fromisoformat s
  | None => None
  end.

(** The argument [metadata["directories"]["base"]] of the constructor:
    a false value stands for no argument, a true one has to be a
    string. *)
Definition base_argument (directories : obj) : option (option string) :=
  match lookup_key "base" directories with
  | Some base => if truthy base then Some <$> as_str base else Some None
  | None => None
  end.

Definition loaded_files (metadata : obj) : option files_dict :=
  match lookup_key "files" metadata with
  | Some v => files_of_value v
  | None => Some (Files [] [] [])
  end.

Definition loaded_requirements (metadata : obj) (c : Context) : option Requirements :=
  match lookup_key "requirements" metadata with
  | Some (VDict req_data) => Some (requirements_of req_data)
  | Some _ => None
  | None => Some (requirements c)
  end.

(** The body of the [try] of [load_from_metadata] once the document is
    read; [None] is an exception. *)
Definition load_project (metadata : obj) (w : world) : option (Project * world) :=
  name ← lookup_str "name" metadata;
  directories ← lookup_dict "directories" metadata;
  base_arg ← base_argument directories;
  let started := init name base_arg w in
  let project := started.1 in
  let w := started.2 in
  id ← lookup_str "id" metadata;
  let project_dir := join (base_dir project) (folder_name name id) in
  created ← lookup_date "created_date" metadata;
  modified ← lookup_date "modified_date" metadata;
  files ← loaded_files metadata;
  let project :=
    mkProject name created modified id (base_dir project) project_dir
      (join project_dir "input") (join project_dir "processed")
      (join project_dir "output")
      (default (VStr "") (lookup_key "description" metadata))
      (default (VList []) (lookup_key "tags" metadata))
      files
      (default (VList []) (lookup_key "processing_history" metadata))
      new_context in
  let project := update_from_project project (fs w) in
  reqs ← loaded_requirements metadata (context project);
  let project := set_context project (set_requirements (context project) reqs) in
  let project :=
    set_context project
      (set_tech_stack (context project)
         (default (VStr "") (lookup_key "tech_stack" metadata))) in
  Some (update_from_project project (fs w), w).

(** [load_from_metadata]: an exception becomes the result [None]. *)
Definition load_from_metadata (metadata_path : string) (w : world)
    : option Project * world :=
  match read_text (fs w) metadata_path with
  | Some content =>
      match json_load content with
      | Some (VDict metadata) =>
          match load_project metadata w with
          | Some (project, w) => (Some project, w)
          | None => (None, w)
          end
      | _ => (None, w)
      end
  | None => (None, w)
  end.

End WithLibrary.

Abbreviation filesystem := (gmap string node).

(** ** A library and a project for the examples

    Dates and texts are kept as the values they print to. *)
Definition example_library : Library := {|
  datetime := string;
  text := value;
  isoformat := λ d, d;
  fromisoformat := λ s, Some s;
  json_dump := λ v, v;
  json_load := λ t, Some t;
  now := λ n, "2025-01-01T00:00:0" +:+ pretty n;
  timestamp_id := λ _, "abc12345";
  abspath := λ s, s;
  getcwd := "/home/user";
  getsize := λ _, 0%Z
|}.

Definition demo_dir : string := "/home/user/Demo_abc12345".

(** The project "Demo" after [create_directory_structure]. *)
Definition demo_world : @world example_library :=
  World (list_to_map
           [("/home/user", Dir); (demo_dir, Dir);
            (demo_dir +:+ "/input", Dir); (demo_dir +:+ "/processed", Dir);
            (demo_dir +:+ "/output", Dir)]) 0.

Definition demo_project : @Project example_library :=
  (init "Demo" (Some "/home/user") demo_world).1.

(** The same directories with an image [logo.gif] among the processed
    files. *)
Definition gif_world : @world example_library :=
  World (<[demo_dir +:+ "/processed/logo.gif" :=
             @File example_library (VStr "GIF89a")
               "2025-01-01T00:00:00" "2025-01-01T00:00:00"]>
           (fs demo_world)) 0.

(** The project with [report.md] created twice in its output bucket. *)
Definition two_reports : @Project example_library * @world example_library :=
  let first :=
    @create_file example_library 10 demo_project demo_world "report.md" "output"
      (VStr "one") in
  let second :=
    @create_file example_library 10 first.1.2 first.2 "report.md" "output"
      (VStr "two") in
  (second.1.2, second.2).

End Project.

(** * The diagram agent: the kind of diagram a prompt asks for *)

Module Agent.
Import Project.

(** [sub in s] on strings. *)
Fixpoint contains (sub s : string) : bool :=
  String.prefix sub s ||
  match s with
  | EmptyString => false
  | String _ s' => contains sub s'
  end.

(** [DiagramAgent._determine_diagram_type]. The words looked for are
    ASCII, and no character that [str.lower] turns into an ASCII letter
    can complete one of them, so that [lower] decides the tests as
    [str.lower] does. *)
Definition _determine_diagram_type (prompt : string) : string :=
  let prompt_lower := lower prompt in
  if contains "class" prompt_lower then "UML Class Diagram"
  else if contains "sequence" prompt_lower then "UML Sequence Diagram"
  else if contains "database" prompt_lower || contains "er" prompt_lower ||
          contains "entity" prompt_lower then "Database Diagram"
  else if contains "use case" prompt_lower || contains "usecase" prompt_lower
  then "Use Case Diagram"
  else if contains "activity" prompt_lower then "Activity Diagram"
  else "UML Class Diagram".

End Agent.

(** * The connection manager *)

Module Connections.

(** A [WebSocket] object; two connections are equal when they are the
    same object. *)
Abbreviation socket := nat.

(** [ConnectionManager.active_connections] *)
Abbreviation connections := (gmap string (list socket)).

(** [connect], after the socket is accepted. *)
Definition connect (websocket : socket) (project_id : string) (active : connections)
    : connections :=
  let active :=
    if bool_decide (is_Some (active !! project_id)) then active
    else <[project_id := []]> active in
  <[project_id := default [] (active !! project_id) ++ [websocket]]> active.

(** [l.remove(x)]: the first occurrence goes. *)
Fixpoint list_remove (x : socket) (l : list socket) : list socket :=
  match l with
  | [] => []
  | y :: l' => if bool_decide (y = x) then l' else y :: list_remove x l'
  end.

(** [disconnect] *)
Definition disconnect (websocket : socket) (project_id : string) (active : connections)
    : connections :=
  match active !! project_id with
  | Some l =>
      let active :=
        if bool_decide (websocket ∈ l) then
          let l' := list_remove websocket l in
          let active := <[project_id := l']> active in
          if bool_decide (l' = []) then delete project_id active else active
        else active in
      match active !! project_id with
      | Some [] => delete project_id active
      | _ => active
      end
  | None => active
  end.

(** [broadcast], run without another task changing the connections
    meanwhile. [send_json] tells whether the message reaches a
    connection; a connection it does not reach raises and is
    disconnected after the loop. The result holds the connections that
    were sent the message, in order, and the connections left. *)
Definition broadcast (send_json : socket → bool) (project_id : string)
    (active : connections) : list socket * connections :=
  match active !! project_id with
  | Some l =>
      let disconnected_sockets := filter (λ c, negb (send_json c)) l in
      (filter (λ c, send_json c) l,
       foldl (λ active sock, disconnect sock project_id active)
         active disconnected_sockets)
  | None => ([], active)
  end.

(** No project is left with an empty list of connections. *)
Definition no_empty (active : connections) : Prop :=
  ∀ project_id l, active !! project_id = Some l → l ≠ [].

End Connections.

(** * The project store: removal of files and the preview *)

Module ProjectOps.
Import Project.

Section WithLibrary.
Context {L : Library}.

(** [get_preview_html_dir]: the first record of [output], then of
    [processed], whose path ends in [.html]. *)
Definition first_html (file_list : list file_record) : option string :=
  f_path <$> find (λ file_info, endswith (lower (f_path file_info)) ".html") file_list.

Definition get_preview_html_dir (p : Project) : option string :=
  match first_html (output (files p)) with
  | Some path => Some path
  | None => first_html (processed (files p))
  end.

(** [os.remove]: removes a file; raises on a directory and on a path
    that does not exist. *)
Definition remove (w : world) (p : string) : option world :=
  if isfile (fs w) p then Some (World (delete p (fs w)) (ticks w)) else None.

(** [Project.delete_file] *)
Definition delete_file (p : Project) (w : world) (file_name file_type : string)
    : bool * Project * world :=
  match bucket_of file_type with
  | None => (false, p, w)
  | Some b =>
      match find (λ f, String.eqb (f_name f) file_name) (files_get (files p) b) with
      | Some file_info =>
          match remove w (f_path file_info) with
          | Some w =>
              match scan_and_update_files p w with
              | (Ok _, p, w) =>
                  let '(t, w) := read_clock w in
                  (true, set_modified_date p t, w)
              | (Raise _, p, w) => (false, p, w)
              end
          | None => (false, p, w)
          end
      | None => (false, p, w)
      end
  end.

(** What a scan records of a bucket directory: one record for each file
    that lies directly in it, but for the names ending in
    [.geometry.json]. *)
Definition recorded (f : filesystem) (d : string) (r : file_record) : Prop :=
  ∃ n, plain_name n = true ∧ isfile f (join d n) = true ∧
       endswith (lower n) ".geometry.json" = false ∧
       r = scanned_record f (join d n) n.

(** The records collected so far by the loop of a scan come from names
    of the directory. *)
Definition from_names (f : filesystem) (d : string) (found : list file_record) : Prop :=
  ∀ r, r ∈ found → ∃ n, plain_name n = true ∧ r = scanned_record f (join d n) n.

End WithLibrary.

End ProjectOps.

(** * The files router *)

Module FilesRouter.
Import Project.

(** The text after the last dot: [filename.rsplit('.', 1)[1]], for a
    [filename] with a dot. *)
Definition after_last_dot (filename : string) : string :=
  let i := Z.to_nat (rfind "." filename + 1) in
  String.substring i (String.length filename - i) filename.

(** [settings.ALLOWED_UPLOAD_EXTENSIONS],
    [settings.ALLOWED_SOURCE_EXTENSIONS] *)
Definition ALLOWED_UPLOAD_EXTENSIONS : list string := [".xlsx"; ".xls"].

Definition ALLOWED_SOURCE_EXTENSIONS : list string :=
  [".txt"; ".csv"; ".png"; ".jpg"; ".jpeg"].

Definition allowed_in (extensions : list string) (filename : string) : bool :=
  has_char "." filename &&
  bool_decide ("." +:+ lower (after_last_dot filename) ∈ extensions).

(** [allowed_file], [allowed_source_file] *)
Definition allowed_file (filename : string) : bool :=
  allowed_in ALLOWED_UPLOAD_EXTENSIONS filename.

Definition allowed_source_file (filename : string) : bool :=
  allowed_in ALLOWED_SOURCE_EXTENSIONS filename.

(** The status that [process_excel] reports: one turn of the outer loop
    over the results of the files; the inner loop stops at the first
    sheet in error. *)
Definition status_after (overall_status : string) (file_results : list string)
    : string :=
  if existsb (String.eqb "error") file_results then
    if String.eqb overall_status "success" then "partial" else "error"
  else overall_status.

Definition overall_status (results_for_response : list (list string)) : string :=
  foldl status_after "success" results_for_response.

(** The status for a number of files in error. *)
Definition status_of_errors (n : nat) : string :=
  match n with
  | 0 => "success"
  | 1 => "partial"
  | _ => "error"
  end.

(** The files, among the results, with a sheet in error. *)
Definition files_in_error (results_for_response : list (list string)) : nat :=
  length (filter (λ file_results, existsb (String.eqb "error") file_results)
            results_for_response).

Section WithLibrary.
Context {L : Library}.

(** What an endpoint answers: its result, or the status of the
    [HTTPException] it raises. *)
Inductive response : Type :=
  | Success
  | HTTPException (status_code : nat).

(** The endpoint [DELETE /files/delete/{filetype}/{filename}] *)
Definition delete_file (filetype filename : string) (current_project : Project)
    (w : world) : response * Project * world :=
  if negb (bool_decide (filetype ∈ ["input"; "processed"; "output"])) then
    (HTTPException 400, current_project, w)
  else
    let files_in_folder :=
      match bucket_of filetype with
      | Some b => files_get (files current_project) b
      | None => []
      end in
    match find (λ file_entry, String.eqb (f_name file_entry) filename) files_in_folder with
    | None => (HTTPException 404, current_project, w)
    | Some target_file =>
        let file_path := f_path target_file in
        let removed :=
          if path_exists (fs w) file_path then ProjectOps.remove w file_path
          else Some w in
        match removed with
        | Some w =>
            let '(_, current_project, w) :=
              ProjectOps.delete_file current_project w filename filetype in
            let '(_, w) := save_metadata current_project w in
            (Success, current_project, w)
        | None => (HTTPException 500, current_project, w)
        end
    end.

End WithLibrary.

End FilesRouter.

(** * The id of a project *)

Module ProjectId.

(** A digit of [format(n, 'x')]. *)
Definition hex_digit (d : N) : ascii :=
  match d with
  | 0%N => "0" | 1%N => "1" | 2%N => "2" | 3%N => "3" | 4%N => "4"
  | 5%N => "5" | 6%N => "6" | 7%N => "7" | 8%N => "8" | 9%N => "9"
  | 10%N => "a" | 11%N => "b" | 12%N => "c" | 13%N => "d" | 14%N => "e"
  | _ => "f"
  end%char.

(** The digits of [n] before [acc], the last digit first; [fuel] bounds
    the number of digits after the first one. *)
Fixpoint hex_go (fuel : nat) (n : N) (acc : string) : string :=
  let acc := String (hex_digit (n mod 16)) acc in
  match fuel with
  | O => acc
  | S fuel' => if (n <? 16)%N then acc else hex_go fuel' (n / 16) acc
  end.

(** [f"{n:x}"] for a natural number: it has at most one digit for each
    binary digit of [n]. *)
Definition hex (n : N) : string := hex_go (N.to_nat (N.log2 n)) n "".

(** [f"{timestamp:x}"] for an integer. *)
Definition format_x (timestamp : Z) : string :=
  if (timestamp <? 0)%Z then "-" +:+ hex (Z.to_N (- timestamp))
  else hex (Z.to_N timestamp).

(** [s[-8:]] *)
Definition last8 (s : string) : string :=
  String.substring (String.length s - 8) 8 s.

(** [Project._generate_id], for the integer
    [int(datetime.datetime.now().timestamp() * 1000)]. *)
Definition _generate_id (timestamp : Z) : string := last8 (format_x timestamp).

(** The [k] last digits of a number with at least [k] digits. *)
Fixpoint low_digits (k : nat) (n : N) : string :=
  match k with
  | O => ""
  | S k' => low_digits k' (n / 16) +:+ String (hex_digit (n mod 16)) ""
  end.

End ProjectId.

(** * Facts about the diagram merge engine *)

Module DiagramFacts.
Import Diagram.

(** ** Running the store monad *)

Lemma bind_ok {A B} (m : M A) (f : A → M B) st a st' :
  m st = Ok (a, st') → (m ≫= f) st = f a st'.
Proof. intros H. unfold mbind, M_bind. by rewrite H. Qed.

Lemma bind_raise {A B} (m : M A) (f : A → M B) st e :
  m st = Raise e → (m ≫= f) st = Raise e.
Proof. intros H. unfold mbind, M_bind. by rewrite H. Qed.

Lemma updates_refl key d st : wf st d → updates key d st st (array_at st d key).
Proof. intros Hwf. by repeat split. Qed.

Lemma updates_trans key d st1 st2 st3 r2 r3 :
  updates key d st1 st2 r2 → updates key d st2 st3 r3 → updates key d st1 st3 r3.
Proof.
  intros (_ & _ & Hk & Hd & Ho) (Hwf & Hr & Hk' & Hd' & Ho').
  repeat split; [done.. | | |].
  - intros k Hne. rewrite Hk' by done. by apply Hk.
  - intros d' Hne. rewrite Hd' by done. by apply Hd.
  - by rewrite Ho'.
Qed.

Lemma outcome_ok key d st st' r :
  updates key d st st' r → outcome key d st (Ok ((), st')) (Ok r).
Proof. intros H. by exists st'. Qed.

Lemma outcome_same key d st :
  wf st d → outcome key d st (Ok ((), st)) (Ok (array_at st d key)).
Proof. intros H. by apply outcome_ok, updates_refl. Qed.

Lemma outcome_step key d st st1 r1 run spec :
  updates key d st st1 r1 → outcome key d st1 run spec → outcome key d st run spec.
Proof.
  intros Hup Hout. destruct spec as [r|e]; [|done].
  destruct Hout as (st2 & -> & Hup2). exists st2. split; [done|].
  by eapply updates_trans.
Qed.

Lemma lift_Ok_bind {A B} (a : A) (f : A → M B) st : (lift (Ok a) ≫= f) st = f a st.
Proof. done. Qed.

Lemma lift_Raise_bind {A B} e (f : A → M B) st :
  (lift (Raise e) ≫= f) st = Raise e.
Proof. done. Qed.

Lemma result_Ok_bind {A B} (a : A) (f : A → result B) : Ok a ≫= f = f a.
Proof. done. Qed.

Lemma ret_bind {A B} (a : A) (f : A → M B) st : (mret a ≫= f) st = f a st.
Proof. done. Qed.

Lemma refines_bind key d m1 m2 f1 f2 :
  refines key d m1 f1 → refines key d m2 f2 →
  refines key d (m1;; m2) (λ arr, f1 arr ≫= f2).
Proof.
  intros H1 H2 st Hwf. specialize (H1 st Hwf).
  destruct (f1 (array_at st d key)) as [r1|e]; simpl.
  - destruct H1 as (st1 & Hrun1 & Hup1).
    rewrite (bind_ok _ _ _ _ _ Hrun1).
    pose proof Hup1 as (Hwf1 & Hr1 & _).
    specialize (H2 st1 Hwf1). rewrite Hr1 in H2.
    by eapply outcome_step.
  - red in H1. by rewrite (bind_raise _ _ _ _ H1).
Qed.

Lemma refines_ret key d : refines key d (mret ()) Ok.
Proof. intros st Hwf. by apply outcome_same. Qed.

(** ** The primitive operations on a well-formed dictionary *)

Lemma array_at_Some st d k xs :
  array_at st d k = Some xs ↔
  ∃ pd l, dicts st !! d = Some pd ∧ arrays pd !! k = Some l ∧ lists st !! l = Some xs.
Proof.
  unfold array_at. split.
  - intros H. destruct (dicts st !! d) as [pd|] eqn:Hd; [|done]. simpl in H.
    destruct (arrays pd !! k) as [l|] eqn:Hl; [|done]. simpl in H. eauto.
  - intros (pd & l & -> & Hl & Hxs). simpl. rewrite Hl. done.
Qed.

Lemma array_at_None st d k pd :
  wf st d → dicts st !! d = Some pd →
  array_at st d k = None ↔ arrays pd !! k = None.
Proof.
  intros (pd' & Hd & Halloc & _) Hpd. assert (pd' = pd) as -> by congruence.
  unfold array_at. rewrite Hd. simpl.
  destruct (arrays pd !! k) as [l|] eqn:Hl; simpl; [|done].
  destruct (Halloc _ _ Hl) as [xs Hxs]. rewrite Hxs. done.
Qed.

(** Replacing the array under [key] by a new list object. *)
Lemma rebind_updates key d st xs :
  wf st d →
  ∃ st', (l' ← list_new xs; dict_setitem d key l') st = Ok ((), st') ∧
         updates key d st st' (Some xs).
Proof.
  intros (pd & Hd & Halloc & Hinj).
  set (l := fresh (dom (lists st))).
  assert (lists st !! l = None) as Hfresh.
  { apply not_elem_of_dom. apply is_fresh. }
  eexists. split.
  { unfold mbind, M_bind, list_new, dict_setitem. simpl. rewrite Hd. done. }
  fold l. repeat split.
  - eexists. split; [simpl; apply lookup_insert_eq|]. simpl. split.
    + intros k l0 Hk. destruct (decide (l0 = l)) as [->|Hne].
      * rewrite lookup_insert_eq. eauto.
      * rewrite lookup_insert_ne by done.
        destruct (decide (k = key)) as [->|Hk'].
        -- rewrite lookup_insert_eq in Hk. congruence.
        -- rewrite lookup_insert_ne in Hk by done. eauto.
    + intros k1 k2 l0 Hk1 Hk2.
      destruct (decide (k1 = key)) as [->|H1], (decide (k2 = key)) as [->|H2];
        [done | | | ].
      * rewrite lookup_insert_eq in Hk1. rewrite lookup_insert_ne in Hk2 by done.
        simplify_eq. destruct (Halloc _ _ Hk2) as [? ?]. congruence.
      * rewrite lookup_insert_eq in Hk2. rewrite lookup_insert_ne in Hk1 by done.
        simplify_eq. destruct (Halloc _ _ Hk1) as [? ?]. congruence.
      * rewrite lookup_insert_ne in Hk1, Hk2 by done. eauto.
  - unfold array_at. simpl. rewrite lookup_insert_eq. simpl.
    rewrite lookup_insert_eq. simpl. apply lookup_insert_eq.
  - intros k Hne. unfold array_at. simpl. rewrite lookup_insert_eq, Hd. simpl.
    rewrite lookup_insert_ne by done.
    destruct (arrays pd !! k) as [l0|] eqn:Hk; simpl; [|done].
    rewrite lookup_insert_ne; [done|].
    intros <-. destruct (Halloc _ _ Hk) as [? ?]. congruence.
  - intros d' Hne. simpl. by rewrite lookup_insert_ne.
  - simpl. rewrite lookup_insert_eq, Hd. done.
Qed.

(** Appending to the array under [key]. *)
Lemma append_updates key d st xs x :
  wf st d → array_at st d key = Some xs →
  ∃ st', (l ← dict_getitem d key; list_append l x) st = Ok ((), st') ∧
         updates key d st st' (Some (xs ++ [x])).
Proof.
  intros Hwf Harr. pose proof Hwf as (pd & Hd & Halloc & Hinj).
  apply array_at_Some in Harr as (pd' & l & Hd' & Hl & Hxs).
  assert (pd' = pd) as -> by congruence.
  eexists. split.
  { unfold mbind, M_bind, dict_getitem, list_append. rewrite Hd, Hl, Hxs. done. }
  repeat split.
  - exists pd. split; [done|]. split; [|done]. simpl.
    intros k l0 Hk. destruct (decide (l0 = l)) as [->|Hne].
    + rewrite lookup_insert_eq. eauto.
    + rewrite lookup_insert_ne by done. eauto.
  - unfold array_at. simpl. rewrite Hd. simpl. rewrite Hl. simpl.
    apply lookup_insert_eq.
  - intros k Hne. unfold array_at. simpl. rewrite Hd. simpl.
    destruct (arrays pd !! k) as [l0|] eqn:Hk; simpl; [|done].
    rewrite lookup_insert_ne; [done|]. intros <-. apply Hne. eauto.
Qed.


Lemma read_array {B} key d st xs (f : list obj → M B) :
  array_at st d key = Some xs →
  (l ← dict_getitem d key; xs ← list_read l; f xs) st = f xs st.
Proof.
  intros (pd & l & Hd & Hl & Hxs)%array_at_Some.
  unfold mbind, M_bind, dict_getitem, list_read. by rewrite Hd, Hl, Hxs.
Qed.

Lemma contains_array {B} key d st (f : bool → M B) :
  wf st d →
  (present ← dict_contains d key; f present) st =
  f (bool_decide (is_Some (array_at st d key))) st.
Proof.
  intros Hwf. pose proof Hwf as (pd & Hd & _).
  unfold mbind, M_bind, dict_contains. rewrite Hd.
  f_equal. apply bool_decide_ext.
  rewrite <-!not_eq_None_Some. by rewrite (array_at_None _ _ _ _ Hwf Hd).
Qed.

(** ** The entity blocks *)

Lemma rebind_outcome key d st xs :
  wf st d →
  outcome key d st ((l' ← list_new xs; dict_setitem d key l') st) (Ok (Some xs)).
Proof.
  intros Hwf. destruct (rebind_updates key d st xs Hwf) as (st' & -> & Hup).
  by apply outcome_ok.
Qed.

Lemma remove_entities_refines key d ec :
  refines key d (remove_entities key d ec) (removed_entities (ec_remove ec)).
Proof.
  intros st Hwf. unfold remove_entities, removed_entities.
  destruct (ec_remove ec) as [rm|]; [|by apply outcome_same].
  destruct (py_set rm) as [to_remove|e]; [|done].
  rewrite lift_Ok_bind, result_Ok_bind, contains_array by done.
  destruct (array_at st d key) as [xs|] eqn:Harr.
  - rewrite bool_decide_true by (by eexists).
    rewrite (read_array _ _ _ _ _ Harr).
    change (λ cls : obj, negb <$> set_contains (get cls "name") to_remove)
      with (λ cls : obj, negb <$> set_contains (name_of cls) to_remove).
    destruct (filterM _ xs) as [kept|e]; [|exact eq_refl].
    rewrite lift_Ok_bind. by apply rebind_outcome.
  - rewrite bool_decide_false by (by intros [? ?]).
    rewrite <-Harr. by apply outcome_same.
Qed.

Lemma ensure_array_refines key d :
  refines key d (ensure_array key d) (λ arr, Ok (Some (default [] arr))).
Proof.
  intros st Hwf. unfold ensure_array. rewrite contains_array by done.
  destruct (array_at st d key) as [xs|] eqn:Harr.
  - rewrite bool_decide_true by (by eexists).
    apply outcome_ok. simpl. rewrite <-Harr. by apply updates_refl.
  - rewrite bool_decide_false by (by intros [? ?]).
    by apply rebind_outcome.
Qed.

Lemma for_each_run {A} key d (body : A → M unit)
    (step : list obj → A → result (list obj)) :
  (∀ st xs a, wf st d → array_at st d key = Some xs →
     outcome key d st (body a st) (Some <$> step xs a)) →
  ∀ l st xs, wf st d → array_at st d key = Some xs →
    outcome key d st (for_each l body st) (Some <$> foldM step xs l).
Proof.
  intros Hbody l. induction l as [|a l IH]; intros st xs Hwf Harr; simpl.
  { rewrite <-Harr. by apply outcome_same. }
  specialize (Hbody st xs a Hwf Harr).
  destruct (step xs a) as [xs1|e]; simpl in *.
  - destruct Hbody as (st1 & Hrun & Hup). rewrite (bind_ok _ _ _ _ _ Hrun).
    pose proof Hup as (Hwf1 & Harr1 & _).
    eapply outcome_step; [done|]. by apply IH.
  - by rewrite (bind_raise _ _ _ _ Hbody).
Qed.

Lemma foldM_Ok {A B} (g : B → A → B) (b : B) (l : list A) :
  foldM (λ b a, Ok (g b a)) b l = Ok (foldl g b l).
Proof. revert b. induction l as [|a l IH]; intros b; simpl; [done|]. apply IH. Qed.

Lemma add_entity_run key d st xs new_class :
  wf st d → array_at st d key = Some xs →
  outcome key d st (add_entity key d new_class st)
    (Some <$> added_entity xs new_class).
Proof.
  intros Hwf Harr. unfold add_entity, added_entity.
  rewrite (read_array _ _ _ _ _ Harr).
  change (λ cls : obj, get cls "name") with name_of. fold (name_of new_class).
  destruct (py_set (map name_of xs)) as [names|e]; [|exact eq_refl].
  rewrite lift_Ok_bind, result_Ok_bind.
  destruct (set_contains (name_of new_class) names) as [dup|e]; [|exact eq_refl].
  rewrite lift_Ok_bind, result_Ok_bind. destruct dup.
  - apply outcome_ok. simpl. rewrite <-Harr. by apply updates_refl.
  - destruct (append_updates key d st xs new_class Hwf Harr) as (st1 & -> & Hup).
    by apply outcome_ok.
Qed.

Lemma add_entities_refines key d ec :
  refines key d (add_entities key d ec) (added_entities (ec_add ec)).
Proof.
  unfold add_entities, added_entities.
  destruct (ec_add ec) as [adds|]; [|by apply refines_ret].
  intros st Hwf.
  destruct (ensure_array_refines key d st Hwf) as (st1 & Hrun & Hup).
  rewrite (bind_ok _ _ _ _ _ Hrun).
  pose proof Hup as (Hwf1 & Harr1 & _).
  eapply outcome_step; [done|].
  apply (for_each_run key d _ added_entity); [|done..].
  intros. by apply add_entity_run.
Qed.

Lemma apply_entity_changes_refines key d ec :
  refines key d (apply_entity_changes key d ec) (merged_entities ec).
Proof.
  apply refines_bind; [apply remove_entities_refines | apply add_entities_refines].
Qed.

(** ** The relationship block *)

Lemma remove_relationship_run d st xs rel_to_remove :
  wf st d → array_at st d "relationships" = Some xs →
  outcome "relationships" d st (remove_relationship d rel_to_remove st)
    (Ok (Some (removed_relationship xs rel_to_remove))).
Proof.
  intros Hwf Harr. unfold remove_relationship.
  rewrite (read_array _ _ _ _ _ Harr). by apply rebind_outcome.
Qed.

Lemma add_relationship_run d st xs new_rel :
  wf st d → array_at st d "relationships" = Some xs →
  outcome "relationships" d st (add_relationship d new_rel st)
    (Ok (Some (added_relationship xs new_rel))).
Proof.
  intros Hwf Harr. unfold add_relationship, added_relationship.
  rewrite (read_array _ _ _ _ _ Harr).
  destruct (existsb (same_relationship new_rel) xs).
  - apply outcome_ok. rewrite <-Harr. by apply updates_refl.
  - destruct (append_updates "relationships" d st xs new_rel Hwf Harr)
      as (st1 & -> & Hup).
    by apply outcome_ok.
Qed.

Lemma remove_relationships_refines d rc :
  refines "relationships" d (remove_relationships d rc)
    (λ arr, Ok (removed_relationships (rc_remove rc) arr)).
Proof.
  intros st Hwf. unfold remove_relationships, removed_relationships.
  destruct (rc_remove rc) as [rm|]; [|by apply outcome_same].
  rewrite contains_array by done.
  destruct (array_at st d "relationships") as [xs|] eqn:Harr.
  - rewrite bool_decide_true by (by eexists).
    pose proof (for_each_run "relationships" d (remove_relationship d)
                  (λ xs r, Ok (removed_relationship xs r))
                  (λ st xs r, remove_relationship_run d st xs r)
                  rm st xs Hwf Harr) as Hloop.
    rewrite foldM_Ok in Hloop. exact Hloop.
  - rewrite bool_decide_false by (by intros [? ?]).
    rewrite <-Harr. by apply outcome_same.
Qed.

Lemma add_relationships_refines d rc :
  refines "relationships" d (add_relationships d rc)
    (λ arr, Ok (added_relationships (rc_add rc) arr)).
Proof.
  unfold add_relationships, added_relationships.
  destruct (rc_add rc) as [adds|]; [|by apply refines_ret].
  intros st Hwf.
  destruct (ensure_array_refines "relationships" d st Hwf) as (st1 & Hrun & Hup).
  rewrite (bind_ok _ _ _ _ _ Hrun).
  pose proof Hup as (Hwf1 & Harr1 & _).
  eapply outcome_step; [done|].
  pose proof (for_each_run "relationships" d (add_relationship d)
                (λ xs r, Ok (added_relationship xs r))
                (λ st xs r, add_relationship_run d st xs r)
                adds st1 _ Hwf1 Harr1) as Hloop.
  rewrite foldM_Ok in Hloop. exact Hloop.
Qed.

Lemma apply_relationship_changes_refines d rc :
  refines "relationships" d (apply_relationship_changes d rc)
    (λ arr, Ok (merged_relationships rc arr)).
Proof.
  exact (refines_bind _ _ _ _ _ _ (remove_relationships_refines d rc)
           (add_relationships_refines d rc)).
Qed.


(** ** The whole merge *)

Lemma wf_check_sound st d : wf_check st d = true → wf st d.
Proof.
  unfold wf_check, wf. destruct (dicts st !! d) as [pd|]; [|done].
  intros [Hall Hnd%bool_decide_eq_true_1]%andb_prop. exists pd. split; [done|].
  rewrite forallb_forall in Hall. split.
  - intros k l Hk. apply elem_of_map_to_list, list_elem_of_In in Hk.
    by apply Hall, bool_decide_eq_true_1 in Hk.
  - intros k1 k2 l H1 H2.
    apply elem_of_map_to_list in H1, H2.
    apply list_elem_of_lookup in H1 as [i1 H1], H2 as [i2 H2].
    assert (i1 = i2) as ->; [|congruence].
    eapply NoDup_lookup; [done| |]; rewrite list_lookup_fmap.
    + by rewrite H1.
    + by rewrite H2.
Qed.

Lemma entity_block_run key d o st :
  wf st d →
  outcome key d st (when_present o (apply_entity_changes key d) st)
    (merged_entities_opt o (array_at st d key)).
Proof.
  intros Hwf. destruct o as [ec|]; simpl.
  - by apply apply_entity_changes_refines.
  - by apply outcome_same.
Qed.

Lemma relationship_block_run d o st :
  wf st d →
  outcome "relationships" d st (when_present o (apply_relationship_changes d) st)
    (Ok (merged_relationships_opt o (array_at st d "relationships"))).
Proof.
  intros Hwf. destruct o as [rc|]; simpl.
  - by apply apply_relationship_changes_refines.
  - by apply outcome_same.
Qed.

Lemma dict_copy_run st cur :
  wf st cur →
  ∃ ret st', dict_copy cur st = Ok (ret, st') ∧ ret ≠ cur ∧ wf st' ret ∧
    lists st' = lists st ∧
    dicts st' !! cur = dicts st !! cur ∧
    dicts st' !! ret = dicts st !! cur ∧
    ∀ k, array_at st' ret k = array_at st cur k.
Proof.
  intros (pd & Hd & Halloc & Hinj). unfold dict_copy. rewrite Hd.
  set (d' := fresh (dom (dicts st))).
  assert (dicts st !! d' = None) as Hfresh by apply not_elem_of_dom, is_fresh.
  assert (d' ≠ cur) as Hne by congruence.
  eexists _, _. split; [done|]. split; [done|]. simpl. repeat split.
  - exists pd. simpl. by rewrite lookup_insert_eq.
  - by rewrite lookup_insert_ne.
  - by rewrite lookup_insert_eq.
  - intros k. unfold array_at. simpl. by rewrite lookup_insert_eq, Hd.
Qed.

Lemma apply_changes_no_envelope st cur changes :
  wf st cur → envelope changes = None →
  ∃ ret st', _apply_changes cur changes st = Ok (ret, st') ∧ ret ≠ cur ∧ wf st' ret ∧
    lists st' = lists st ∧
    dicts st' !! cur = dicts st !! cur ∧
    dicts st' !! ret = dicts st !! cur ∧
    ∀ k, array_at st' ret k = array_at st cur k.
Proof.
  intros Hwf Henv. destruct (dict_copy_run st cur Hwf) as (ret & st' & Hrun & H).
  exists ret, st'. split; [|done].
  unfold _apply_changes. rewrite (bind_ok _ _ _ _ _ Hrun). by rewrite Henv.
Qed.

Lemma apply_changes_run st cur changes cd r1 r2 r3 :
  wf st cur → envelope changes = Some cd →
  merged_entities_opt (cd_classes cd) (array_at st cur "classes") = Ok r1 →
  merged_entities_opt (cd_actors cd) (array_at st cur "actors") = Ok r2 →
  merged_entities_opt (cd_useCases cd) (array_at st cur "useCases") = Ok r3 →
  ∃ ret st', _apply_changes cur changes st = Ok (ret, st') ∧ ret ≠ cur ∧ wf st' ret ∧
    dicts st' !! cur = dicts st !! cur ∧
    array_at st' ret "classes" = r1 ∧
    array_at st' ret "actors" = r2 ∧
    array_at st' ret "useCases" = r3 ∧
    array_at st' ret "relationships" =
      merged_relationships_opt (cd_relationships cd) (array_at st cur "relationships").
Proof.
  intros Hwf Henv H1 H2 H3.
  destruct (dict_copy_run st cur Hwf)
    as (ret & st0 & Hrun & Hne & Hwf0 & _ & Hcur0 & _ & Harr0).
  unfold _apply_changes. rewrite (bind_ok _ _ _ _ _ Hrun), Henv.
  pose proof (entity_block_run "classes" ret (cd_classes cd) st0 Hwf0) as Hb1.
  rewrite Harr0, H1 in Hb1. destruct Hb1 as (st1 & Hrun1 & Hwf1 & Hr1 & Hk1 & Hd1 & _).
  rewrite (bind_ok _ _ _ _ _ Hrun1).
  pose proof (entity_block_run "actors" ret (cd_actors cd) st1 Hwf1) as Hb2.
  rewrite Hk1, Harr0, H2 in Hb2 by done.
  destruct Hb2 as (st2 & Hrun2 & Hwf2 & Hr2 & Hk2 & Hd2 & _).
  rewrite (bind_ok _ _ _ _ _ Hrun2).
  pose proof (entity_block_run "useCases" ret (cd_useCases cd) st2 Hwf2) as Hb3.
  rewrite Hk2, Hk1, Harr0, H3 in Hb3 by done.
  destruct Hb3 as (st3 & Hrun3 & Hwf3 & Hr3 & Hk3 & Hd3 & _).
  rewrite (bind_ok _ _ _ _ _ Hrun3).
  destruct (relationship_block_run ret (cd_relationships cd) st3 Hwf3)
    as (st4 & Hrun4 & Hwf4 & Hr4 & Hk4 & Hd4 & _).
  rewrite (bind_ok _ _ _ _ _ Hrun4).
  exists ret, st4. split; [done|]. split; [done|]. split; [done|].
  split; [by rewrite Hd4, Hd3, Hd2, Hd1|].
  split; [by rewrite Hk4, Hk3, Hk2|].
  split; [by rewrite Hk4, Hk3|].
  split; [by rewrite Hk4|].
  by rewrite Hr4, Hk3, Hk2, Hk1, Harr0.
Qed.

(** ** The merge on the arrays *)

Lemma py_eq_refl v : hashable v = true → py_eq v v = true.
Proof.
  destruct v as [|b|z|s| |]; simpl; try done; intros _.
  - by destruct b.
  - apply Z.eqb_refl.
  - apply String.eqb_refl.
Qed.

Lemma py_set_total l : forallb hashable l = true → py_set l = Ok l.
Proof. intros H. unfold py_set. by rewrite H. Qed.

Lemma set_contains_total x s :
  hashable x = true → set_contains x s = Ok (existsb (λ e, py_eq e x) s).
Proof. intros H. unfold set_contains. by rewrite H. Qed.

Lemma filterM_total {A} (p : A → result bool) (q : A → bool) xs :
  (∀ x, x ∈ xs → p x = Ok (q x)) → filterM p xs = Ok (filter (λ x, q x) xs).
Proof.
  induction xs as [|x xs IH]; intros Hp; simpl; [done|].
  rewrite (Hp x) by left. simpl. rewrite IH by (intros; apply Hp; by right).
  simpl. rewrite filter_cons. by destruct (q x).
Qed.

Lemma names_hashable_forall xs :
  names_hashable xs = true ↔ ∀ cls, cls ∈ xs → hashable (name_of cls) = true.
Proof.
  unfold names_hashable. rewrite forallb_forall.
  split; intros H cls Hin; apply H; by apply list_elem_of_In.
Qed.

Lemma names_hashable_map xs :
  names_hashable xs = true → forallb hashable (map name_of xs) = true.
Proof.
  unfold names_hashable. induction xs as [|x xs IH]; simpl; [done|].
  intros [-> H]%andb_prop. by apply IH.
Qed.

Lemma names_hashable_sublist xs ys :
  sublist xs ys → names_hashable ys = true → names_hashable xs = true.
Proof.
  rewrite !names_hashable_forall. intros Hsub H cls Hin. apply H.
  by eapply (sublist_subseteq _ _ Hsub).
Qed.

Lemma names_hashable_app xs ys :
  names_hashable (xs ++ ys) = names_hashable xs && names_hashable ys.
Proof. unfold names_hashable. apply forallb_app. Qed.

Lemma removed_entities_total rm xs :
  forallb hashable rm = true → names_hashable xs = true →
  removed_entities (Some rm) (Some xs) =
  Ok (Some (filter (λ cls, negb (named_in rm cls)) xs)).
Proof.
  intros Hrm Hxs. unfold removed_entities. rewrite py_set_total by done. simpl.
  rewrite (filterM_total _ (λ cls, negb (named_in rm cls))); [done|].
  intros cls Hin. rewrite set_contains_total; [done|].
  by eapply names_hashable_forall.
Qed.

Lemma added_entity_total xs new_class :
  names_hashable xs = true → hashable (name_of new_class) = true →
  added_entity xs new_class =
  Ok (if named_in (map name_of xs) new_class then xs else xs ++ [new_class]).
Proof.
  intros Hxs Hc. unfold added_entity.
  rewrite py_set_total by by apply names_hashable_map. simpl.
  by rewrite set_contains_total.
Qed.

Lemma sublist_maybe_cons (b : bool) (a : obj) l1 l2 :
  sublist l1 l2 → sublist ((if b then [] else [a]) ++ l1) (a :: l2).
Proof. intros H. destruct b; simpl; by constructor. Qed.

Lemma append_loop_turns dup adds xs :
  ∃ appended,
    foldl (append_unless dup) xs adds = xs ++ appended ∧
    sublist appended adds ∧
    ∀ pre c post, adds = pre ++ c :: post →
      ∃ app_pre app_post,
        appended = app_pre ++ (if dup (xs ++ app_pre) c then [] else [c]) ++ app_post ∧
        sublist app_pre pre ∧ sublist app_post post.
Proof.
  revert xs. induction adds as [|a adds IH]; intros xs.
  { exists []. rewrite app_nil_r. repeat split; [done|].
    intros pre c post H. by destruct pre. }
  set (ch := if dup xs a then [] else [a]).
  assert (append_unless dup xs a = xs ++ ch) as Hstep.
  { unfold append_unless, ch. destruct (dup xs a); [by rewrite app_nil_r | done]. }
  destruct (IH (xs ++ ch)) as (app' & Hfold & Hsub & Hturns).
  exists (ch ++ app'). simpl. rewrite Hstep, Hfold, <-app_assoc. split; [done|].
  split; [by apply sublist_maybe_cons|].
  intros pre c post Hsplit. destruct pre as [|a' pre]; simpl in Hsplit.
  - injection Hsplit as -> ->. exists [], app'. rewrite app_nil_r. simpl.
    split; [done|]. split; [constructor | done].
  - injection Hsplit as -> ->.
    destruct (Hturns pre c post eq_refl) as (app_pre & app_post & Happ & Hs1 & Hs2).
    exists (ch ++ app_pre), app_post. rewrite app_assoc. rewrite <-!app_assoc in *.
    split; [by rewrite Happ|]. split; [by apply sublist_maybe_cons | done].
Qed.

Lemma added_entities_loop_total xs adds :
  names_hashable xs = true → names_hashable adds = true →
  added_entities_loop xs adds =
  Ok (foldl (append_unless (λ xs c, named_in (map name_of xs) c)) xs adds).
Proof.
  unfold added_entities_loop. revert xs.
  induction adds as [|a adds IH]; intros xs Hxs Hadds; simpl; [done|].
  apply andb_prop in Hadds as [Ha Hadds].
  rewrite added_entity_total by done. simpl. apply IH; [|done].
  unfold append_unless. destruct (named_in _ a); [done|].
  rewrite names_hashable_app, Hxs. simpl. by rewrite Ha.
Qed.

Lemma kept_entities_sublist rm arr : sublist (kept_entities rm arr) (default [] arr).
Proof. destruct rm; simpl; [apply sublist_filter | done]. Qed.

Lemma removed_entities_kept rm arr :
  forallb hashable (default [] rm) = true → names_hashable (default [] arr) = true →
  ∃ r, removed_entities rm arr = Ok r ∧ default [] r = kept_entities rm arr ∧
       (is_Some arr → is_Some r).
Proof.
  intros Hrm Harr. destruct rm as [rm|]; simpl in Hrm.
  - destruct arr as [xs|]; simpl in Harr.
    + rewrite removed_entities_total by done. eauto.
    + unfold removed_entities. rewrite py_set_total by done.
      exists None. split; [done|]. split; [done|]. by intros [? ?].
  - by exists arr.
Qed.

Lemma merged_entities_total ec arr adds :
  entity_changes_hashable (Some ec) = true →
  names_hashable (default [] arr) = true →
  ec_add ec = Some adds →
  merged_entities ec arr =
  Ok (Some (foldl (append_unless (λ xs c, named_in (map name_of xs) c))
              (kept_entities (ec_remove ec) arr) adds)).
Proof.
  intros [Hrm Hadds]%andb_prop Harr Hadd. unfold merged_entities.
  destruct (removed_entities_kept _ _ Hrm Harr) as (r & -> & Hr & _). simpl.
  unfold added_entities. rewrite Hadd in *. simpl in Hadds.
  rewrite Hr, added_entities_loop_total; [done| |done].
  eapply names_hashable_sublist; [apply kept_entities_sublist | done].
Qed.

Lemma merged_entities_opt_total o arr :
  entity_changes_hashable o = true → names_hashable (default [] arr) = true →
  ∃ r, merged_entities_opt o arr = Ok r ∧ (is_Some arr → is_Some r).
Proof.
  intros Ho Harr. destruct o as [ec|]; simpl; [|by eauto].
  destruct (ec_add ec) as [adds|] eqn:Hadd.
  - rewrite (merged_entities_total _ _ adds) by done. eauto.
  - apply andb_prop in Ho as [Hrm _]. unfold merged_entities.
    destruct (removed_entities_kept _ _ Hrm Harr) as (r & -> & _ & Hsome). simpl.
    unfold added_entities. rewrite Hadd. eauto.
Qed.
Lemma apply_changes_result st cur changes cd :
  wf st cur → envelope changes = Some cd →
  document_hashable st cur = true → changes_hashable changes = true →
  ∃ ret st', _apply_changes cur changes st = Ok (ret, st') ∧ ret ≠ cur ∧ wf st' ret ∧
    dicts st' !! cur = dicts st !! cur ∧
    (∀ key, key ∈ ["classes"; "actors"; "useCases"] →
       merged_entities_opt (entity_changes_of cd key) (array_at st cur key) =
       Ok (array_at st' ret key)) ∧
    array_at st' ret "relationships" =
      merged_relationships_opt (cd_relationships cd) (array_at st cur "relationships").
Proof.
  intros Hwf Henv Hdoc Hchg. unfold changes_hashable in Hchg. rewrite Henv in Hchg.
  apply andb_prop in Hchg as [[Hc1 Hc2]%andb_prop Hc3].
  apply andb_prop in Hdoc as [[Hd1 Hd2]%andb_prop Hd3].
  destruct (merged_entities_opt_total _ _ Hc1 Hd1) as (r1 & H1 & _).
  destruct (merged_entities_opt_total _ _ Hc2 Hd2) as (r2 & H2 & _).
  destruct (merged_entities_opt_total _ _ Hc3 Hd3) as (r3 & H3 & _).
  destruct (apply_changes_run st cur changes cd r1 r2 r3 Hwf Henv H1 H2 H3)
    as (ret & st' & Hrun & Hne & Hwf' & Hcur & Hr1 & Hr2 & Hr3 & Hrel).
  exists ret, st'. repeat split; [done.. | | done].
  intros key Hkey. rewrite !elem_of_cons, elem_of_nil in Hkey.
  destruct Hkey as [-> | [-> | [-> | []]]].
  - change (entity_changes_of cd "classes") with (cd_classes cd). by rewrite Hr1.
  - change (entity_changes_of cd "actors") with (cd_actors cd). by rewrite Hr2.
  - change (entity_changes_of cd "useCases") with (cd_useCases cd). by rewrite Hr3.
Qed.

Lemma filterM_sublist {A} (p : A → result bool) xs r :
  filterM p xs = Ok r → sublist r xs.
Proof.
  revert r. induction xs as [|x xs IH]; intros r; simpl.
  { intros [= <-]. constructor. }
  destruct (p x) as [b|]; [|done]. simpl.
  destruct (filterM p xs) as [r'|]; [|done]. simpl. intros [= <-].
  destruct b; constructor; by apply IH.
Qed.

Lemma named_in_elem names cls :
  hashable (name_of cls) = true → name_of cls ∈ names → named_in names cls = true.
Proof.
  intros Hh Hin. unfold named_in. apply existsb_exists.
  exists (name_of cls). split; [by apply list_elem_of_In | by apply py_eq_refl].
Qed.

Lemma added_entity_NoDup xs new_class r :
  added_entity xs new_class = Ok r →
  NoDup (map name_of xs) → NoDup (map name_of r).
Proof.
  unfold added_entity, py_set, set_contains.
  destruct (forallb hashable (map name_of xs)); [|done]. simpl.
  destruct (hashable (name_of new_class)) eqn:Hh; [|done]. simpl.
  destruct (existsb _ _) eqn:Hex; intros [= <-] Hnd; [done|].
  rewrite map_app. simpl. apply NoDup_app. split; [done|]. split.
  - intros v Hv [->|[]%elem_of_nil]%elem_of_cons.
    pose proof (named_in_elem _ _ Hh Hv) as Hin. unfold named_in in Hin. congruence.
  - apply NoDup_singleton.
Qed.

Lemma added_entities_loop_NoDup adds xs r :
  added_entities_loop xs adds = Ok r →
  NoDup (map name_of xs) → NoDup (map name_of r).
Proof.
  unfold added_entities_loop. revert xs.
  induction adds as [|a adds IH]; intros xs; simpl.
  { by intros [= <-]. }
  destruct (added_entity xs a) as [xs'|] eqn:Hstep; [|done]. simpl.
  intros Hloop Hnd. eapply IH; [done|]. by eapply added_entity_NoDup.
Qed.

Lemma sublist_map {A B} (f : A → B) l1 l2 :
  sublist l1 l2 → sublist (map f l1) (map f l2).
Proof. induction 1; simpl; by constructor. Qed.

Lemma removed_entities_NoDup rm xs r :
  removed_entities rm (Some xs) = Ok r → NoDup (map name_of xs) →
  ∃ kept, r = Some kept ∧ NoDup (map name_of kept).
Proof.
  unfold removed_entities. destruct rm as [rm|]; [|intros [= <-]; by eauto].
  destruct (py_set rm) as [s|]; [|done]. simpl.
  destruct (filterM _ xs) as [kept|] eqn:Hf; [|done]. simpl.
  intros [= <-] Hnd. exists kept. split; [done|].
  apply (sublist_NoDup _ (map name_of xs)); [done|].
  apply sublist_map. by eapply filterM_sublist.
Qed.

Lemma added_entities_NoDup adds xs r :
  added_entities adds (Some xs) = Ok r → NoDup (map name_of xs) →
  ∃ ys, r = Some ys ∧ NoDup (map name_of ys).
Proof.
  unfold added_entities. destruct adds as [adds|]; [|intros [= <-]; by eauto].
  simpl. destruct (added_entities_loop xs adds) as [ys|] eqn:Hloop; [|done].
  simpl. intros [= <-] Hnd. exists ys. split; [done|].
  by eapply added_entities_loop_NoDup.
Qed.

Lemma merged_entities_NoDup ec xs r :
  merged_entities ec (Some xs) = Ok r → NoDup (map name_of xs) →
  ∃ ys, r = Some ys ∧ NoDup (map name_of ys).
Proof.
  unfold merged_entities. intros Hm Hnd.
  destruct (removed_entities (ec_remove ec) (Some xs)) as [r0|] eqn:Hrm; [|done].
  destruct (removed_entities_NoDup _ _ _ Hrm Hnd) as (kept & -> & Hnd').
  by eapply added_entities_NoDup.
Qed.

(** *** Relationships *)

Lemma removed_relationships_elem rm xs rel :
  rel ∈ foldl removed_relationship xs rm ↔
  rel ∈ xs ∧ ∀ c, c ∈ rm → kept_by_removal c rel = true.
Proof.
  revert xs. induction rm as [|c rm IH]; intros xs; simpl.
  { split; [intros H; split; [done|] | by intros [? _]].
    by intros c ?%elem_of_nil. }
  rewrite IH. unfold removed_relationship. rewrite list_elem_of_filter. split.
  - intros [[Hk Hin] Hall]. split; [done|].
    intros c' [->|Hc']%elem_of_cons; [by apply Is_true_true | by apply Hall].
  - intros [Hin Hall]. split; [split; [|done] |].
    + apply Is_true_true, Hall. by left.
    + intros c' Hc'. apply Hall. by right.
Qed.

Lemma removed_relationships_sublist rm xs :
  sublist (foldl removed_relationship xs rm) xs.
Proof.
  revert xs. induction rm as [|c rm IH]; intros xs; simpl; [done|].
  etrans; [apply IH|]. apply sublist_filter.
Qed.

Lemma kept_by_removal_cross rel c :
  py_eq (get rel "fromClass") (get c "from") = true →
  py_eq (get rel "toClass") (get c "to") = true →
  py_eq (get rel "type") (get c "type") = true →
  kept_by_removal c rel = false.
Proof. intros H1 H2 H3. unfold kept_by_removal. by rewrite H1, H2, H3. Qed.
(** ** The example stores *)

Lemma wf_single_array_store key xs : wf (single_array_store key xs) document.
Proof.
  exists (PyDict {[ key := 1%positive ]} ∅). split; [done|]. simpl. split.
  - intros k l [_ <-]%lookup_singleton_Some. by eexists.
  - by intros k1 k2 l [<- _]%lookup_singleton_Some [<- _]%lookup_singleton_Some.
Qed.

Lemma array_at_single_array_store key xs :
  array_at (single_array_store key xs) document key = Some xs.
Proof.
  unfold array_at, single_array_store. simpl.
  rewrite lookup_singleton_eq. simpl. rewrite lookup_singleton_eq. done.
Qed.

Lemma array_at_single_array_store_ne key k xs :
  k ≠ key → array_at (single_array_store key xs) document k = None.
Proof.
  intros Hne. unfold array_at, single_array_store. simpl.
  rewrite lookup_singleton_eq. simpl. by rewrite lookup_singleton_ne.
Qed.

(** ** Entity categories: additions *)

Lemma entity_add_turns st cur changes cd key ec adds :
  wf st cur →
  document_hashable st cur = true → changes_hashable changes = true →
  envelope changes = Some cd →
  key ∈ ["classes"; "actors"; "useCases"] →
  entity_changes_of cd key = Some ec → ec_add ec = Some adds →
  let kept := kept_entities (ec_remove ec) (array_at st cur key) in
  ∃ ret st' appended,
    _apply_changes cur changes st = Ok (ret, st') ∧
    array_at st' ret key = Some (kept ++ appended) ∧
    sublist appended adds ∧
    ∀ pre c post, adds = pre ++ c :: post →
      ∃ app_pre app_post,
        appended =
          app_pre ++
          (if named_in (map name_of (kept ++ app_pre)) c then [] else [c]) ++
          app_post ∧
        sublist app_pre pre ∧ sublist app_post post.
Proof.
  intros Hwf Hdoc Hchg Henv Hkey Hec Hadd kept.
  destruct (apply_changes_result st cur changes cd Hwf Henv Hdoc Hchg)
    as (ret & st' & Hrun & _ & _ & _ & Hent & _).
  specialize (Hent key Hkey). rewrite Hec in Hent. simpl in Hent.
  assert (entity_changes_hashable (Some ec) = true ∧
          names_hashable (default [] (array_at st cur key)) = true) as [Hh1 Hh2].
  { unfold changes_hashable in Hchg. rewrite Henv in Hchg.
    apply andb_prop in Hchg as [[Hc1 Hc2]%andb_prop Hc3].
    apply andb_prop in Hdoc as [[Hd1 Hd2]%andb_prop Hd3].
    rewrite !elem_of_cons, elem_of_nil in Hkey. unfold entity_changes_of in Hec.
    destruct Hkey as [-> | [-> | [-> | []]]]; simpl in Hec; by rewrite <-Hec. }
  rewrite (merged_entities_total ec _ adds Hh1 Hh2 Hadd) in Hent.
  injection Hent as Hent.
  destruct (append_loop_turns (λ xs c, named_in (map name_of xs) c) adds kept)
    as (appended & Hfold & Hsub & Hturns).
  exists ret, st', appended. split; [done|]. split; [|done].
  rewrite <-Hent. f_equal. exact Hfold.
Qed.

(** C2. For each entity category (classes, actors, useCases) with an
    addition list, [_apply_changes] returns a document whose array is the
    (possibly just-filtered) array of the input followed by the appended
    candidates, in the order of the addition list. Each candidate is
    treated in turn: when its name equals the name of an element of the
    array at that moment it is skipped, and otherwise it is appended at the
    end. In particular, adding a class named "User", whatever its other
    fields, to a document whose classes are [{name: "User"}] leaves exactly
    that one class, the original element. *)
Theorem apply_changes_add_skips_present_names :
  (∀ st cur changes cd key ec adds,
     wf st cur →
     document_hashable st cur = true → changes_hashable changes = true →
     envelope changes = Some cd →
     key ∈ ["classes"; "actors"; "useCases"] →
     entity_changes_of cd key = Some ec → ec_add ec = Some adds →
     let kept := kept_entities (ec_remove ec) (array_at st cur key) in
     ∃ ret st' appended,
       _apply_changes cur changes st = Ok (ret, st') ∧
       array_at st' ret key = Some (kept ++ appended) ∧
       sublist appended adds ∧
       ∀ pre c post, adds = pre ++ c :: post →
         ∃ app_pre app_post,
           appended =
             app_pre ++
             (if named_in (map name_of (kept ++ app_pre)) c then [] else [c]) ++
             app_post ∧
           sublist app_pre pre ∧ sublist app_post post) ∧
  (∀ new_class, name_of new_class = VStr "User" →
     ∃ ret st',
       _apply_changes document
         (entity_changes_only "classes" (EntityChanges None (Some [new_class])))
         (single_array_store "classes" [named "User"]) = Ok (ret, st') ∧
       array_at st' ret "classes" = Some [named "User"]).
Proof.
  split; [exact entity_add_turns|].
  intros new_class Hname.
  set (ec := EntityChanges None (Some [new_class])).
  destruct (entity_add_turns (single_array_store "classes" [named "User"]) document
    (entity_changes_only "classes" ec) (ChangeData (Some ec) None None None)
    "classes" ec [new_class] (wf_single_array_store _ _))
    as (ret & st' & appended & Hrun & Harr & _ & Hturns);
    [done | | done | by left | done | done |].
  { unfold changes_hashable. simpl. unfold names_hashable. simpl. by rewrite Hname. }
  exists ret, st'. split; [done|]. rewrite Harr.
  destruct (Hturns [] new_class [] eq_refl) as (app_pre & app_post & -> & H1 & H2).
  apply sublist_nil_r in H1 as ->, H2 as ->.
  rewrite array_at_single_array_store. simpl.
  unfold named_in. simpl. by rewrite Hname.
Qed.

Lemma apply_changes_add_skips_present_names_witness :
  let st := single_array_store "classes" [named "User"] in
  let ec := EntityChanges None (Some [user_with_attributes; named "Order"]) in
  let changes := entity_changes_only "classes" ec in
  let kept := kept_entities (ec_remove ec) (array_at st document "classes") in
  wf st document ∧
  document_hashable st document = true ∧ changes_hashable changes = true ∧
  ∃ ret st' appended,
    _apply_changes document changes st = Ok (ret, st') ∧
    array_at st' ret "classes" = Some (kept ++ appended) ∧
    sublist appended [user_with_attributes; named "Order"] ∧
    ∀ pre c post, [user_with_attributes; named "Order"] = pre ++ c :: post →
      ∃ app_pre app_post,
        appended =
          app_pre ++
          (if named_in (map name_of (kept ++ app_pre)) c then [] else [c]) ++
          app_post ∧
        sublist app_pre pre ∧ sublist app_post post.
Proof.
  intros st ec changes kept.
  split; [apply wf_check_sound; vm_compute; reflexivity|].
  split; [vm_compute; reflexivity|].
  split; [vm_compute; reflexivity|].
  apply (proj1 apply_changes_add_skips_present_names
           st document changes (ChangeData (Some ec) None None None) "classes" ec
           [user_with_attributes; named "Order"]).
  - apply wf_check_sound; vm_compute; reflexivity.
  - vm_compute; reflexivity.
  - vm_compute; reflexivity.
  - reflexivity.
  - left.
  - reflexivity.
  - reflexivity.
Defined.

(** ** Entity categories: distinct names *)

(** C10. When the names in the classes (actors, useCases) array of the
    document are pairwise distinct, so are the names in the corresponding
    array of the document [_apply_changes] returns, whatever the
    change-set, also when its addition list names a candidate twice. *)
Theorem apply_changes_keeps_names_distinct st cur changes key xs :
  wf st cur →
  document_hashable st cur = true → changes_hashable changes = true →
  key ∈ ["classes"; "actors"; "useCases"] →
  array_at st cur key = Some xs →
  NoDup (map name_of xs) →
  ∃ ret st' ys,
    _apply_changes cur changes st = Ok (ret, st') ∧
    array_at st' ret key = Some ys ∧
    NoDup (map name_of ys).
Proof.
  intros Hwf Hdoc Hchg Hkey Harr Hnd.
  destruct (envelope changes) as [cd|] eqn:Henv.
  - destruct (apply_changes_result st cur changes cd Hwf Henv Hdoc Hchg)
      as (ret & st' & Hrun & _ & _ & _ & Hent & _).
    specialize (Hent key Hkey). rewrite Harr in Hent.
    exists ret, st'.
    destruct (entity_changes_of cd key) as [ec|]; simpl in Hent.
    + destruct (merged_entities_NoDup _ _ _ Hent Hnd) as (ys & Hys & Hnd').
      exists ys. by rewrite Hys.
    + injection Hent as <-. by exists xs.
  - destruct (apply_changes_no_envelope st cur changes Hwf Henv)
      as (ret & st' & Hrun & _ & _ & _ & _ & _ & Hsame).
    exists ret, st', xs. by rewrite Hsame.
Qed.

Lemma apply_changes_keeps_names_distinct_witness :
  let st := single_array_store "actors" [named "Clerk"] in
  let changes :=
    entity_changes_only "actors"
      (EntityChanges (Some [VStr "Guest"])
         (Some [named "Admin"; named "Clerk"; named "Admin"])) in
  wf st document ∧
  document_hashable st document = true ∧ changes_hashable changes = true ∧
  "actors" ∈ ["classes"; "actors"; "useCases"] ∧
  array_at st document "actors" = Some [named "Clerk"] ∧
  NoDup (map name_of [named "Clerk"]) ∧
  ∃ ret st' ys,
    _apply_changes document changes st = Ok (ret, st') ∧
    array_at st' ret "actors" = Some ys ∧
    NoDup (map name_of ys).
Proof.
  intros st changes.
  assert (NoDup (map name_of [named "Clerk"])) as Hnd by apply NoDup_singleton.
  assert ("actors" ∈ ["classes"; "actors"; "useCases"]) as Hkey by (right; left).
  split; [apply wf_check_sound; vm_compute; reflexivity|].
  split; [vm_compute; reflexivity|].
  split; [vm_compute; reflexivity|].
  split; [exact Hkey|].
  split; [vm_compute; reflexivity|].
  split; [exact Hnd|].
  apply (apply_changes_keeps_names_distinct st document changes "actors"
           [named "Clerk"]).
  - apply wf_check_sound; vm_compute; reflexivity.
  - vm_compute; reflexivity.
  - vm_compute; reflexivity.
  - exact Hkey.
  - vm_compute; reflexivity.
  - exact Hnd.
Defined.
(** ** Relationships *)

Lemma relationship_result st cur changes cd rc :
  wf st cur →
  document_hashable st cur = true → changes_hashable changes = true →
  envelope changes = Some cd → cd_relationships cd = Some rc →
  let base :=
    default [] (removed_relationships (rc_remove rc) (array_at st cur "relationships")) in
  ∃ ret st' appended,
    _apply_changes cur changes st = Ok (ret, st') ∧
    array_at st' ret "relationships" =
      match rc_add rc with
      | Some _ => Some (base ++ appended)
      | None => removed_relationships (rc_remove rc) (array_at st cur "relationships")
      end ∧
    sublist appended (default [] (rc_add rc)) ∧
    ∀ pre c post, default [] (rc_add rc) = pre ++ c :: post →
      ∃ app_pre app_post,
        appended =
          app_pre ++
          (if existsb (same_relationship c) (base ++ app_pre) then [] else [c]) ++
          app_post ∧
        sublist app_pre pre ∧ sublist app_post post.
Proof.
  intros Hwf Hdoc Hchg Henv Hrc base.
  destruct (apply_changes_result st cur changes cd Hwf Henv Hdoc Hchg)
    as (ret & st' & Hrun & _ & _ & _ & _ & Hrel).
  rewrite Hrc in Hrel. simpl in Hrel. unfold merged_relationships in Hrel.
  destruct (append_loop_turns (λ xs c, existsb (same_relationship c) xs)
              (default [] (rc_add rc)) base) as (appended & Hfold & Hsub & Hturns).
  exists ret, st', appended. split; [done|]. split; [|done].
  rewrite Hrel. unfold added_relationships.
  destruct (rc_add rc) as [adds|]; [|done]. f_equal. exact Hfold.
Qed.

(** C1, as the code has it. A relationship of the document whose
    [fromClass], [toClass] and [type] equal the [from], [to] and [type] of
    a criterion of the removal list is not in the relationships array of
    the returned document, unless the addition list of the same change-set
    holds it. Removal comes before addition: the array of the returned
    document is a part [kept] of the array of the input that does not
    contain the relationship, followed by candidates of the addition
    list. *)
Theorem apply_changes_removes_matching_relationship
    st cur changes cd rc rm xs rel rel_to_remove :
  wf st cur →
  document_hashable st cur = true → changes_hashable changes = true →
  envelope changes = Some cd → cd_relationships cd = Some rc →
  rc_remove rc = Some rm →
  array_at st cur "relationships" = Some xs →
  rel ∈ xs → rel_to_remove ∈ rm →
  py_eq (get rel "fromClass") (get rel_to_remove "from") = true →
  py_eq (get rel "toClass") (get rel_to_remove "to") = true →
  py_eq (get rel "type") (get rel_to_remove "type") = true →
  ∃ ret st' ys,
    _apply_changes cur changes st = Ok (ret, st') ∧
    array_at st' ret "relationships" = Some ys ∧
    (rel ∉ default [] (rc_add rc) → rel ∉ ys) ∧
    ∃ kept appended,
      ys = kept ++ appended ∧ sublist kept xs ∧ (rel ∉ kept) ∧
      sublist appended (default [] (rc_add rc)).
Proof.
  intros Hwf Hdoc Hchg Henv Hrc Hrm Harr Hrel Hcrit H1 H2 H3.
  destruct (relationship_result st cur changes cd rc Hwf Hdoc Hchg Henv Hrc)
    as (ret & st' & appended & Hrun & Hres & Hsub & _).
  rewrite Hrm, Harr in Hres. simpl in Hres.
  set (kept := foldl removed_relationship xs rm) in *.
  assert (rel ∉ kept) as Hnot.
  { intros [_ Hall]%removed_relationships_elem.
    specialize (Hall _ Hcrit). by rewrite kept_by_removal_cross in Hall. }
  assert (sublist kept xs) as Hkept by apply removed_relationships_sublist.
  destruct (rc_add rc) as [adds|]; simpl in *.
  - exists ret, st', (kept ++ appended). split; [done|]. split; [done|]. split.
    + intros Hadds [?|Hin]%elem_of_app; [done|].
      apply Hadds. by eapply (sublist_subseteq _ _ Hsub).
    + by exists kept, appended.
  - exists ret, st', kept. split; [done|]. split; [done|]. split; [done|].
    exists kept, []. by rewrite app_nil_r.
Qed.

Lemma apply_changes_removes_matching_relationship_witness :
  let rel := class_relationship "A" "B" "association" in
  let other := class_relationship "B" "C" "dependency" in
  let rel_to_remove := plain_relationship "A" "B" "association" in
  let new_rel := class_relationship "A" "C" "association" in
  let st := single_array_store "relationships" [rel; other] in
  let rc := RelChanges (Some [rel_to_remove]) (Some [new_rel]) in
  let changes := relationship_changes_only rc in
  wf st document ∧
  document_hashable st document = true ∧ changes_hashable changes = true ∧
  array_at st document "relationships" = Some [rel; other] ∧
  rel ∈ [rel; other] ∧ rel_to_remove ∈ [rel_to_remove] ∧
  py_eq (get rel "fromClass") (get rel_to_remove "from") = true ∧
  py_eq (get rel "toClass") (get rel_to_remove "to") = true ∧
  py_eq (get rel "type") (get rel_to_remove "type") = true ∧
  ∃ ret st' ys,
    _apply_changes document changes st = Ok (ret, st') ∧
    array_at st' ret "relationships" = Some ys ∧
    (rel ∉ default [] (rc_add rc) → rel ∉ ys) ∧
    ∃ kept appended,
      ys = kept ++ appended ∧ sublist kept [rel; other] ∧ (rel ∉ kept) ∧
      sublist appended (default [] (rc_add rc)).
Proof.
  intros rel other rel_to_remove new_rel st rc changes.
  split; [apply wf_check_sound; vm_compute; reflexivity|].
  split; [vm_compute; reflexivity|].
  split; [vm_compute; reflexivity|].
  split; [vm_compute; reflexivity|].
  split; [left|]. split; [left|].
  split; [vm_compute; reflexivity|].
  split; [vm_compute; reflexivity|].
  split; [vm_compute; reflexivity|].
  apply (apply_changes_removes_matching_relationship st document changes
           (ChangeData None None None (Some rc)) rc [rel_to_remove] [rel; other]
           rel rel_to_remove).
  - apply wf_check_sound; vm_compute; reflexivity.
  - vm_compute; reflexivity.
  - vm_compute; reflexivity.
  - reflexivity.
  - reflexivity.
  - reflexivity.
  - vm_compute; reflexivity.
  - left.
  - left.
  - vm_compute; reflexivity.
  - vm_compute; reflexivity.
  - vm_compute; reflexivity.
Defined.

(** The claim C1 fails as stated: with {fromClass: "A", toClass: "B",
    type: "association"} in the document, the criterion {from: "A",
    to: "B", type: "association"} in the removal list and the relationship
    itself in the addition list, the removal empties the array and the
    addition, which finds nothing like the candidate there, appends it:
    the relationship is in the returned document. *)
Lemma removed_relationship_is_added_back :
  let rel := class_relationship "A" "B" "association" in
  let rel_to_remove := plain_relationship "A" "B" "association" in
  let st := single_array_store "relationships" [rel] in
  let changes :=
    relationship_changes_only (RelChanges (Some [rel_to_remove]) (Some [rel])) in
  wf st document ∧
  array_at st document "relationships" = Some [rel] ∧
  py_eq (get rel "fromClass") (get rel_to_remove "from") = true ∧
  py_eq (get rel "toClass") (get rel_to_remove "to") = true ∧
  py_eq (get rel "type") (get rel_to_remove "type") = true ∧
  ∃ ret st' ys,
    _apply_changes document changes st = Ok (ret, st') ∧
    array_at st' ret "relationships" = Some ys ∧
    rel ∈ ys.
Proof.
  intros rel rel_to_remove st changes.
  split; [apply wf_single_array_store|].
  split; [apply array_at_single_array_store|].
  split; [vm_compute; reflexivity|].
  split; [vm_compute; reflexivity|].
  split; [vm_compute; reflexivity|].
  eexists _, _, _. split; [vm_compute; reflexivity|].
  split; [vm_compute; reflexivity|]. left.
Qed.

Lemma convention_match_same_relationship rel new_rel :
  convention_match rel new_rel = true → same_relationship new_rel rel = true.
Proof.
  unfold convention_match, same_relationship, agree_present, get.
  intros [Hends ->]%andb_prop. rewrite !andb_true_r.
  apply orb_prop in Hends as [[H1 H2]%andb_prop | [H1 H2]%andb_prop].
  - destruct (lookup_key "fromClass" rel), (lookup_key "fromClass" new_rel),
      (lookup_key "toClass" rel), (lookup_key "toClass" new_rel); try done.
    simpl. by rewrite H1, H2.
  - destruct (lookup_key "from" rel), (lookup_key "from" new_rel),
      (lookup_key "to" rel), (lookup_key "to" new_rel); try done.
    simpl. rewrite H1, H2. apply orb_true_r.
Qed.

(** C3, as the code has it. A candidate of the relationships addition
    list is treated in turn. It is skipped when some relationship of the
    array at that moment carries the same endpoint fields with equal
    values (both have [fromClass] and [toClass], or both have [from] and
    [to]) and an equal type. It is appended at the end when no
    relationship of the array agrees with it on [fromClass], [toClass] and
    [type], nor on [from], [to] and [type], as [get] reads them. Fields
    are compared under the same name only: with the relationship
    {fromClass: a, toClass: b, type: t} in the document, the candidate
    {from: a, to: b, type: t} is appended. *)
Theorem apply_changes_add_relationship_same_fields :
  (∀ st cur changes cd rc adds,
     wf st cur →
     document_hashable st cur = true → changes_hashable changes = true →
     envelope changes = Some cd → cd_relationships cd = Some rc →
     rc_add rc = Some adds →
     let base :=
       default []
         (removed_relationships (rc_remove rc) (array_at st cur "relationships")) in
     ∃ ret st' appended,
       _apply_changes cur changes st = Ok (ret, st') ∧
       array_at st' ret "relationships" = Some (base ++ appended) ∧
       sublist appended adds ∧
       ∀ pre c post, adds = pre ++ c :: post →
         ∃ app_pre chosen app_post,
           appended = app_pre ++ chosen ++ app_post ∧
           sublist app_pre pre ∧ sublist app_post post ∧
           ((∃ rel, rel ∈ base ++ app_pre ∧ convention_match rel c = true) →
            chosen = []) ∧
           ((∀ rel, rel ∈ base ++ app_pre → same_relationship c rel = false) →
            chosen = [c])) ∧
  (∀ a b t,
     ∃ ret st',
       _apply_changes document
         (relationship_changes_only (RelChanges None (Some [plain_relationship a b t])))
         (single_array_store "relationships" [class_relationship a b t]) =
         Ok (ret, st') ∧
       array_at st' ret "relationships" =
         Some [class_relationship a b t; plain_relationship a b t]).
Proof.
  assert (∀ st cur changes cd rc adds,
     wf st cur →
     document_hashable st cur = true → changes_hashable changes = true →
     envelope changes = Some cd → cd_relationships cd = Some rc →
     rc_add rc = Some adds →
     let base :=
       default []
         (removed_relationships (rc_remove rc) (array_at st cur "relationships")) in
     ∃ ret st' appended,
       _apply_changes cur changes st = Ok (ret, st') ∧
       array_at st' ret "relationships" = Some (base ++ appended) ∧
       sublist appended adds ∧
       ∀ pre c post, adds = pre ++ c :: post →
         ∃ app_pre chosen app_post,
           appended = app_pre ++ chosen ++ app_post ∧
           sublist app_pre pre ∧ sublist app_post post ∧
           ((∃ rel, rel ∈ base ++ app_pre ∧ convention_match rel c = true) →
            chosen = []) ∧
           ((∀ rel, rel ∈ base ++ app_pre → same_relationship c rel = false) →
            chosen = [c])) as Hgeneral.
  { intros st cur changes cd rc adds Hwf Hdoc Hchg Henv Hrc Hadd base.
    destruct (relationship_result st cur changes cd rc Hwf Hdoc Hchg Henv Hrc)
      as (ret & st' & appended & Hrun & Hres & Hsub & Hturns).
    rewrite Hadd in Hres, Hsub, Hturns. simpl in Hsub, Hturns.
    exists ret, st', appended. split; [done|]. split; [done|]. split; [done|].
    intros pre c post Hsplit.
    destruct (Hturns pre c post Hsplit) as (app_pre & app_post & Happ & Hs1 & Hs2).
    exists app_pre,
      (if existsb (same_relationship c) (base ++ app_pre) then [] else [c]), app_post.
    split; [exact Happ|]. split; [done|]. split; [done|].
    destruct (existsb (same_relationship c) (base ++ app_pre)) eqn:Hex.
    - split; [done|]. intros Hnone.
      apply existsb_exists in Hex as (rel & Hin & Hsame).
      apply list_elem_of_In in Hin. rewrite (Hnone rel Hin) in Hsame. done.
    - split; [|done]. intros (rel & Hin & Hmatch).
      assert (existsb (same_relationship c) (base ++ app_pre) = true) as Hex'.
      { apply existsb_exists. exists rel. split; [by apply list_elem_of_In|].
        by apply convention_match_same_relationship. }
      congruence. }
  split; [exact Hgeneral|].
  intros a b t.
  set (rc := RelChanges None (Some [plain_relationship a b t])).
  destruct (Hgeneral (single_array_store "relationships" [class_relationship a b t])
              document (relationship_changes_only rc)
              (ChangeData None None None (Some rc)) rc [plain_relationship a b t]
              (wf_single_array_store _ _))
    as (ret & st' & appended & Hrun & Harr & _ & Hturns); [done..|].
  exists ret, st'. split; [done|]. rewrite Harr.
  destruct (Hturns [] (plain_relationship a b t) [] eq_refl)
    as (app_pre & chosen & app_post & -> & H1 & H2 & _ & Hfresh).
  apply sublist_nil_r in H1 as ->, H2 as ->.
  rewrite array_at_single_array_store in *. simpl in *.
  rewrite Hfresh; [done|].
  by intros rel [->|[]%elem_of_nil]%elem_of_cons.
Qed.

Lemma apply_changes_add_relationship_same_fields_witness :
  let rel := plain_relationship "User" "Login" "association" in
  let st := single_array_store "relationships" [rel] in
  let adds := [plain_relationship "User" "Login" "association";
               plain_relationship "User" "Logout" "include"] in
  let rc := RelChanges None (Some adds) in
  let changes := relationship_changes_only rc in
  let base :=
    default []
      (removed_relationships (rc_remove rc) (array_at st document "relationships")) in
  wf st document ∧
  document_hashable st document = true ∧ changes_hashable changes = true ∧
  ∃ ret st' appended,
    _apply_changes document changes st = Ok (ret, st') ∧
    array_at st' ret "relationships" = Some (base ++ appended) ∧
    sublist appended adds ∧
    ∀ pre c post, adds = pre ++ c :: post →
      ∃ app_pre chosen app_post,
        appended = app_pre ++ chosen ++ app_post ∧
        sublist app_pre pre ∧ sublist app_post post ∧
        ((∃ rel, rel ∈ base ++ app_pre ∧ convention_match rel c = true) →
         chosen = []) ∧
        ((∀ rel, rel ∈ base ++ app_pre → same_relationship c rel = false) →
         chosen = [c]).
Proof.
  intros rel st adds rc changes base.
  split; [apply wf_check_sound; vm_compute; reflexivity|].
  split; [vm_compute; reflexivity|].
  split; [vm_compute; reflexivity|].
  apply (proj1 apply_changes_add_relationship_same_fields st document changes
           (ChangeData None None None (Some rc)) rc adds).
  - apply wf_check_sound; vm_compute; reflexivity.
  - vm_compute; reflexivity.
  - vm_compute; reflexivity.
  - reflexivity.
  - reflexivity.
  - reflexivity.
Defined.

(** The claim C3 fails as stated: with {fromClass: "A", toClass: "B",
    type: "association"} in the document, the candidate {from: "A",
    to: "B", type: "association"} is not skipped as a duplicate; it is
    appended. *)
Lemma add_relationship_other_convention_is_appended :
  ∃ ret st',
    _apply_changes document
      (relationship_changes_only
         (RelChanges None (Some [plain_relationship "A" "B" "association"])))
      (single_array_store "relationships" [class_relationship "A" "B" "association"]) =
      Ok (ret, st') ∧
    array_at st' ret "relationships" =
      Some [class_relationship "A" "B" "association";
            plain_relationship "A" "B" "association"] ∧
    array_at st' ret "relationships" ≠
      Some [class_relationship "A" "B" "association"].
Proof.
  eexists _, _. split; [vm_compute; reflexivity|].
  split; [vm_compute; reflexivity|]. vm_compute. discriminate.
Qed.

(** ** The input document *)

(** C4 fails on the code: with a change-set that only adds a class, the
    classes array of the input document is the list object the copy
    holds, and the append changes it. *)
Theorem apply_changes_add_only_mutates_current :
  let st := single_array_store "classes" [named "A"] in
  let changes :=
    entity_changes_only "classes" (EntityChanges None (Some [named "B"])) in
  wf st document ∧
  array_at st document "classes" = Some [named "A"] ∧
  ∃ ret st',
    _apply_changes document changes st = Ok (ret, st') ∧
    ret ≠ document ∧
    array_at st' ret "classes" = Some [named "A"; named "B"] ∧
    array_at st' document "classes" = Some [named "A"; named "B"].
Proof.
  intros st changes. split; [apply wf_single_array_store|].
  split; [apply array_at_single_array_store|].
  eexists _, _. split; [vm_compute; reflexivity|].
  split; [vm_compute; discriminate|].
  split; vm_compute; reflexivity.
Qed.

End DiagramFacts.

(** * Facts about the project store *)

Module ProjectFacts.
Import Project.

Section WithLibrary.
Context {L : Library}.

(** ** The images of the context *)

(** C9, as the code has it. After [update_from_project], [ui_image] and
    [diagram_image] are one and the same list: the paths, in the order of
    the records, of the records of the processed bucket whose path ends,
    whatever the case of its letters, in [.png], [.jpg] or [.jpeg]. *)
Theorem update_from_project_images (p : Project) (f : filesystem) :
  let c := context (update_from_project p f) in
  ui_image c =
    map f_path
      (filter (λ file, endswith_any (lower (f_path file)) [".png"; ".jpg"; ".jpeg"])
         (processed (files p))) ∧
  diagram_image c = ui_image c.
Proof. done. Qed.

(** ** Scanning twice *)

Lemma insert_by_name_Sorted x l :
  Sorted name_le l → Sorted name_le (insert_by_name x l).
Proof.
  induction 1 as [|y l Hl IH Hhd]; simpl.
  { repeat constructor. }
  destruct (String.leb (f_name x) (f_name y)) eqn:Hxy.
  - constructor; [by constructor|]. by constructor.
  - constructor; [done|].
    assert (name_le y x) as Hyx.
    { destruct (String.leb_total (f_name x) (f_name y)); [congruence|done]. }
    destruct Hhd as [|z l Hyz]; simpl; [by constructor|].
    destruct (String.leb (f_name x) (f_name z)); by constructor.
Qed.

Lemma sorted_by_name_Sorted l : Sorted name_le (sorted_by_name l).
Proof.
  unfold sorted_by_name. induction l as [|x l IH]; simpl; [constructor|].
  by apply insert_by_name_Sorted.
Qed.

Lemma files_get_set fl b b' l :
  files_get (files_set fl b l) b' = if decide (b = b') then l else files_get fl b'.
Proof. by destruct b, b'. Qed.

Lemma scan_directory_sorted f fl item fl' :
  all_sorted fl → scan_directory f fl item = Ok fl' → all_sorted fl'.
Proof.
  intros Hall. destruct item as [directory type_key]. unfold scan_directory.
  destruct (path_exists f directory).
  - destruct (listdir f directory) as [names|]; [|done]. simpl.
    intros [= <-] b. rewrite files_get_set. case_decide.
    + apply sorted_by_name_Sorted.
    + rewrite files_get_set. case_decide; [done|]. apply Hall.
  - simpl. intros [= <-] b. rewrite files_get_set. case_decide; [|apply Hall].
    apply sorted_by_name_Sorted.
Qed.

Lemma scan_directories_sorted f items fl :
  all_sorted fl → all_sorted (scan_directories f fl items).1.
Proof.
  revert fl. induction items as [|item items IH]; intros fl Hall; simpl; [done|].
  destruct (scan_directory f fl item) as [fl'|] eqn:Hstep; [|done].
  apply IH. by eapply scan_directory_sorted.
Qed.

Lemma scan_and_update_files_files p w :
  files (scan_and_update_files p w).1.2 =
    (scan_directories (fs w) (Files [] [] []) (dir_map p)).1 ∧
  (scan_and_update_files p w).1.1 =
    match (scan_directories (fs w) (Files [] [] []) (dir_map p)).2 with
    | None => Ok ()
    | Some e => Raise e
    end ∧
  fs (scan_and_update_files p w).2 = fs w ∧
  dir_map (scan_and_update_files p w).1.2 = dir_map p.
Proof.
  unfold scan_and_update_files.
  by destruct (scan_directories _ _ _) as [fl [e|]].
Qed.

(** C8. Scanning twice with the file system left as it is yields the
    same [files] collections, record by record and in the same order, and
    each of the three lists is sorted by name; the second scan ends as
    the first did, and neither changes the file system. *)
Theorem scan_and_update_files_twice (p : Project) (w : world) :
  let first := scan_and_update_files p w in
  let second := scan_and_update_files first.1.2 first.2 in
  files second.1.2 = files first.1.2 ∧
  second.1.1 = first.1.1 ∧
  fs second.2 = fs w ∧
  ∀ b, Sorted name_le (files_get (files first.1.2) b).
Proof.
  intros first second.
  destruct (scan_and_update_files_files p w) as (Hf1 & Hr1 & Hw1 & Hd1).
  destruct (scan_and_update_files_files first.1.2 first.2) as (Hf2 & Hr2 & Hw2 & Hd2).
  fold first in Hf1, Hr1, Hw1, Hd1. fold second in Hf2, Hr2, Hw2, Hd2.
  rewrite Hw1, Hd1 in *. repeat split.
  - by rewrite Hf2, Hf1.
  - by rewrite Hr2, Hr1.
  - done.
  - rewrite Hf1. apply scan_directories_sorted. by intros [].
Qed.

(** ** Renaming onto an existing name *)

(** C6. When the record that [rename_file] locates for the old name has
    its file on disk and the bucket directory already holds the new
    name, [rename_file] returns [False] without raising and changes
    neither the file system nor the project: the file at the old path and
    the record stay as they are. *)
Theorem rename_file_existing_name (p : Project) (w : world)
    (file_name new_name file_type : string) (b : bucket) (file_info : file_record) :
  bucket_of file_type = Some b →
  find (λ f, String.eqb (f_name f) file_name) (files_get (files p) b) = Some file_info →
  path_exists (fs w) (f_path file_info) = true →
  path_exists (fs w) (join (dir_of p b) new_name) = true →
  rename_file p w file_name new_name file_type = (Ok false, p, w).
Proof.
  intros Hb Hfind Hold Hnew. unfold rename_file. rewrite Hb.
  destruct (String.eqb (dir_of p b) ""); [done|].
  rewrite Hfind, Hold. simpl. by rewrite Hnew.
Qed.

(** ** Saving and loading the metadata *)

Lemma file_of_to_value f : file_of_value (file_to_value f) = Some f.
Proof. by destruct f. Qed.

Lemma file_list_of_to_value l :
  file_list_of_value (VList (map file_to_value l)) = Some l.
Proof.
  unfold file_list_of_value. induction l as [|f l IH]; [done|].
  cbn -[file_of_value file_to_value]. rewrite file_of_to_value.
  cbn -[file_of_value file_to_value]. by rewrite IH.
Qed.

Lemma files_of_to_value fl : files_of_value (files_to_value fl) = Some fl.
Proof.
  destruct fl as [i p o]. unfold files_of_value, files_to_value.
  cbn -[file_list_of_value file_to_value]. rewrite !file_list_of_to_value. done.
Qed.

Lemma write_text_read w p content w' :
  write_text w p content = Some w' → read_text (fs w') p = Some content.
Proof.
  unfold write_text, read_text.
  destruct (has_parent (fs w) p && negb (isdir (fs w) p)); [|done].
  intros [= <-]. simpl. by rewrite lookup_insert_eq.
Qed.

Lemma load_project_to_dict p w :
  fromisoformat (isoformat (created_date p)) = Some (created_date p) →
  fromisoformat (isoformat (modified_date p)) = Some (modified_date p) →
  ∃ q w',
    load_project
      (match to_dict p with VDict d => d | _ => [] end) w = Some (q, w') ∧
    name q = name p ∧ id q = id p ∧
    created_date q = created_date p ∧ modified_date q = modified_date p ∧
    description q = description p ∧ tags q = tags p ∧
    files q = files p ∧ processing_history q = processing_history p ∧
    requirements (context q) = requirements (context p) ∧
    tech_stack (context q) = tech_stack (context p) ∧
    generated_text_doc (context q) = VDict [] ∧
    generated_diagram (context q) = VDict [] ∧
    prototype_code (context q) = VStr "".
Proof.
  intros Hcreated Hmodified. unfold load_project, to_dict.
  cbn -[base_argument init lookup_date loaded_files loaded_requirements
        update_from_project].
  assert (∃ a, base_argument
            [("base", VStr (base_dir p)); ("project", VStr (project_dir p));
             ("input", VStr (input_dir p)); ("processed", VStr (processed_dir p));
             ("output", VStr (output_dir p))] = Some a) as [a ->].
  { unfold base_argument. simpl. destruct (String.eqb (base_dir p) ""); simpl; eauto. }
  cbn -[init lookup_date loaded_files loaded_requirements update_from_project].
  change (lookup_date "created_date" _)
    with (fromisoformat (isoformat (created_date p))).
  rewrite Hcreated.
  cbn -[init lookup_date loaded_files loaded_requirements update_from_project].
  change (lookup_date "modified_date" _)
    with (fromisoformat (isoformat (modified_date p))).
  rewrite Hmodified.
  cbn -[init lookup_date loaded_files loaded_requirements update_from_project].
  change (loaded_files _) with (files_of_value (files_to_value (files p))).
  rewrite files_of_to_value.
  cbn -[init update_from_project join].
  eexists _, _. split; [reflexivity|].
  destruct p as [? ? ? ? ? ? ? ? ? ? ? ? ? [? ? ? ? [? ? ? ?] ? ? ? ?]].
  simpl. repeat split.
Qed.

(** C5. Once [save_metadata] has written the metadata file,
    [load_from_metadata] on that file returns a project with the same
    name, id, creation and modification dates, description, tags, files
    (all three buckets), processing history, requirements and tech stack;
    the generated-content caches of its context are empty. The library is
    taken to read back what it writes: [json.load] the document of the
    project, [fromisoformat] its two dates. *)
Theorem save_then_load_metadata (p : Project) (w w' : world) :
  json_load (json_dump (to_dict p)) = Some (to_dict p) →
  fromisoformat (isoformat (created_date p)) = Some (created_date p) →
  fromisoformat (isoformat (modified_date p)) = Some (modified_date p) →
  save_metadata p w = (true, w') →
  ∃ q w'',
    load_from_metadata (metadata_path p) w' = (Some q, w'') ∧
    name q = name p ∧ id q = id p ∧
    created_date q = created_date p ∧ modified_date q = modified_date p ∧
    description q = description p ∧ tags q = tags p ∧
    files q = files p ∧ processing_history q = processing_history p ∧
    requirements (context q) = requirements (context p) ∧
    tech_stack (context q) = tech_stack (context p) ∧
    generated_text_doc (context q) = VDict [] ∧
    generated_diagram (context q) = VDict [] ∧
    prototype_code (context q) = VStr "".
Proof.
  intros Hjson Hcreated Hmodified. unfold save_metadata.
  destruct (write_text w (metadata_path p) (json_dump (to_dict p))) as [w1|] eqn:Hw;
    [|done].
  intros [= <-]. unfold load_from_metadata.
  rewrite (write_text_read _ _ _ _ Hw), Hjson.
  destruct (load_project_to_dict p w1 Hcreated Hmodified)
    as (q & w'' & Hload & Hfields).
  exists q, w''. split; [|done].
  unfold to_dict in *. by rewrite Hload.
Qed.

(** ** Names and paths *)

Lemma ascii_eqb_refl c : Ascii.eqb c c = true.
Proof. by apply Ascii.eqb_eq. Qed.

Lemma app_nil_string s : "" +:+ s = s.
Proof. done. Qed.

Lemma app_cons_string c a b : String c a +:+ b = String c (a +:+ b).
Proof. done. Qed.

Lemma app_assoc_string a b c : (a +:+ b) +:+ c = a +:+ (b +:+ c).
Proof.
  induction a as [|x a IH]; [done|]. rewrite !app_cons_string. by f_equal.
Qed.

Lemma strip_prefix_app p s : strip_prefix p (p +:+ s) = Some s.
Proof.
  induction p as [|c p IH]; [by destruct s|].
  rewrite app_cons_string. simpl. by rewrite ascii_eqb_refl.
Qed.

Lemma has_char_app c a b : has_char c (a +:+ b) = has_char c a || has_char c b.
Proof.
  induction a as [|x a IH]; [done|].
  rewrite app_cons_string. simpl. rewrite <-orb_assoc. by f_equal.
Qed.

Lemma has_char_substring c n m s :
  has_char c s = false → has_char c (String.substring n m s) = false.
Proof.
  revert n m. induction s as [|x s IH]; intros n m Hs.
  { by destruct n, m. }
  simpl in Hs. apply orb_false_elim in Hs as [Hx Hs].
  destruct n as [|n]; simpl.
  - destruct m as [|m]; simpl; [done|]. rewrite Hx. simpl. by apply IH.
  - by apply IH.
Qed.

Lemma has_char_splitext c p :
  has_char c p = false →
  has_char c (splitext p).1 = false ∧ has_char c (splitext p).2 = false.
Proof.
  intros Hp. unfold splitext.
  destruct (_ <? _)%Z; [|done].
  destruct (all_dots _); [done|]. simpl.
  split; by apply has_char_substring.
Qed.

Lemma has_char_pretty_N_go x s :
  has_char "/" s = false → has_char "/" (pretty_N_go x s) = false.
Proof.
  revert s. induction (N.lt_wf_0 x) as [x _ IH]; intros s Hs.
  assert (x = 0 ∨ 0 < x)%N as [->|Hpos] by lia.
  - by rewrite pretty_N_go_0.
  - rewrite pretty_N_go_step by done. apply IH.
    { by apply N.div_lt. }
    simpl. rewrite Hs, orb_false_r.
    unfold pretty_N_char. by repeat case_match.
Qed.

Lemma has_char_pretty_nat (n : nat) : has_char "/" (pretty n) = false.
Proof.
  unfold pretty, pretty_nat, pretty, pretty_N.
  case_decide; [done|]. by apply has_char_pretty_N_go.
Qed.

Lemma has_char_numbered_name original ext counter :
  has_char "/" original = false → has_char "/" ext = false →
  has_char "/" (numbered_name original ext counter) = false.
Proof.
  intros Ho He. unfold numbered_name.
  by rewrite !has_char_app, Ho, He, has_char_pretty_nat.
Qed.

Lemma numbered_name_not_empty original ext counter :
  numbered_name original ext counter ≠ "".
Proof.
  unfold numbered_name. destruct original; [|by rewrite app_cons_string].
  by rewrite app_nil_string, app_cons_string.
Qed.

Lemma plain_name_numbered_name file_name counter :
  plain_name file_name = true →
  plain_name (numbered_name (splitext file_name).1 (splitext file_name).2 counter) = true.
Proof.
  intros [_ Hs%negb_true_iff]%andb_prop. unfold plain_name.
  destruct (has_char_splitext "/" file_name Hs) as [H1 H2].
  rewrite has_char_numbered_name by done. rewrite andb_true_r.
  apply negb_true_iff, String.eqb_neq, numbered_name_not_empty.
Qed.

Lemma prefix_slash n : has_char "/" n = false → String.prefix "/" n = false.
Proof.
  destruct n as [|c n]; [done|]. cbn [has_char].
  intros [Hc _]%orb_false_elim.
  change (String.prefix "/" (String c n))
    with (if ascii_dec "/" c then String.prefix "" n else false).
  destruct (ascii_dec "/" c) as [<-|]; [|done].
  by rewrite ascii_eqb_refl in Hc.
Qed.

Lemma join_plain d n :
  canonical d = true → plain_name n = true → join d n = d +:+ "/" +:+ n.
Proof.
  intros [Hd1%negb_true_iff Hd2%negb_true_iff]%andb_prop
         [_ Hs%negb_true_iff]%andb_prop.
  unfold join. by rewrite prefix_slash, Hd1, Hd2.
Qed.

Lemma child_name_join d n :
  canonical d = true → plain_name n = true → child_name d (join d n) = Some n.
Proof.
  intros Hd Hn. rewrite join_plain by done. unfold child_name.
  pose proof Hd as [_ ->%negb_true_iff]%andb_prop.
  rewrite <-app_assoc_string, strip_prefix_app. by rewrite Hn.
Qed.

Lemma length_app_string a b :
  String.length (a +:+ b) = String.length a + String.length b.
Proof.
  induction a as [|x a IH]; [done|]. rewrite app_cons_string. simpl. by rewrite IH.
Qed.

Lemma app_inj_r a b e : a +:+ e = b +:+ e → a = b.
Proof.
  revert b. induction a as [|x a IH]; intros b Heq.
  - destruct b as [|y b]; [done|]. exfalso.
    apply (f_equal String.length) in Heq.
    rewrite app_nil_string, length_app_string in Heq. simpl in Heq. lia.
  - destruct b as [|y b].
    + exfalso. apply (f_equal String.length) in Heq.
      rewrite app_nil_string, length_app_string in Heq. simpl in Heq. lia.
    + rewrite !app_cons_string in Heq. injection Heq as -> Heq. f_equal. by apply IH.
Qed.

Lemma numbered_name_inj original ext : Inj (=) (=) (numbered_name original ext).
Proof.
  intros c1 c2 Heq. unfold numbered_name in Heq.
  apply String.app_inj in Heq. apply (String.app_inj "_") in Heq.
  apply app_inj_r in Heq. by apply (inj pretty) in Heq.
Qed.
(** ** The loop of [create_file] *)

Lemma free_name_unfold fuel f d o e cur c :
  free_name fuel f d o e cur c =
  if path_exists f (join d cur) then
    match fuel with
    | O => None
    | S fuel' => free_name fuel' f d o e (numbered_name o e c) (S c)
    end
  else Some cur.
Proof. by destruct fuel. Qed.

Lemma free_name_Some fuel f d o e cur c n :
  free_name fuel f d o e cur c = Some n →
  path_exists f (join d n) = false ∧
  (n = cur ∨
   ∃ c', c ≤ c' ∧ n = numbered_name o e c' ∧
         path_exists f (join d cur) = true ∧
         ∀ k, c ≤ k < c' → path_exists f (join d (numbered_name o e k)) = true).
Proof.
  revert cur c. induction fuel as [|fuel IH]; intros cur c;
    rewrite free_name_unfold.
  - destruct (path_exists f (join d cur)) eqn:Hcur; [done|].
    intros [= <-]. by split; [|left].
  - destruct (path_exists f (join d cur)) eqn:Hcur.
    + intros [Hfree Hn]%IH. split; [done|]. right.
      destruct Hn as [->|(c' & Hle & -> & Hc & Hbelow)].
      * exists c. repeat split; [done..|]. intros k ?. lia.
      * exists c'. repeat split; [lia|].
        intros k Hk. destruct (decide (k = c)) as [->|]; [done|].
        apply Hbelow. lia.
    + intros [= <-]. by split; [|left].
Qed.

Lemma free_name_None fuel f d o e cur c :
  free_name fuel f d o e cur c = None →
  path_exists f (join d cur) = true ∧
  ∀ k, c ≤ k < c + fuel → path_exists f (join d (numbered_name o e k)) = true.
Proof.
  revert cur c. induction fuel as [|fuel IH]; intros cur c;
    rewrite free_name_unfold.
  - destruct (path_exists f (join d cur)); [|done]. intros _. split; [done|].
    intros k ?. lia.
  - destruct (path_exists f (join d cur)); [|done].
    intros [Hc Hrest]%IH. split; [done|].
    intros k Hk. destruct (decide (k = c)) as [->|]; [done|].
    apply Hrest. lia.
Qed.

Lemma free_name_total fuel (f : filesystem) d o e cur c :
  canonical d = true →
  (∀ k, plain_name (numbered_name o e k) = true) →
  size f < fuel →
  is_Some (free_name fuel f d o e cur c).
Proof.
  intros Hd Hplain Hsize.
  destruct (free_name fuel f d o e cur c) as [n|] eqn:Hfree; [by eexists|].
  exfalso. apply free_name_None in Hfree as [_ Hall].
  set (candidates := (λ k, join d (numbered_name o e k)) <$> seq c fuel).
  assert (NoDup candidates) as Hnd.
  { apply NoDup_fmap_2; [|apply NoDup_seq].
    intros k1 k2. rewrite !join_plain by done.
    intros Heq. apply String.app_inj in Heq. apply (String.app_inj "/") in Heq.
    by apply numbered_name_inj in Heq. }
  assert (list_to_set candidates ⊆ dom f) as Hsub.
  { intros x [k [-> Hk%elem_of_seq]]%elem_of_list_to_set%list_elem_of_fmap.
    apply elem_of_dom. specialize (Hall k Hk).
    by apply bool_decide_eq_true_1 in Hall. }
  apply subseteq_size in Hsub.
  rewrite size_list_to_set in Hsub by done.
  unfold candidates in Hsub. rewrite length_fmap, length_seq, size_dom in Hsub. lia.
Qed.

(** ** Writing a new file *)

Lemma has_parent_join (f : filesystem) d n :
  isdir f d = true → canonical d = true → plain_name n = true →
  has_parent f (join d n) = true.
Proof.
  intros Hdir Hd Hn. unfold has_parent. apply existsb_exists.
  exists (d, Dir). split.
  - apply list_elem_of_In, elem_of_map_to_list.
    unfold isdir in Hdir. by destruct (f !! d) as [[]|].
  - simpl. rewrite child_name_join by done. by apply bool_decide_eq_true_2.
Qed.

Lemma write_text_new w d n content :
  isdir (fs w) d = true → canonical d = true → plain_name n = true →
  fs w !! join d n = None →
  write_text w (join d n) content =
  Some (World (<[join d n := File content (now (ticks w)) (now (ticks w))]> (fs w))
              (ticks w)).
Proof.
  intros Hdir Hd Hn Hnew. unfold write_text.
  rewrite has_parent_join by done. unfold isdir at 1. by rewrite Hnew.
Qed.

Lemma path_exists_None (f : filesystem) p : path_exists f p = false ↔ f !! p = None.
Proof.
  unfold path_exists. rewrite bool_decide_eq_false, <-not_eq_None_Some.
  split; [|by intros ->; auto].
  intros H. by destruct (f !! p); [destruct H|].
Qed.

(** ** What a scan records *)

Lemma scan_name_mono (f : filesystem) d found n r :
  r ∈ found → r ∈ scan_name f d found n.
Proof.
  intros Hin. unfold scan_name.
  repeat case_match; try done. apply elem_of_app. by left.
Qed.

Lemma scan_names_mono (f : filesystem) d names found r :
  r ∈ found → r ∈ foldl (scan_name f d) found names.
Proof.
  revert found. induction names as [|n names IH]; intros found Hin; simpl; [done|].
  by apply IH, scan_name_mono.
Qed.

Lemma scan_names_records (f : filesystem) d names found n :
  n ∈ names → isfile f (join d n) = true →
  endswith (lower n) ".geometry.json" = false →
  ∃ r, r ∈ foldl (scan_name f d) found names ∧ f_path r = join d n.
Proof.
  intros Hin Hfile Hres. revert found.
  induction names as [|n' names IH]; intros found; [by apply elem_of_nil in Hin|].
  apply elem_of_cons in Hin as [<-|Hin]; [|by apply IH].
  simpl. assert (∃ r, r ∈ scan_name f d found n ∧ f_path r = join d n)
    as (r & Hr & Hpath).
  { unfold scan_name. rewrite Hfile, Hres.
    destruct (existsb _ found) eqn:Hex.
    - apply existsb_exists in Hex as (r & Hr%list_elem_of_In & Heq%String.eqb_eq).
      by exists r.
    - eexists. split; [apply elem_of_app; right; by left|].
      unfold scanned_record. by repeat case_match. }
  exists r. split; [|done]. by apply scan_names_mono.
Qed.

Lemma elem_of_insert_by_name r x l : r ∈ insert_by_name x l ↔ r = x ∨ r ∈ l.
Proof.
  induction l as [|y l IH]; simpl.
  { rewrite list_elem_of_singleton, elem_of_nil. tauto. }
  destruct (String.leb _ _); rewrite !elem_of_cons; [tauto|].
  rewrite IH. tauto.
Qed.

Lemma elem_of_sorted_by_name r l : r ∈ sorted_by_name l ↔ r ∈ l.
Proof.
  unfold sorted_by_name. induction l as [|x l IH]; simpl; [done|].
  rewrite elem_of_insert_by_name, IH, elem_of_cons. tauto.
Qed.

Lemma elem_of_listdir (f : filesystem) d n x :
  isdir f d = true → f !! join d n = Some x → child_name d (join d n) = Some n →
  ∃ names, listdir f d = Ok names ∧ n ∈ names.
Proof.
  intros Hdir Hx Hchild. unfold listdir. rewrite Hdir. eexists. split; [done|].
  apply list_elem_of_omap. exists (join d n, x). split; [|done].
  by apply elem_of_map_to_list.
Qed.

Lemma dir_map_distinct (p : Project) :
  NoDup [input_dir p; processed_dir p; output_dir p] →
  dir_map p = [(input_dir p, Input); (processed_dir p, Processed);
               (output_dir p, Output)].
Proof.
  intros Hnd.
  assert (input_dir p ≠ processed_dir p ∧ input_dir p ≠ output_dir p ∧
          processed_dir p ≠ output_dir p) as (Hip & Hio & Hpo).
  { rewrite !NoDup_cons, !not_elem_of_cons in Hnd. tauto. }
  unfold dir_map, dict_display. simpl.
  apply String.eqb_neq in Hip, Hio, Hpo.
  rewrite (String.eqb_sym (processed_dir p)), Hip.
  simpl. rewrite (String.eqb_sym (output_dir p)), Hio.
  by rewrite (String.eqb_sym (output_dir p)), Hpo.
Qed.

Lemma isdir_path_exists (f : filesystem) d : isdir f d = true → path_exists f d = true.
Proof.
  unfold isdir, path_exists. by destruct (f !! d) as [[]|].
Qed.

Lemma scan_directories_dirs (f : filesystem) (p : Project) :
  NoDup [input_dir p; processed_dir p; output_dir p] →
  (∀ b, isdir f (dir_of p b) = true) →
  ∃ fl, scan_directories f (Files [] [] []) (dir_map p) = (fl, None) ∧
        ∀ b, scanned f (dir_of p b) = Ok (files_get fl b).
Proof.
  intros Hnd Hdirs. rewrite dir_map_distinct by done.
  pose proof (Hdirs Input) as Hi. pose proof (Hdirs Processed) as Hp.
  pose proof (Hdirs Output) as Ho. simpl in Hi, Hp, Ho.
  unfold scanned, listdir. simpl. unfold listdir.
  rewrite !isdir_path_exists, Hi, Hp, Ho by done. simpl.
  eexists. split; [done|]. intros b. rewrite Hdirs. by destruct b.
Qed.
(** ** [add_file] and [create_file] *)

Lemma scan_and_update_files_dirs p w :
  NoDup [input_dir p; processed_dir p; output_dir p] →
  (∀ b, isdir (fs w) (dir_of p b) = true) →
  ∃ p' w',
    scan_and_update_files p w = (Ok (), p', w') ∧ fs w' = fs w ∧
    ∀ b, scanned (fs w) (dir_of p b) = Ok (files_get (files p') b).
Proof.
  intros Hnd Hdirs.
  destruct (scan_directories_dirs (fs w) p Hnd Hdirs) as (fl & Hscan & Hfl).
  unfold scan_and_update_files. rewrite Hscan. simpl. by eexists _, _.
Qed.

Lemma add_file_tracks p w n file_type b :
  bucket_of file_type = Some b →
  NoDup [input_dir p; processed_dir p; output_dir p] →
  (∀ b', isdir (fs w) (dir_of p b') = true) →
  canonical (dir_of p b) = true → plain_name n = true →
  isfile (fs w) (join (dir_of p b) n) = true →
  endswith (lower n) ".geometry.json" = false →
  fs (add_file p w (join (dir_of p b) n) file_type).2 = fs w ∧
  ∃ r, r ∈ files_get (files (add_file p w (join (dir_of p b) n) file_type).1.2) b ∧
       f_path r = join (dir_of p b) n.
Proof.
  intros Hb Hnd Hdirs Hd Hn Hfile Hres. unfold add_file. rewrite Hb.
  assert (∃ x, fs w !! join (dir_of p b) n = Some x) as [x Hx].
  { unfold isfile in Hfile. destruct (fs w !! _); [by eexists|done]. }
  assert (path_exists (fs w) (join (dir_of p b) n) = true) as ->.
  { unfold path_exists. apply bool_decide_eq_true_2. by rewrite Hx. }
  simpl. destruct (existsb _ (files_get (files p) b)) eqn:Hex.
  { simpl. split; [done|].
    apply existsb_exists in Hex as (r & Hr%list_elem_of_In & Heq%String.eqb_eq).
    by exists r. }
  destruct (scan_and_update_files_dirs p w Hnd Hdirs) as (p' & w' & -> & Hfs & Hfl).
  simpl. split; [done|]. specialize (Hfl b). unfold scanned in Hfl.
  destruct (elem_of_listdir (fs w) (dir_of p b) n x (Hdirs b) Hx
              (child_name_join _ _ Hd Hn)) as (names & Hlist & Hin).
  rewrite Hlist in Hfl. simpl in Hfl. injection Hfl as Hfl.
  destruct (scan_names_records (fs w) (dir_of p b) names [] n Hin Hfile Hres)
    as (r & Hr & Hpath).
  exists r. split; [|done]. rewrite <-Hfl. by apply elem_of_sorted_by_name.
Qed.

Lemma create_file_spec fuel p w file_name file_type content b :
  bucket_of file_type = Some b →
  NoDup [input_dir p; processed_dir p; output_dir p] →
  (∀ b', isdir (fs w) (dir_of p b') = true) →
  canonical (dir_of p b) = true →
  plain_name file_name = true →
  size (fs w) < fuel →
  ∃ final_name p' w',
    create_file fuel p w file_name file_type content =
      (Some (Some (join (dir_of p b) final_name)), p', w') ∧
    first_free_name (fs w) (dir_of p b) file_name final_name ∧
    fs w' =
      <[join (dir_of p b) final_name :=
          File content (now (ticks w)) (now (ticks w))]> (fs w) ∧
    (endswith (lower final_name) ".geometry.json" = false →
     ∃ r, r ∈ files_get (files p') b ∧ f_path r = join (dir_of p b) final_name).
Proof.
  intros Hb Hnd Hdirs Hd Hn Hfuel. unfold create_file. rewrite Hb.
  pose proof Hd as [->%negb_true_iff _]%andb_prop.
  pose proof (plain_name_numbered_name file_name) as Hplain.
  destruct (splitext file_name) as [original ext] eqn:Hsplit. simpl in Hplain.
  destruct (free_name_total fuel (fs w) (dir_of p b) original ext file_name 1 Hd
              (λ k, Hplain k Hn) Hfuel) as [final Hfree].
  rewrite Hfree.
  apply free_name_Some in Hfree as [Hnew%path_exists_None Hwhich].
  assert (plain_name final = true) as Hfinal.
  { destruct Hwhich as [->|(c & _ & -> & _)]; [done|by apply Hplain]. }
  rewrite (write_text_new w _ _ content (Hdirs b) Hd Hfinal Hnew).
  set (w1 := World _ _).
  assert (∀ b', isdir (fs w1) (dir_of p b') = true) as Hdirs1.
  { intros b'. specialize (Hdirs b'). unfold isdir in *. simpl.
    rewrite lookup_insert_ne; [done|]. intros Heq. by rewrite <-Heq, Hnew in Hdirs. }
  assert (isfile (fs w1) (join (dir_of p b) final) = true) as Hfile.
  { unfold isfile. simpl. by rewrite lookup_insert_eq. }
  destruct (add_file p w1 (join (dir_of p b) final) file_type) as [[ok p'] w'] eqn:Hadd.
  exists final, p', w'. split; [done|].
  split; [unfold first_free_name; rewrite Hsplit; by split|].
  split.
  - pose proof (λ Hres, proj1 (add_file_tracks p w1 final file_type b Hb Hnd Hdirs1 Hd
                                 Hfinal Hfile Hres)) as Hfs.
    unfold add_file in Hadd, Hfs. rewrite Hb in Hadd, Hfs.
    destruct (negb (path_exists (fs w1) (join (dir_of p b) final)));
      [by injection Hadd as <- <- <-|].
    destruct (existsb _ _); [by injection Hadd as <- <- <-|].
    destruct (scan_and_update_files_dirs p w1 Hnd Hdirs1) as (p2 & w2 & Hscan & Hw2 & _).
    rewrite Hscan in Hadd. simpl in Hadd. injection Hadd as <- <- <-. by simpl.
  - intros Hres.
    destruct (add_file_tracks p w1 final file_type b Hb Hnd Hdirs1 Hd Hfinal Hfile Hres)
      as [_ Htracked].
    by rewrite Hadd in Htracked.
Qed.

End WithLibrary.

(** ** The examples *)

#[local] Existing Instance example_library.

(** C7, as the code has it. In a project whose three bucket directories
    exist, [create_file] with a valid bucket and a plain file name never
    overwrites a file: it settles on the requested name when that is free
    and otherwise on the first free one among [name_1.ext], [name_2.ext],
    ..., writes the content there, leaves every other entry of the file
    system as it is, and returns the path. The file is registered in
    [files[bucket]] unless its final name ends, whatever the case of its
    letters, in [.geometry.json], which a scan leaves out. In particular
    creating [report.md] twice yields [report.md] and then [report_1.md],
    both on disk and both tracked. *)
Theorem create_file_first_free_name :
  (∀ (L : Library) fuel (p : Project) (w : world) file_name file_type content b,
     bucket_of file_type = Some b →
     NoDup [input_dir p; processed_dir p; output_dir p] →
     (∀ b', isdir (fs w) (dir_of p b') = true) →
     canonical (dir_of p b) = true →
     plain_name file_name = true →
     size (fs w) < fuel →
     ∃ final_name p' w',
       create_file fuel p w file_name file_type content =
         (Some (Some (join (dir_of p b) final_name)), p', w') ∧
       first_free_name (fs w) (dir_of p b) file_name final_name ∧
       fs w' =
         <[join (dir_of p b) final_name :=
             File content (now (ticks w)) (now (ticks w))]> (fs w) ∧
       (endswith (lower final_name) ".geometry.json" = false →
        ∃ r, r ∈ files_get (files p') b ∧
             f_path r = join (dir_of p b) final_name)) ∧
  (let first :=
     @create_file example_library 10 demo_project demo_world "report.md" "output"
       (VStr "one") in
   let second :=
     @create_file example_library 10 first.1.2 first.2 "report.md" "output"
       (VStr "two") in
   first.1.1 = Some (Some "/home/user/Demo_abc12345/output/report.md") ∧
   second.1.1 = Some (Some "/home/user/Demo_abc12345/output/report_1.md") ∧
   read_text (fs second.2) "/home/user/Demo_abc12345/output/report.md" =
     Some (VStr "one") ∧
   read_text (fs second.2) "/home/user/Demo_abc12345/output/report_1.md" =
     Some (VStr "two") ∧
   map f_path (output (files second.1.2)) =
     ["/home/user/Demo_abc12345/output/report.md";
      "/home/user/Demo_abc12345/output/report_1.md"]).
Proof.
  split.
  - intros L. apply create_file_spec.
  - by vm_compute.
Qed.

Lemma create_file_first_free_name_witness :
  let p := two_reports.1 in
  let w := two_reports.2 in
  bucket_of "output" = Some Output ∧
  NoDup [input_dir p; processed_dir p; output_dir p] ∧
  (∀ b', isdir (fs w) (dir_of p b') = true) ∧
  canonical (dir_of p Output) = true ∧
  plain_name "report.md" = true ∧
  size (fs w) < 10 ∧
  ∃ final_name p' w',
    @create_file example_library 10 p w "report.md" "output" (VStr "three") =
      (Some (Some (join (dir_of p Output) final_name)), p', w') ∧
    first_free_name (fs w) (dir_of p Output) "report.md" final_name ∧
    fs w' =
      <[join (dir_of p Output) final_name :=
          @File example_library (VStr "three") (now (ticks w)) (now (ticks w))]>
        (fs w) ∧
    (endswith (lower final_name) ".geometry.json" = false →
     ∃ r, r ∈ files_get (files p') Output ∧
          f_path r = join (dir_of p Output) final_name).
Proof.
  intros p w.
  assert (NoDup [input_dir p; processed_dir p; output_dir p]) as Hnd.
  { apply (bool_decide_unpack _). vm_compute. exact I. }
  assert (∀ b', isdir (fs w) (dir_of p b') = true) as Hdirs.
  { intros []; vm_compute; reflexivity. }
  assert (size (fs w) < 10) as Hsize.
  { vm_compute. lia. }
  split; [reflexivity|]. split; [exact Hnd|]. split; [exact Hdirs|].
  split; [vm_compute; reflexivity|]. split; [vm_compute; reflexivity|].
  split; [exact Hsize|].
  apply (proj1 create_file_first_free_name example_library 10 p w "report.md" "output"
           (VStr "three") Output).
  - reflexivity.
  - exact Hnd.
  - exact Hdirs.
  - vm_compute; reflexivity.
  - vm_compute; reflexivity.
  - exact Hsize.
Defined.

(** The claim C7 fails as stated for a reserved name: the file
    [diagram.geometry.json] is written and its path returned, and no
    record of the output bucket tracks it. *)
Lemma geometry_file_is_created_untracked :
  let created :=
    @create_file example_library 10 demo_project demo_world "diagram.geometry.json"
      "output" (VStr "{}") in
  created.1.1 = Some (Some "/home/user/Demo_abc12345/output/diagram.geometry.json") ∧
  read_text (fs created.2) "/home/user/Demo_abc12345/output/diagram.geometry.json" =
    Some (VStr "{}") ∧
  output (files created.1.2) = [].
Proof. by vm_compute. Qed.

(** The claim C9 fails as stated: a scan gives [logo.gif] of the
    processed bucket the type [image], and its path is in neither
    [ui_image] nor [diagram_image]. *)
Lemma gif_is_an_image_left_out :
  let scan := @scan_and_update_files example_library demo_project gif_world in
  map (λ f, (f_path f, f_type f)) (processed (files scan.1.2)) =
    [("/home/user/Demo_abc12345/processed/logo.gif", "image")] ∧
  ui_image (context scan.1.2) = [] ∧
  diagram_image (context scan.1.2) = [].
Proof. by vm_compute. Qed.

Lemma rename_file_existing_name_witness :
  let p := two_reports.1 in
  let w := two_reports.2 in
  let file_info :=
    FileRecord "/home/user/Demo_abc12345/output/report.md" "report.md" "text"
      "2025-01-01T00:00:00" "2025-01-01T00:00:00" 0 in
  bucket_of "output" = Some Output ∧
  find (λ f, String.eqb (f_name f) "report.md") (files_get (files p) Output) =
    Some file_info ∧
  path_exists (fs w) (f_path file_info) = true ∧
  path_exists (fs w) (join (dir_of p Output) "report_1.md") = true ∧
  @rename_file example_library p w "report.md" "report_1.md" "output" = (Ok false, p, w).
Proof.
  intros p w file_info.
  split; [reflexivity|]. split; [vm_compute; reflexivity|].
  split; [vm_compute; reflexivity|]. split; [vm_compute; reflexivity|].
  apply (rename_file_existing_name p w "report.md" "report_1.md" "output" Output
           file_info).
  - reflexivity.
  - vm_compute; reflexivity.
  - vm_compute; reflexivity.
  - vm_compute; reflexivity.
Defined.

Lemma saved_world {A} (r : bool * A) : r.1 = true → r = (true, r.2).
Proof. destruct r as [ok a]. simpl. by intros ->. Qed.

Lemma save_then_load_metadata_witness :
  let p := two_reports.1 in
  let w := two_reports.2 in
  let w' := (@save_metadata example_library p w).2 in
  json_load (json_dump (to_dict p)) = Some (to_dict p) ∧
  fromisoformat (isoformat (created_date p)) = Some (created_date p) ∧
  fromisoformat (isoformat (modified_date p)) = Some (modified_date p) ∧
  save_metadata p w = (true, w') ∧
  ∃ q w'',
    load_from_metadata (metadata_path p) w' = (Some q, w'') ∧
    name q = name p ∧ id q = id p ∧
    created_date q = created_date p ∧ modified_date q = modified_date p ∧
    description q = description p ∧ tags q = tags p ∧
    files q = files p ∧ processing_history q = processing_history p ∧
    requirements (context q) = requirements (context p) ∧
    tech_stack (context q) = tech_stack (context p) ∧
    generated_text_doc (context q) = VDict [] ∧
    generated_diagram (context q) = VDict [] ∧
    prototype_code (context q) = VStr "".
Proof.
  intros p w w'.
  assert (save_metadata p w = (true, w')) as Hsaved.
  { apply saved_world. vm_compute. reflexivity. }
  split; [reflexivity|]. split; [reflexivity|]. split; [reflexivity|].
  split; [exact Hsaved|].
  apply (save_then_load_metadata p w w').
  - reflexivity.
  - reflexivity.
  - reflexivity.
  - exact Hsaved.
Defined.

End ProjectFacts.

(** * More facts about the diagram merge engine *)

Module MergeFacts.
Import Diagram DiagramFacts.

(** ** Removal of entities *)

Lemma removed_only_entities ec arr rm :
  entity_changes_hashable (Some ec) = true →
  names_hashable (default [] arr) = true →
  ec_remove ec = Some rm → ec_add ec = None →
  merged_entities ec arr = Ok (filter (λ cls, negb (named_in rm cls)) <$> arr).
Proof.
  intros [Hrm _]%andb_prop Harr Hr Ha. unfold merged_entities, added_entities.
  rewrite Hr, Ha in *. simpl in Hrm. destruct arr as [xs|].
  - simpl in Harr. by rewrite removed_entities_total.
  - unfold removed_entities. by rewrite py_set_total.
Qed.

Lemma entity_hashable_of st cur changes cd key :
  document_hashable st cur = true → changes_hashable changes = true →
  envelope changes = Some cd →
  key ∈ ["classes"; "actors"; "useCases"] →
  entity_changes_hashable (entity_changes_of cd key) = true ∧
  names_hashable (default [] (array_at st cur key)) = true.
Proof.
  intros Hdoc Hchg Henv Hkey.
  unfold changes_hashable in Hchg. rewrite Henv in Hchg.
  apply andb_prop in Hchg as [[Hc1 Hc2]%andb_prop Hc3].
  apply andb_prop in Hdoc as [[Hd1 Hd2]%andb_prop Hd3].
  rewrite !elem_of_cons, elem_of_nil in Hkey.
  by destruct Hkey as [-> | [-> | [-> | []]]].
Qed.

(** X1. A change-set that only removes entities of a category leaves, in
    the returned document, exactly the elements of the array whose name
    equals no entry of the removal list, in their order; an absent array
    stays absent. *)
Theorem apply_changes_removal_only st cur changes cd key ec rm :
  wf st cur →
  document_hashable st cur = true → changes_hashable changes = true →
  envelope changes = Some cd →
  key ∈ ["classes"; "actors"; "useCases"] →
  entity_changes_of cd key = Some ec →
  ec_remove ec = Some rm → ec_add ec = None →
  ∃ ret st',
    _apply_changes cur changes st = Ok (ret, st') ∧
    array_at st' ret key =
      (filter (λ cls, negb (named_in rm cls)) <$> array_at st cur key).
Proof.
  intros Hwf Hdoc Hchg Henv Hkey Hec Hrm Hadd.
  destruct (apply_changes_result st cur changes cd Hwf Henv Hdoc Hchg)
    as (ret & st' & Hrun & _ & _ & _ & Hent & _).
  destruct (entity_hashable_of st cur changes cd key Hdoc Hchg Henv Hkey) as [Hh1 Hh2].
  specialize (Hent key Hkey). rewrite Hec in Hent, Hh1. simpl in Hent.
  rewrite (removed_only_entities ec _ rm Hh1 Hh2 Hrm Hadd) in Hent.
  injection Hent as Hent. by exists ret, st'.
Qed.

Lemma apply_changes_removal_only_witness :
  let st := single_array_store "classes" [named "User"; named "Order"; named "Cart"] in
  let ec := EntityChanges (Some [VStr "Order"; VStr "Ghost"]) None in
  let changes := entity_changes_only "classes" ec in
  ∃ ret st',
    _apply_changes document changes st = Ok (ret, st') ∧
    array_at st' ret "classes" =
      (filter (λ cls, negb (named_in [VStr "Order"; VStr "Ghost"] cls)) <$>
         array_at st document "classes").
Proof.
  intros st ec changes.
  apply (apply_changes_removal_only st document changes
           (ChangeData (Some ec) None None None) "classes" ec
           [VStr "Order"; VStr "Ghost"]).
  - apply wf_check_sound; vm_compute; reflexivity.
  - vm_compute; reflexivity.
  - vm_compute; reflexivity.
  - reflexivity.
  - left.
  - reflexivity.
  - reflexivity.
  - reflexivity.
Defined.

(** ** Removal and addition of one name *)

Lemma py_eq_str_sym e n : py_eq e (VStr n) = py_eq (VStr n) e.
Proof. destruct e; simpl; try done. apply String.eqb_sym. Qed.

Lemma named_in_filtered n new xs :
  name_of new = VStr n →
  named_in (map name_of (filter (λ cls, negb (named_in [VStr n] cls)) xs)) new = false.
Proof.
  intros Hname. unfold named_in at 1. rewrite Hname.
  induction xs as [|x xs IH]; [done|].
  rewrite filter_cons. destruct (decide _) as [Hx|Hx]; [|done].
  rewrite map_cons. cbn [existsb]. rewrite IH, orb_false_r.
  unfold named_in in Hx. cbn [existsb] in Hx. rewrite orb_false_r in Hx.
  rewrite py_eq_str_sym. by destruct (py_eq (VStr n) (name_of x)).
Qed.

(** X2. A change-set that removes the name [n] from a category and adds
    one entity of that name replaces the entity: the returned array is the
    array of the input without the elements named [n], followed by the
    new entity. *)
Theorem apply_changes_remove_and_add st cur changes cd key n new xs :
  wf st cur →
  document_hashable st cur = true →
  envelope changes = Some cd →
  changes_hashable changes = true →
  key ∈ ["classes"; "actors"; "useCases"] →
  entity_changes_of cd key = Some (EntityChanges (Some [VStr n]) (Some [new])) →
  name_of new = VStr n →
  array_at st cur key = Some xs →
  ∃ ret st',
    _apply_changes cur changes st = Ok (ret, st') ∧
    array_at st' ret key =
      Some (filter (λ cls, negb (named_in [VStr n] cls)) xs ++ [new]).
Proof.
  intros Hwf Hdoc Henv Hchg Hkey Hec Hname Harr.
  destruct (apply_changes_result st cur changes cd Hwf Henv Hdoc Hchg)
    as (ret & st' & Hrun & _ & _ & _ & Hent & _).
  destruct (entity_hashable_of st cur changes cd key Hdoc Hchg Henv Hkey) as [Hh1 Hh2].
  specialize (Hent key Hkey). rewrite Hec in Hent, Hh1.
  cbn [merged_entities_opt] in Hent.
  rewrite (merged_entities_total _ _ [new] Hh1 Hh2 eq_refl) in Hent.
  exists ret, st'. split; [done|].
  assert (Ok (array_at st' ret key) =
          Ok (Some (filter (λ cls, negb (named_in [VStr n] cls)) xs ++ [new])))
    as Hres; [|by injection Hres].
  rewrite <-Hent, Harr. cbn [ec_remove kept_entities default foldl].
  unfold append_unless. by rewrite named_in_filtered.
Qed.

Lemma apply_changes_remove_and_add_witness :
  let st := single_array_store "classes" [named "User"; named "Order"] in
  let ec := EntityChanges (Some [VStr "User"]) (Some [user_with_attributes]) in
  let changes := entity_changes_only "classes" ec in
  ∃ ret st',
    _apply_changes document changes st = Ok (ret, st') ∧
    array_at st' ret "classes" =
      Some (filter (λ cls, negb (named_in [VStr "User"] cls))
              [named "User"; named "Order"] ++ [user_with_attributes]).
Proof.
  intros st ec changes.
  apply (apply_changes_remove_and_add st document changes
           (ChangeData (Some ec) None None None) "classes" "User"
           user_with_attributes [named "User"; named "Order"]).
  - apply wf_check_sound; vm_compute; reflexivity.
  - vm_compute; reflexivity.
  - reflexivity.
  - vm_compute; reflexivity.
  - left.
  - reflexivity.
  - reflexivity.
  - vm_compute; reflexivity.
Defined.

(** ** Applying an addition twice *)

Lemma append_loop_fixed dup adds xs :
  (∀ c, c ∈ adds → dup xs c = true) → foldl (append_unless dup) xs adds = xs.
Proof.
  induction adds as [|a adds IH]; intros Hdup; simpl; [done|].
  unfold append_unless at 2. rewrite Hdup by left. apply IH.
  intros c Hc. apply Hdup. by right.
Qed.

Lemma append_loop_grows dup adds xs :
  ∃ appended, foldl (append_unless dup) xs adds = xs ++ appended.
Proof. destruct (append_loop_turns dup adds xs) as (appended & H & _). eauto. Qed.

Lemma append_loop_covers dup adds xs :
  (∀ xs ys c, dup xs c = true → dup (xs ++ ys) c = true) →
  (∀ xs c, c ∈ adds → dup (xs ++ [c]) c = true) →
  ∀ c, c ∈ adds → dup (foldl (append_unless dup) xs adds) c = true.
Proof.
  intros Hmono. revert xs. induction adds as [|a adds IH]; intros xs Hrefl c Hc.
  { by apply elem_of_nil in Hc. }
  simpl. apply elem_of_cons in Hc as [->|Hc].
  - destruct (append_loop_grows dup adds (append_unless dup xs a)) as (app & ->).
    apply Hmono. unfold append_unless. destruct (dup xs a) eqn:Hdup; [done|].
    apply Hrefl. by left.
  - apply IH; [|done]. intros ys c' Hc'. apply Hrefl. by right.
Qed.

Lemma named_in_mono xs ys c :
  named_in (map name_of xs) c = true → named_in (map name_of (xs ++ ys)) c = true.
Proof.
  unfold named_in. rewrite map_app, existsb_app. by intros ->.
Qed.

Lemma named_in_last xs c :
  hashable (name_of c) = true → named_in (map name_of (xs ++ [c])) c = true.
Proof.
  intros Hc. apply named_in_elem; [done|].
  rewrite map_app. apply elem_of_app. right. by left.
Qed.

Lemma same_relationship_mono xs ys c :
  existsb (same_relationship c) xs = true →
  existsb (same_relationship c) (xs ++ ys) = true.
Proof. rewrite existsb_app. by intros ->. Qed.

Lemma same_relationship_last xs c :
  same_relationship c c = true → existsb (same_relationship c) (xs ++ [c]) = true.
Proof. intros Hc. rewrite existsb_app. simpl. rewrite Hc. apply orb_true_r. Qed.

(** An entity block without removal list, run on its own result. *)
Lemma merged_entities_add_only_twice o arr :
  (∀ ec, o = Some ec → ec_remove ec = None) →
  entity_changes_hashable o = true →
  names_hashable (default [] arr) = true →
  ∃ r, merged_entities_opt o arr = Ok r ∧ merged_entities_opt o r = Ok r ∧
       names_hashable (default [] r) = true.
Proof.
  intros Hrm Ho Harr. destruct o as [ec|]; [|by exists arr].
  specialize (Hrm ec eq_refl). cbn [merged_entities_opt].
  destruct (ec_add ec) as [adds|] eqn:Hadd.
  - set (dup := λ (xs : list obj) (c : obj), named_in (map name_of xs) c).
    assert (names_hashable adds = true) as Hadds.
    { apply andb_prop in Ho as [_ H]. by rewrite Hadd in H. }
    destruct (append_loop_turns dup adds (default [] arr)) as (app & Hfold & Hsub & _).
    assert (names_hashable (default [] arr ++ app) = true) as Hres.
    { rewrite names_hashable_app, Harr. simpl.
      by eapply names_hashable_sublist. }
    exists (Some (default [] arr ++ app)).
    rewrite !(merged_entities_total ec _ adds) by done.
    rewrite Hrm. cbn [kept_entities default]. fold dup. rewrite Hfold.
    split; [done|]. split; [|done]. do 2 f_equal.
    rewrite <-Hfold. apply (append_loop_fixed dup).
    apply (append_loop_covers dup).
    + intros xs ys c. apply named_in_mono.
    + intros xs c Hc. apply named_in_last.
      by apply (proj1 (names_hashable_forall adds) Hadds).
  - exists arr. unfold merged_entities, added_entities, removed_entities.
    by rewrite Hrm, Hadd.
Qed.

Lemma merged_relationships_add_only_twice o arr :
  (∀ rc, o = Some rc →
     rc_remove rc = None ∧
     ∀ c, c ∈ default [] (rc_add rc) → same_relationship c c = true) →
  merged_relationships_opt o (merged_relationships_opt o arr) =
  merged_relationships_opt o arr.
Proof.
  intros Hrc. destruct o as [rc|]; [|done].
  destruct (Hrc rc eq_refl) as [Hrm Hrefl]. cbn [merged_relationships_opt].
  unfold merged_relationships, removed_relationships, added_relationships.
  rewrite Hrm. destruct (rc_add rc) as [adds|]; [|done]. simpl in Hrefl.
  cbn [default]. f_equal. unfold added_relationships_loop.
  set (dup := λ (xs : list obj) (c : obj), existsb (same_relationship c) xs).
  change added_relationship with (append_unless dup).
  apply (append_loop_fixed dup). apply (append_loop_covers dup).
  - intros xs ys c. apply same_relationship_mono.
  - intros xs c Hc. apply same_relationship_last. by apply Hrefl.
Qed.

(** X3. A change-set without removal lists changes nothing when it is
    applied a second time, to the document the first application
    returned: every candidate is then found in the array. Each candidate
    of the relationships list is taken to match itself, as values read
    from JSON do. *)
Theorem apply_changes_add_only_twice st cur changes cd :
  wf st cur →
  document_hashable st cur = true → changes_hashable changes = true →
  envelope changes = Some cd →
  (∀ key ec, entity_changes_of cd key = Some ec → ec_remove ec = None) →
  (∀ rc, cd_relationships cd = Some rc →
     rc_remove rc = None ∧
     ∀ c, c ∈ default [] (rc_add rc) → same_relationship c c = true) →
  ∃ ret st' ret' st'',
    _apply_changes cur changes st = Ok (ret, st') ∧
    _apply_changes ret changes st' = Ok (ret', st'') ∧
    ∀ key, key ∈ ["classes"; "actors"; "useCases"; "relationships"] →
      array_at st'' ret' key = array_at st' ret key.
Proof.
  intros Hwf Hdoc Hchg Henv Hent Hrel.
  destruct (apply_changes_result st cur changes cd Hwf Henv Hdoc Hchg)
    as (ret & st' & Hrun & _ & Hwf' & _ & Hent1 & Hrel1).
  assert (∀ key, key ∈ ["classes"; "actors"; "useCases"] →
            merged_entities_opt (entity_changes_of cd key) (array_at st' ret key) =
              Ok (array_at st' ret key) ∧
            names_hashable (default [] (array_at st' ret key)) = true) as Hfix.
  { intros key Hkey.
    destruct (entity_hashable_of st cur changes cd key Hdoc Hchg Henv Hkey)
      as [Hh1 Hh2].
    destruct (merged_entities_add_only_twice (entity_changes_of cd key)
                (array_at st cur key) (Hent key) Hh1 Hh2) as (r & H1 & H2 & H3).
    rewrite (Hent1 key Hkey) in H1. injection H1 as <-. done. }
  assert ("classes" ∈ ["classes"; "actors"; "useCases"]) as Hk1 by left.
  assert ("actors" ∈ ["classes"; "actors"; "useCases"]) as Hk2 by (right; left).
  assert ("useCases" ∈ ["classes"; "actors"; "useCases"]) as Hk3
    by (do 2 right; left).
  assert (document_hashable st' ret = true) as Hdoc'.
  { unfold document_hashable, array_hashable.
    by rewrite (proj2 (Hfix _ Hk1)), (proj2 (Hfix _ Hk2)), (proj2 (Hfix _ Hk3)). }
  destruct (apply_changes_result st' ret changes cd Hwf' Henv Hdoc' Hchg)
    as (ret' & st'' & Hrun' & _ & _ & _ & Hent2 & Hrel2).
  exists ret, st', ret', st''. split; [done|]. split; [done|].
  assert (∀ key, key ∈ ["classes"; "actors"; "useCases"] →
            array_at st'' ret' key = array_at st' ret key) as Hsame.
  { intros key Hkey. pose proof (Hent2 key Hkey) as H.
    rewrite (proj1 (Hfix key Hkey)) in H. by injection H. }
  intros key Hkey. rewrite !elem_of_cons, elem_of_nil in Hkey.
  destruct Hkey as [-> | [-> | [-> | [-> | []]]]]; [by apply Hsame.. |].
  rewrite Hrel2, Hrel1. by apply merged_relationships_add_only_twice.
Qed.

Lemma apply_changes_add_only_twice_witness :
  let st := single_array_store "classes" [named "User"] in
  let cd :=
    ChangeData (Some (EntityChanges None (Some [named "Order"; named "User"])))
      None None
      (Some (RelChanges None (Some [class_relationship "User" "Order" "association"]))) in
  let changes := Changes (Some cd) in
  wf st document ∧
  document_hashable st document = true ∧ changes_hashable changes = true ∧
  ∃ ret st' ret' st'',
    _apply_changes document changes st = Ok (ret, st') ∧
    _apply_changes ret changes st' = Ok (ret', st'') ∧
    ∀ key, key ∈ ["classes"; "actors"; "useCases"; "relationships"] →
      array_at st'' ret' key = array_at st' ret key.
Proof.
  intros st cd changes.
  split; [apply wf_check_sound; vm_compute; reflexivity|].
  split; [vm_compute; reflexivity|].
  split; [vm_compute; reflexivity|].
  apply (apply_changes_add_only_twice st document changes cd).
  - apply wf_check_sound; vm_compute; reflexivity.
  - vm_compute; reflexivity.
  - vm_compute; reflexivity.
  - reflexivity.
  - intros key ec. unfold entity_changes_of.
    destruct (String.eqb key "classes"); [by intros [= <-]|].
    destruct (String.eqb key "actors"); [done|].
    by destruct (String.eqb key "useCases").
  - intros rc [= <-]. split; [reflexivity|].
    intros c ->%list_elem_of_singleton. vm_compute; reflexivity.
Defined.

(** ** What the merge leaves alone *)

(** X4. Whatever the change-set, [_apply_changes] returns a new dictionary
    that carries the entries of the input other than the four arrays
    ([diagramType], [diagramName], ...) as they were; the input dictionary
    keeps its entries, and an array under any other key is the same in
    both. *)
Theorem apply_changes_keeps_other_entries st cur changes :
  wf st cur →
  document_hashable st cur = true → changes_hashable changes = true →
  ∃ ret st',
    _apply_changes cur changes st = Ok (ret, st') ∧ ret ≠ cur ∧
    (others <$> dicts st' !! ret) = (others <$> dicts st !! cur) ∧
    dicts st' !! cur = dicts st !! cur ∧
    ∀ k, k ∉ ["classes"; "actors"; "useCases"; "relationships"] →
      array_at st' ret k = array_at st cur k.
Proof.
  intros Hwf Hdoc Hchg. destruct (envelope changes) as [cd|] eqn:Henv.
  - unfold changes_hashable in Hchg. rewrite Henv in Hchg.
    apply andb_prop in Hchg as [[Hc1 Hc2]%andb_prop Hc3].
    apply andb_prop in Hdoc as [[Hd1 Hd2]%andb_prop Hd3].
    destruct (merged_entities_opt_total _ _ Hc1 Hd1) as (r1 & H1 & _).
    destruct (merged_entities_opt_total _ _ Hc2 Hd2) as (r2 & H2 & _).
    destruct (merged_entities_opt_total _ _ Hc3 Hd3) as (r3 & H3 & _).
    destruct (dict_copy_run st cur Hwf)
      as (ret & st0 & Hrun & Hne & Hwf0 & _ & Hcur0 & Hret0 & Harr0).
    unfold _apply_changes. rewrite (bind_ok _ _ _ _ _ Hrun), Henv.
    pose proof (entity_block_run "classes" ret (cd_classes cd) st0 Hwf0) as Hb1.
    rewrite Harr0, H1 in Hb1.
    destruct Hb1 as (st1 & Hrun1 & Hwf1 & Hr1 & Hk1 & Hf1 & Ho1).
    rewrite (bind_ok _ _ _ _ _ Hrun1).
    pose proof (entity_block_run "actors" ret (cd_actors cd) st1 Hwf1) as Hb2.
    rewrite Hk1, Harr0, H2 in Hb2 by done.
    destruct Hb2 as (st2 & Hrun2 & Hwf2 & Hr2 & Hk2 & Hf2 & Ho2).
    rewrite (bind_ok _ _ _ _ _ Hrun2).
    pose proof (entity_block_run "useCases" ret (cd_useCases cd) st2 Hwf2) as Hb3.
    rewrite Hk2, Hk1, Harr0, H3 in Hb3 by done.
    destruct Hb3 as (st3 & Hrun3 & Hwf3 & Hr3 & Hk3 & Hf3 & Ho3).
    rewrite (bind_ok _ _ _ _ _ Hrun3).
    destruct (relationship_block_run ret (cd_relationships cd) st3 Hwf3)
      as (st4 & Hrun4 & Hwf4 & Hr4 & Hk4 & Hf4 & Ho4).
    rewrite (bind_ok _ _ _ _ _ Hrun4).
    exists ret, st4. split; [done|]. split; [done|].
    split; [by rewrite Ho4, Ho3, Ho2, Ho1, Hret0|].
    split; [by rewrite Hf4, Hf3, Hf2, Hf1|].
    intros k Hk. rewrite !elem_of_cons, elem_of_nil in Hk.
    rewrite Hk4, Hk3, Hk2, Hk1, Harr0; [done | naive_solver..].
  - destruct (apply_changes_no_envelope st cur changes Hwf Henv)
      as (ret & st' & Hrun & Hne & _ & _ & Hcur & Hret & Harr).
    exists ret, st'. split; [done|]. split; [done|].
    split; [by rewrite Hret|]. split; [done|]. intros k _. apply Harr.
Qed.

Lemma apply_changes_keeps_other_entries_witness :
  let st :=
    Store {[ document :=
               PyDict {[ "classes" := 1%positive ]}
                 {[ "diagramName" := VStr "Shop" ]} ]}
          {[ 1%positive := [named "User"] ]} in
  let changes :=
    entity_changes_only "classes" (EntityChanges (Some [VStr "User"]) None) in
  wf st document ∧
  document_hashable st document = true ∧ changes_hashable changes = true ∧
  ∃ ret st',
    _apply_changes document changes st = Ok (ret, st') ∧ ret ≠ document ∧
    (others <$> dicts st' !! ret) = (others <$> dicts st !! document) ∧
    dicts st' !! document = dicts st !! document ∧
    ∀ k, k ∉ ["classes"; "actors"; "useCases"; "relationships"] →
      array_at st' ret k = array_at st document k.
Proof.
  intros st changes.
  split; [apply wf_check_sound; vm_compute; reflexivity|].
  split; [vm_compute; reflexivity|].
  split; [vm_compute; reflexivity|].
  apply (apply_changes_keeps_other_entries st document changes).
  - apply wf_check_sound; vm_compute; reflexivity.
  - vm_compute; reflexivity.
  - vm_compute; reflexivity.
Defined.

(** ** Removal of relationships *)

Lemma removed_relationships_filter rm xs :
  foldl removed_relationship xs rm =
  filter (λ rel, forallb (λ c, kept_by_removal c rel) rm) xs.
Proof.
  revert xs. induction rm as [|c rm IH]; intros xs; simpl.
  { induction xs as [|x xs IHxs]; [done|]. rewrite filter_cons. simpl.
    by rewrite <-IHxs. }
  rewrite IH. unfold removed_relationship.
  induction xs as [|x xs IHxs]; [done|].
  rewrite !(filter_cons _ x). simpl.
  destruct (kept_by_removal c x); simpl.
  - rewrite filter_cons. destruct (forallb _ rm); simpl; by rewrite IHxs.
  - by rewrite IHxs.
Qed.

(** X5. A change-set that only removes relationships leaves, in the
    returned document, exactly the relationships that every criterion of
    the removal list keeps, in their order: removing criterion by
    criterion is one pass over the array. An absent array stays absent. *)
Theorem apply_changes_removal_only_relationships st cur changes cd rc rm :
  wf st cur →
  document_hashable st cur = true → changes_hashable changes = true →
  envelope changes = Some cd → cd_relationships cd = Some rc →
  rc_remove rc = Some rm → rc_add rc = None →
  ∃ ret st',
    _apply_changes cur changes st = Ok (ret, st') ∧
    array_at st' ret "relationships" =
      (filter (λ rel, forallb (λ c, kept_by_removal c rel) rm) <$>
         array_at st cur "relationships").
Proof.
  intros Hwf Hdoc Hchg Henv Hrc Hrm Hadd.
  destruct (apply_changes_result st cur changes cd Hwf Henv Hdoc Hchg)
    as (ret & st' & Hrun & _ & _ & _ & _ & Hrel).
  exists ret, st'. split; [done|]. rewrite Hrel, Hrc.
  unfold merged_relationships_opt, merged_relationships, added_relationships,
    removed_relationships.
  rewrite Hrm, Hadd. destruct (array_at st cur "relationships"); [|done].
  simpl. by rewrite removed_relationships_filter.
Qed.

Lemma apply_changes_removal_only_relationships_witness :
  let xs := [class_relationship "A" "B" "association";
             plain_relationship "A" "B" "association";
             class_relationship "A" "C" "association"] in
  let st := single_array_store "relationships" xs in
  let rm := [plain_relationship "A" "B" "association"] in
  let changes := relationship_changes_only (RelChanges (Some rm) None) in
  wf st document ∧
  document_hashable st document = true ∧ changes_hashable changes = true ∧
  ∃ ret st',
    _apply_changes document changes st = Ok (ret, st') ∧
    array_at st' ret "relationships" =
      (filter (λ rel, forallb (λ c, kept_by_removal c rel) rm) <$>
         array_at st document "relationships").
Proof.
  intros xs st rm changes.
  split; [apply wf_check_sound; vm_compute; reflexivity|].
  split; [vm_compute; reflexivity|].
  split; [vm_compute; reflexivity|].
  apply (apply_changes_removal_only_relationships st document changes
           (ChangeData None None None (Some (RelChanges (Some rm) None)))
           (RelChanges (Some rm) None) rm).
  - apply wf_check_sound; vm_compute; reflexivity.
  - vm_compute; reflexivity.
  - vm_compute; reflexivity.
  - reflexivity.
  - reflexivity.
  - reflexivity.
  - reflexivity.
Defined.

Lemma kept_by_removal_absent rel c :
  lookup_key "from" rel = None → lookup_key "to" rel = None →
  lookup_key "from" c = None → lookup_key "to" c = None →
  py_eq (get rel "type") (get c "type") = true →
  kept_by_removal c rel = false.
Proof.
  intros H1 H2 H3 H4 Ht. unfold kept_by_removal, get.
  rewrite H1, H2, H3, H4. simpl. unfold get in Ht. rewrite Ht.
  apply andb_false_r.
Qed.

(** X6. Absent fields compare equal: a criterion of the removal list that
    gives neither [from] nor [to] removes every relationship of its type
    that has neither [from] nor [to] itself, such as the relationships a
    class diagram stores under [fromClass] and [toClass]. *)
Theorem apply_changes_criterion_without_endpoints st cur changes cd rc rm xs rel c :
  wf st cur →
  document_hashable st cur = true → changes_hashable changes = true →
  envelope changes = Some cd → cd_relationships cd = Some rc →
  rc_remove rc = Some rm → rc_add rc = None →
  array_at st cur "relationships" = Some xs →
  c ∈ rm → lookup_key "from" c = None → lookup_key "to" c = None →
  rel ∈ xs → lookup_key "from" rel = None → lookup_key "to" rel = None →
  py_eq (get rel "type") (get c "type") = true →
  ∃ ret st' kept,
    _apply_changes cur changes st = Ok (ret, st') ∧
    array_at st' ret "relationships" = Some kept ∧
    sublist kept xs ∧ rel ∉ kept.
Proof.
  intros Hwf Hdoc Hchg Henv Hrc Hrm Hadd Harr Hc Hc1 Hc2 Hrel Hr1 Hr2 Ht.
  destruct (apply_changes_result st cur changes cd Hwf Henv Hdoc Hchg)
    as (ret & st' & Hrun & _ & _ & _ & _ & Hres).
  exists ret, st', (foldl removed_relationship xs rm). split; [done|].
  split.
  { rewrite Hres, Hrc.
    unfold merged_relationships_opt, merged_relationships, added_relationships,
      removed_relationships.
    by rewrite Hrm, Hadd, Harr. }
  split; [apply removed_relationships_sublist|].
  intros [_ Hall]%removed_relationships_elem.
  specialize (Hall c Hc). by rewrite kept_by_removal_absent in Hall.
Qed.

Lemma apply_changes_criterion_without_endpoints_witness :
  let rel := class_relationship "A" "B" "association" in
  let xs := [rel; class_relationship "A" "C" "inheritance"] in
  let st := single_array_store "relationships" xs in
  let c : obj := [("type", VStr "association")] in
  let changes := relationship_changes_only (RelChanges (Some [c]) None) in
  wf st document ∧
  document_hashable st document = true ∧ changes_hashable changes = true ∧
  py_eq (get rel "type") (get c "type") = true ∧
  ∃ ret st' kept,
    _apply_changes document changes st = Ok (ret, st') ∧
    array_at st' ret "relationships" = Some kept ∧
    sublist kept xs ∧ rel ∉ kept.
Proof.
  intros rel xs st c changes.
  split; [apply wf_check_sound; vm_compute; reflexivity|].
  split; [vm_compute; reflexivity|].
  split; [vm_compute; reflexivity|].
  split; [vm_compute; reflexivity|].
  apply (apply_changes_criterion_without_endpoints st document changes
           (ChangeData None None None (Some (RelChanges (Some [c]) None)))
           (RelChanges (Some [c]) None) [c] xs rel c).
  - apply wf_check_sound; vm_compute; reflexivity.
  - vm_compute; reflexivity.
  - vm_compute; reflexivity.
  - reflexivity.
  - reflexivity.
  - reflexivity.
  - reflexivity.
  - vm_compute; reflexivity.
  - left.
  - reflexivity.
  - reflexivity.
  - left.
  - reflexivity.
  - reflexivity.
  - vm_compute; reflexivity.
Defined.

End MergeFacts.

(** * Facts about the diagram agent *)

Module AgentFacts.
Import Project Agent ProjectFacts.

Lemma prefix_app a s : String.prefix a s = true ↔ ∃ post, s = a +:+ post.
Proof.
  revert s. induction a as [|c a IH]; intros s.
  { split; [intros _; by exists s | by destruct s]. }
  destruct s as [|c' s]; simpl.
  { split; [done | by intros [post ?]]. }
  destruct (ascii_dec c c') as [<-|Hne].
  - rewrite IH. split; intros [post Hpost]; exists post.
    + by rewrite app_cons_string, <-Hpost.
    + rewrite app_cons_string in Hpost. by injection Hpost.
  - split; [done|]. intros [post Hpost].
    rewrite app_cons_string in Hpost. by injection Hpost.
Qed.

Lemma contains_app sub s :
  contains sub s = true ↔ ∃ pre post, s = pre +:+ sub +:+ post.
Proof.
  induction s as [|c s IH]; cbn [contains].
  - rewrite orb_false_r, prefix_app. split.
    + intros [post ->]. by exists "", post.
    + intros (pre & post & Heq). destruct pre as [|c pre]; [by exists post|].
      by rewrite app_cons_string in Heq.
  - rewrite orb_true_iff, prefix_app, IH. split.
    + intros [[post ->] | (pre & post & ->)].
      * by exists "", post.
      * exists (String c pre), post. by rewrite app_cons_string.
    + intros (pre & post & Heq). destruct pre as [|c' pre].
      * left. by exists post.
      * right. rewrite app_cons_string in Heq. injection Heq as -> ->.
        by exists pre, post.
Qed.

Lemma contains_trans a b s :
  contains a b = true → contains b s = true → contains a s = true.
Proof.
  rewrite !contains_app. intros (p1 & q1 & ->) (p2 & q2 & ->).
  exists (p2 +:+ p1), (q1 +:+ q2). by rewrite !app_assoc_string.
Qed.

(** X7. The test for [er] comes before the tests for use case and
    activity diagrams: a prompt that contains a word with [er] in it
    (user, order, customer, ...), in any case of its letters, is taken for
    a class diagram when it mentions [class], for a sequence diagram when
    it mentions [sequence], and for a database diagram otherwise; it is
    never taken for a use case or an activity diagram. *)
Theorem determine_diagram_type_er prompt word :
  contains "er" word = true → contains word (lower prompt) = true →
  _determine_diagram_type prompt =
    if contains "class" (lower prompt) then "UML Class Diagram"
    else if contains "sequence" (lower prompt) then "UML Sequence Diagram"
    else "Database Diagram".
Proof.
  intros Hword Hprompt. unfold _determine_diagram_type.
  rewrite (contains_trans _ _ _ Hword Hprompt).
  by rewrite orb_true_r.
Qed.

Lemma determine_diagram_type_er_witness :
  contains "er" "user" = true ∧
  contains "user" (lower "Use Case diagram of the User login") = true ∧
  _determine_diagram_type "Use Case diagram of the User login" = "Database Diagram".
Proof.
  split; [reflexivity|]. split; [vm_compute; reflexivity|].
  apply (determine_diagram_type_er "Use Case diagram of the User login" "user").
  - reflexivity.
  - vm_compute; reflexivity.
Defined.

(** X8. The names [_determine_diagram_type] answers with are prompts it
    takes for themselves: asked about its own answer, it gives the same
    answer. *)
Theorem determine_diagram_type_twice prompt :
  _determine_diagram_type (_determine_diagram_type prompt) =
  _determine_diagram_type prompt.
Proof.
  assert (_determine_diagram_type prompt ∈
            ["UML Class Diagram"; "UML Sequence Diagram"; "Database Diagram";
             "Use Case Diagram"; "Activity Diagram"]) as Hin.
  { unfold _determine_diagram_type.
    repeat (match goal with |- context [if ?b then _ else _] => destruct b end);
      set_solver. }
  rewrite !elem_of_cons, elem_of_nil in Hin.
  destruct Hin as [-> | [-> | [-> | [-> | [-> | []]]]]]; by vm_compute.
Qed.

End AgentFacts.

(** * Facts about the connection manager *)

Module ConnectionFacts.
Import Connections.

Lemma list_remove_perm x l : x ∈ l → l ≡ₚ x :: list_remove x l.
Proof.
  induction l as [|y l IH]; [by intros ?%elem_of_nil|].
  intros Hin. simpl. case_bool_decide as Hy; [by subst|].
  apply elem_of_cons in Hin as [->|Hin]; [done|].
  rewrite (IH Hin) at 1. apply Permutation_swap.
Qed.

Lemma list_remove_notin x l : x ∉ l → list_remove x (l ++ [x]) = l.
Proof.
  induction l as [|y l IH]; simpl; intros Hx.
  - by rewrite bool_decide_true.
  - apply not_elem_of_cons in Hx as [Hne Hx].
    rewrite bool_decide_false by done. by rewrite IH.
Qed.

Lemma filter_list_remove (P : socket → bool) x l :
  filter (λ c, P c) (list_remove x l) =
  if P x then list_remove x (filter (λ c, P c) l) else filter (λ c, P c) l.
Proof.
  induction l as [|y l IH]; simpl; [by destruct (P x)|].
  case_bool_decide as Hy.
  - subst y. rewrite filter_cons. destruct (P x) eqn:HP; simpl.
    + by rewrite bool_decide_true.
    + done.
  - rewrite !(filter_cons _ y). destruct (P y) eqn:HPy; simpl.
    + rewrite IH. destruct (P x); [|done]. simpl. by rewrite bool_decide_false.
    + by rewrite IH.
Qed.

Lemma disconnect_member websocket project_id (active : connections) l :
  active !! project_id = Some l → websocket ∈ l →
  disconnect websocket project_id active =
    if bool_decide (list_remove websocket l = []) then delete project_id active
    else <[project_id := list_remove websocket l]> active.
Proof.
  intros Hl Hin. unfold disconnect. rewrite Hl, bool_decide_true by done.
  case_bool_decide as Hempty.
  - rewrite lookup_delete_eq. by rewrite delete_insert_eq.
  - rewrite lookup_insert_eq. by destruct (list_remove websocket l).
Qed.

Lemma disconnect_stranger websocket project_id (active : connections) :
  no_empty active →
  websocket ∉ default [] (active !! project_id) →
  disconnect websocket project_id active = active.
Proof.
  intros Hne Hnot. unfold disconnect.
  destruct (active !! project_id) as [l|] eqn:Hl; [|done]. simpl in Hnot.
  rewrite bool_decide_false, Hl by done.
  destruct l; [by destruct (Hne _ _ Hl) | done].
Qed.

Lemma no_empty_insert project_id l (active : connections) :
  l ≠ [] → no_empty active → no_empty (<[project_id := l]> active).
Proof.
  intros Hl Hne k l'. destruct (decide (k = project_id)) as [->|Hk].
  - rewrite lookup_insert_eq. by intros [= <-].
  - rewrite lookup_insert_ne by done. apply Hne.
Qed.

Lemma no_empty_delete project_id (active : connections) :
  no_empty active → no_empty (delete project_id active).
Proof.
  intros Hne k l'. destruct (decide (k = project_id)) as [->|Hk].
  - by rewrite lookup_delete_eq.
  - rewrite lookup_delete_ne by done. apply Hne.
Qed.

Lemma disconnect_all (send_json : socket → bool) project_id failed :
  ∀ (active : connections) l,
    active !! project_id = Some l → l ≠ [] →
    filter (λ c, negb (send_json c)) l ≡ₚ failed →
    foldl (λ active sock, disconnect sock project_id active) active failed =
      if bool_decide (filter (λ c, send_json c) l = []) then delete project_id active
      else <[project_id := filter (λ c, send_json c) l]> active.
Proof.
  induction failed as [|s failed IH]; intros active l Hl Hne Hperm; simpl.
  - apply Permutation_nil_r in Hperm.
    assert (filter (λ c, send_json c) l = l) as ->.
    { clear Hl Hne. induction l as [|y l IHl]; [done|].
      rewrite filter_cons in Hperm. rewrite filter_cons.
      destruct (send_json y); simpl in *; [|done]. by rewrite IHl. }
    rewrite bool_decide_false by done. by rewrite insert_id.
  - assert (s ∈ filter (λ c, negb (send_json c)) l) as Hs.
    { rewrite Hperm. by left. }
    apply list_elem_of_filter in Hs as [Hdead Hin].
    apply Is_true_true, negb_true_iff in Hdead.
    rewrite (disconnect_member _ _ _ l) by done.
    pose proof (filter_list_remove send_json s l) as Halive.
    pose proof (filter_list_remove (λ c, negb (send_json c)) s l) as Hfailed.
    cbv beta in Hfailed. rewrite Hdead in Halive, Hfailed. cbn [negb] in Hfailed.
    assert (filter (λ c, negb (send_json c)) (list_remove s l) ≡ₚ failed) as Hperm'.
    { rewrite Hfailed. apply (Permutation_cons_inv (a := s)).
      rewrite <-list_remove_perm; [done|].
      apply list_elem_of_filter. split; [|done].
      apply Is_true_true. by rewrite Hdead. }
    case_bool_decide as Hempty.
    + assert (failed = []) as Hnone.
      { rewrite Hempty in Hperm'. by apply Permutation_nil_l in Hperm'. }
      rewrite Hnone. simpl. rewrite bool_decide_true; [done|].
      by rewrite <-Halive, Hempty.
    + rewrite (IH _ (list_remove s l)); [|by rewrite lookup_insert_eq|done|done].
      rewrite Halive. case_bool_decide.
      * by rewrite delete_insert_eq.
      * by rewrite insert_insert_eq.
Qed.

Lemma broadcast_run send_json project_id (active : connections) l :
  active !! project_id = Some l → l ≠ [] →
  broadcast send_json project_id active =
    (filter (λ c, send_json c) l,
     if bool_decide (filter (λ c, send_json c) l = []) then delete project_id active
     else <[project_id := filter (λ c, send_json c) l]> active).
Proof.
  intros Hl Hne. unfold broadcast. rewrite Hl. f_equal.
  by apply (disconnect_all send_json project_id _ active l).
Qed.

(** X9. A broadcast sends the message to every connection of the
    project and keeps exactly the connections it reached, in their
    order; it forgets the project when none is left, and leaves the
    connections of the other projects as they are. *)
Theorem broadcast_keeps_reached send_json project_id (active : connections) l :
  active !! project_id = Some l → l ≠ [] →
  broadcast send_json project_id active =
    (filter (λ c, send_json c) l,
     if bool_decide (filter (λ c, send_json c) l = []) then delete project_id active
     else <[project_id := filter (λ c, send_json c) l]> active).
Proof. apply broadcast_run. Qed.

Lemma broadcast_keeps_reached_witness :
  let active : connections := {[ "p1" := [1; 2; 1; 3]; "p2" := [4] ]} in
  let send_json := λ c : socket, negb (c =? 1) in
  active !! "p1" = Some [1; 2; 1; 3] ∧
  broadcast send_json "p1" active =
    (filter (λ c, send_json c) [1; 2; 1; 3],
     if bool_decide (filter (λ c, send_json c) [1; 2; 1; 3] = [])
     then delete "p1" active
     else <["p1" := filter (λ c, send_json c) [1; 2; 1; 3]]> active).
Proof.
  intros active send_json.
  split; [vm_compute; reflexivity|].
  apply (broadcast_keeps_reached send_json "p1" active [1; 2; 1; 3]).
  - vm_compute; reflexivity.
  - discriminate.
Defined.

(** X10. No project is ever left with an empty list of connections:
    [connect], [disconnect] and [broadcast] keep that. *)
Theorem connections_never_empty (active : connections) :
  no_empty active →
  (∀ websocket project_id, no_empty (connect websocket project_id active)) ∧
  (∀ websocket project_id, no_empty (disconnect websocket project_id active)) ∧
  (∀ send_json project_id, no_empty (broadcast send_json project_id active).2).
Proof.
  intros Hne. split; [|split].
  - intros websocket project_id. unfold connect.
    case_bool_decide.
    + apply no_empty_insert; [|done]. by destruct (default [] _).
    + rewrite lookup_insert_eq, insert_insert_eq. simpl.
      by apply no_empty_insert.
  - intros websocket project_id.
    destruct (active !! project_id) as [l|] eqn:Hl.
    + destruct (decide (websocket ∈ l)) as [Hin|Hnot].
      * rewrite (disconnect_member _ _ _ l) by done. case_bool_decide.
        -- by apply no_empty_delete.
        -- by apply no_empty_insert.
      * rewrite disconnect_stranger; [done..|]. by rewrite Hl.
    + unfold disconnect. by rewrite Hl.
  - intros send_json project_id.
    destruct (active !! project_id) as [l|] eqn:Hl.
    + rewrite (broadcast_run send_json project_id active l Hl (Hne _ _ Hl)).
      simpl. case_bool_decide.
      * by apply no_empty_delete.
      * by apply no_empty_insert.
    + unfold broadcast. by rewrite Hl.
Qed.

(** X11. Connecting and then disconnecting a socket that was not yet
    connected to the project gives back the connections as they were, also
    when the socket was the first of its project. *)
Theorem disconnect_connect websocket project_id (active : connections) :
  no_empty active →
  websocket ∉ default [] (active !! project_id) →
  disconnect websocket project_id (connect websocket project_id active) = active.
Proof.
  intros Hne Hnot. unfold connect.
  destruct (active !! project_id) as [l|] eqn:Hl; simpl in *.
  - rewrite Hl. simpl.
    rewrite (disconnect_member _ _ _ (l ++ [websocket]));
      [|by rewrite lookup_insert_eq | apply elem_of_app; right; by left].
    rewrite list_remove_notin by done.
    rewrite bool_decide_false by by eapply Hne.
    rewrite insert_insert_eq. by apply insert_id.
  - rewrite lookup_insert_eq, insert_insert_eq. simpl.
    rewrite (disconnect_member _ _ _ [websocket]);
      [|by rewrite lookup_insert_eq | by left].
    assert (list_remove websocket [websocket] = []) as ->.
    { simpl. by rewrite bool_decide_true. }
    rewrite bool_decide_true by done.
    rewrite delete_insert_eq. by apply delete_id.
Qed.

Lemma disconnect_connect_witness :
  let active : connections := {[ "p1" := [1; 2] ]} in
  no_empty active ∧
  disconnect 3 "p1" (connect 3 "p1" active) = active ∧
  disconnect 3 "p2" (connect 3 "p2" active) = active.
Proof.
  intros active.
  assert (no_empty active) as Hne.
  { intros k l [<- <-]%lookup_singleton_Some. discriminate. }
  split; [exact Hne|]. split.
  - apply (disconnect_connect 3 "p1" active Hne).
    vm_compute. intros H. by repeat (apply elem_of_cons in H as [H|H]; [done|]);
      apply elem_of_nil in H.
  - apply (disconnect_connect 3 "p2" active Hne).
    vm_compute. apply not_elem_of_nil.
Defined.

Lemma connections_never_empty_witness :
  let active : connections := {[ "p1" := [1; 2] ]} in
  no_empty active ∧
  no_empty (connect 3 "p2" active) ∧
  no_empty (disconnect 1 "p1" active) ∧
  no_empty (broadcast (λ _, false) "p1" active).2.
Proof.
  intros active.
  assert (no_empty active) as Hne.
  { intros k l [<- <-]%lookup_singleton_Some. discriminate. }
  split; [exact Hne|].
  destruct (connections_never_empty active Hne) as (H1 & H2 & H3).
  split; [apply H1|]. split; [apply H2 | apply H3].
Defined.

End ConnectionFacts.

(** * More facts about the project store *)

Module StoreFacts.
Import Project ProjectFacts ProjectOps.

Section WithLibrary.
Context {L : Library}.

(** ** What a scan records *)

Lemma app_inj_l a b c : a +:+ b = a +:+ c → b = c.
Proof.
  induction a as [|x a IH]; [done|]. rewrite !app_cons_string.
  intros [= H]. by apply IH.
Qed.

Lemma strip_prefix_Some p s rest : strip_prefix p s = Some rest → s = p +:+ rest.
Proof.
  revert s. induction p as [|a p IH]; intros s; simpl.
  { by intros [= <-]. }
  destruct s as [|b s]; [done|]. destruct (Ascii.eqb a b) eqn:Hab; [|done].
  apply Ascii.eqb_eq in Hab as <-. intros ->%IH. by rewrite app_cons_string.
Qed.

Lemma child_name_plain d k n : child_name d k = Some n → plain_name n = true.
Proof.
  unfold child_name. destruct (strip_prefix _ k) as [rest|]; [|done].
  destruct (plain_name rest) eqn:Hp; [|done]. by intros [= <-].
Qed.

Lemma child_name_path d k n :
  canonical d = true → child_name d k = Some n → k = join d n.
Proof.
  intros Hd Hk. pose proof (child_name_plain _ _ _ Hk) as Hn.
  rewrite join_plain by done. unfold child_name in Hk.
  pose proof Hd as [_ He%negb_true_iff]%andb_prop. rewrite He in Hk.
  destruct (strip_prefix _ k) as [rest|] eqn:Hs; [|done].
  destruct (plain_name rest); [|done]. injection Hk as ->.
  apply strip_prefix_Some in Hs. by rewrite Hs, app_assoc_string.
Qed.

Lemma join_inj d n n' :
  canonical d = true → plain_name n = true → plain_name n' = true →
  join d n = join d n' → n = n'.
Proof.
  intros Hd Hn Hn'. rewrite !join_plain by done.
  intros H%app_inj_l. by apply (app_inj_l "/").
Qed.

Lemma scanned_record_path (f : filesystem) file_path file_name :
  f_path (scanned_record f file_path file_name) = file_path.
Proof. unfold scanned_record. by repeat case_match. Qed.

Lemma scanned_record_name (f : filesystem) file_path file_name :
  f_name (scanned_record f file_path file_name) = file_name.
Proof. unfold scanned_record. by repeat case_match. Qed.

Lemma scan_name_elem (f : filesystem) d found n r :
  canonical d = true → plain_name n = true → from_names f d found →
  r ∈ scan_name f d found n ↔
  r ∈ found ∨
  (isfile f (join d n) = true ∧ endswith (lower n) ".geometry.json" = false ∧
   r = scanned_record f (join d n) n).
Proof.
  intros Hd Hn Hfound. unfold scan_name.
  destruct (isfile f (join d n)); [|split; [by left | by intros [?|(? & _)]]].
  destruct (endswith (lower n) ".geometry.json");
    [split; [by left | by intros [?|(_ & ? & _)]]|].
  destruct (existsb _ found) eqn:Hex.
  - split; [by left|]. intros [?|(_ & _ & ->)]; [done|].
    apply existsb_exists in Hex as (r' & Hr'%list_elem_of_In & Heq%String.eqb_eq).
    destruct (Hfound r' Hr') as (n' & Hn' & ->).
    rewrite scanned_record_path in Heq.
    by rewrite <-(join_inj d n' n Hd Hn' Hn Heq).
  - rewrite elem_of_app, list_elem_of_singleton. split.
    + intros [?| ->]; [by left | by right].
    + intros [?|(_ & _ & ->)]; [by left | by right].
Qed.

Lemma scan_name_from_names (f : filesystem) d found n :
  plain_name n = true → from_names f d found → from_names f d (scan_name f d found n).
Proof.
  intros Hn Hfound r. unfold scan_name.
  destruct (isfile f (join d n)); [|by apply Hfound].
  destruct (endswith (lower n) ".geometry.json"); [by apply Hfound|].
  destruct (existsb _ found); [by apply Hfound|].
  intros [?| ->%list_elem_of_singleton]%elem_of_app; [by apply Hfound|].
  by exists n.
Qed.

Lemma scan_names_elem (f : filesystem) d names found r :
  canonical d = true → (∀ n, n ∈ names → plain_name n = true) →
  from_names f d found →
  r ∈ foldl (scan_name f d) found names ↔
  r ∈ found ∨
  ∃ n, n ∈ names ∧ isfile f (join d n) = true ∧
       endswith (lower n) ".geometry.json" = false ∧
       r = scanned_record f (join d n) n.
Proof.
  intros Hd. revert found. induction names as [|n names IH]; intros found Hnames Hfound.
  { simpl. split; [by left|]. intros [?|(n & Hn%elem_of_nil & _)]; done. }
  simpl. rewrite IH;
    [|intros; apply Hnames; by right | apply scan_name_from_names; [apply Hnames; by left|done]].
  rewrite scan_name_elem; [|done|apply Hnames; by left|done].
  split.
  - intros [[?|(? & ? & ?)]|(n' & ? & ?)]; [by left| |].
    + right. exists n. split; [by left|done].
    + right. exists n'. split; [by right|done].
  - intros [?|(n' & [->|?]%elem_of_cons & ?)]; [by left; left| |].
    + by left; right.
    + right. by exists n'.
Qed.

Lemma scan_name_NoDup (f : filesystem) d found n :
  NoDup (map f_path found) → NoDup (map f_path (scan_name f d found n)).
Proof.
  intros Hnd. unfold scan_name.
  destruct (isfile f (join d n)); [|done].
  destruct (endswith (lower n) ".geometry.json"); [done|].
  destruct (existsb _ found) eqn:Hex; [done|].
  rewrite map_app. simpl. apply NoDup_app. split; [done|].
  split; [|apply NoDup_singleton].
  intros x Hx ->%list_elem_of_singleton. rewrite scanned_record_path in Hx.
  apply list_elem_of_fmap in Hx as (r & Hpath & Hr).
  assert (existsb (λ r, String.eqb (f_path r) (join d n)) found = true) as Hex'.
  { apply existsb_exists. exists r. split; [by apply list_elem_of_In|].
    apply String.eqb_eq. by rewrite <-Hpath. }
  congruence.
Qed.

Lemma scan_names_NoDup (f : filesystem) d names found :
  NoDup (map f_path found) → NoDup (map f_path (foldl (scan_name f d) found names)).
Proof.
  revert found. induction names as [|n names IH]; intros found Hnd; simpl; [done|].
  by apply IH, scan_name_NoDup.
Qed.

Lemma insert_by_name_perm x l : insert_by_name x l ≡ₚ x :: l.
Proof.
  induction l as [|y l IH]; simpl; [done|].
  destruct (String.leb _ _); [done|]. rewrite IH. apply Permutation_swap.
Qed.

Lemma sorted_by_name_perm l : sorted_by_name l ≡ₚ l.
Proof.
  unfold sorted_by_name. induction l as [|x l IH]; simpl; [done|].
  by rewrite insert_by_name_perm, IH.
Qed.

Lemma listdir_plain (f : filesystem) d names n :
  listdir f d = Ok names → n ∈ names → plain_name n = true.
Proof.
  unfold listdir. destruct (isdir f d); [|done]. intros [= <-].
  intros ((k & x) & _ & Hk)%list_elem_of_omap. by eapply child_name_plain.
Qed.

Lemma listdir_files (f : filesystem) d names n :
  canonical d = true → listdir f d = Ok names →
  plain_name n = true → isfile f (join d n) = true → n ∈ names.
Proof.
  intros Hd. unfold listdir. destruct (isdir f d); [|done]. intros [= <-] Hn Hfile.
  apply list_elem_of_omap. unfold isfile in Hfile.
  destruct (f !! join d n) as [x|] eqn:Hx; [|done].
  exists (join d n, x). split; [by apply elem_of_map_to_list|].
  by apply child_name_join.
Qed.

Lemma scanned_exact (f : filesystem) d l :
  canonical d = true → scanned f d = Ok l →
  (∀ r, r ∈ l ↔ recorded f d r) ∧ NoDup (map f_path l).
Proof.
  intros Hd. unfold scanned. destruct (listdir f d) as [names|] eqn:Hnames; [|done].
  simpl. intros [= <-]. split.
  - intros r. rewrite elem_of_sorted_by_name.
    rewrite scan_names_elem;
      [|done|intros; by eapply listdir_plain|by intros ? ?%elem_of_nil].
    unfold recorded. split.
    + intros [?%elem_of_nil|(n & Hn & ?)]; [done|].
      exists n. split; [by eapply listdir_plain|done].
    + intros (n & Hn & Hfile & ?). right. exists n.
      split; [by eapply listdir_files|done].
  - rewrite (Permutation_map f_path (sorted_by_name_perm _)).
    apply scan_names_NoDup. constructor.
Qed.

Lemma scan_exact (p : Project) (w : world) :
  NoDup [input_dir p; processed_dir p; output_dir p] →
  (∀ b, isdir (fs w) (dir_of p b) = true) →
  (∀ b, canonical (dir_of p b) = true) →
  ∃ p' w',
    scan_and_update_files p w = (Ok (), p', w') ∧ fs w' = fs w ∧
    ∀ b, (∀ r, r ∈ files_get (files p') b ↔ recorded (fs w) (dir_of p b) r) ∧
         NoDup (map f_path (files_get (files p') b)).
Proof.
  intros Hnd Hdirs Hcan.
  destruct (scan_and_update_files_dirs p w Hnd Hdirs) as (p' & w' & Hscan & Hfs & Hfl).
  exists p', w'. split; [done|]. split; [done|]. intros b.
  by apply scanned_exact.
Qed.

(** X12. When the three bucket directories exist, a scan succeeds, leaves
    the file system as it is, and records in each bucket exactly the
    files that lie directly in its directory, but for the names ending in
    [.geometry.json]: one record for each, with the path, name, type,
    dates and size read from the file system, and no path twice. *)
Theorem scan_and_update_files_exact (p : Project) (w : world) :
  NoDup [input_dir p; processed_dir p; output_dir p] →
  (∀ b, isdir (fs w) (dir_of p b) = true) →
  (∀ b, canonical (dir_of p b) = true) →
  ∃ p' w',
    scan_and_update_files p w = (Ok (), p', w') ∧ fs w' = fs w ∧
    ∀ b, (∀ r, r ∈ files_get (files p') b ↔ recorded (fs w) (dir_of p b) r) ∧
         NoDup (map f_path (files_get (files p') b)).
Proof. apply scan_exact. Qed.

(** ** Deleting and renaming a file *)

Lemma isfile_lookup (f : filesystem) path :
  isfile f path = true → ∃ content ctime mtime, f !! path = Some (File content ctime mtime).
Proof.
  unfold isfile. destruct (f !! path) as [[content ctime mtime|]|]; [|done..].
  intros _. by exists content, ctime, mtime.
Qed.

Lemma isfile_path_exists (f : filesystem) path :
  isfile f path = true → path_exists f path = true.
Proof.
  intros (? & ? & ? & H)%isfile_lookup. unfold path_exists.
  apply bool_decide_eq_true_2. by rewrite H.
Qed.

Lemma isdir_delete_file (f : filesystem) path d :
  isfile f path = true → isdir (delete path f) d = isdir f d.
Proof.
  intros (? & ? & ? & Hfile)%isfile_lookup. unfold isdir.
  destruct (decide (d = path)) as [->|Hne].
  - by rewrite lookup_delete_eq, Hfile.
  - by rewrite lookup_delete_ne.
Qed.

Lemma recorded_exists (f : filesystem) d r :
  recorded f d r → isfile f (f_path r) = true.
Proof. intros (n & _ & Hfile & _ & ->). by rewrite scanned_record_path. Qed.

Lemma find_name_elem (l : list file_record) file_name file_info :
  find (λ f, String.eqb (f_name f) file_name) l = Some file_info →
  file_info ∈ l ∧ f_name file_info = file_name.
Proof.
  intros H. apply find_some in H as [Hin Hname].
  split; [by apply list_elem_of_In | by apply String.eqb_eq].
Qed.

(** X13. When the bucket directories exist and the record that
    [delete_file] finds for the name has its file on disk, [delete_file]
    returns [True], removes that file and nothing else from the file
    system, and leaves in every bucket exactly the records of the files
    that remain: no record has the path of the deleted file. *)
Theorem delete_file_removes (p : Project) (w : world)
    (file_name file_type : string) (b : bucket) (file_info : file_record) :
  bucket_of file_type = Some b →
  NoDup [input_dir p; processed_dir p; output_dir p] →
  (∀ b', isdir (fs w) (dir_of p b') = true) →
  (∀ b', canonical (dir_of p b') = true) →
  find (λ f, String.eqb (f_name f) file_name) (files_get (files p) b) = Some file_info →
  isfile (fs w) (f_path file_info) = true →
  ∃ p' w',
    delete_file p w file_name file_type = (true, p', w') ∧
    fs w' = delete (f_path file_info) (fs w) ∧
    (∀ b' r, r ∈ files_get (files p') b' ↔ recorded (fs w') (dir_of p b') r) ∧
    (∀ b' r, r ∈ files_get (files p') b' → f_path r ≠ f_path file_info).
Proof.
  intros Hb Hnd Hdirs Hcan Hfind Hfile. unfold delete_file, remove.
  rewrite Hb, Hfind, Hfile.
  set (w1 := World (delete (f_path file_info) (fs w)) (ticks w)).
  destruct (scan_exact p w1 Hnd) as (p' & w' & Hscan & Hfs & Hrec); [|done|].
  { intros b'. simpl. by rewrite isdir_delete_file. }
  rewrite Hscan. simpl. eexists _, _. split; [done|]. simpl.
  split; [by rewrite Hfs|].
  assert (∀ b' r, r ∈ files_get (files p') b' ↔ recorded (fs w') (dir_of p b') r)
    as Hexact.
  { intros b' r. rewrite Hfs. apply Hrec. }
  split; [done|]. intros b' r Hr%Hexact%recorded_exists Heq.
  rewrite Hfs, Heq in Hr. unfold isfile in Hr. simpl in Hr.
  by rewrite lookup_delete_eq in Hr.
Qed.

Lemma bucket_of_valid file_type b :
  bucket_of file_type = Some b →
  bool_decide (file_type ∈ ["input"; "processed"; "output"]) = true.
Proof.
  unfold bucket_of. intros H. apply bool_decide_eq_true_2.
  destruct (String.eqb file_type "input") eqn:H1.
  { apply String.eqb_eq in H1 as ->. by left. }
  destruct (String.eqb file_type "processed") eqn:H2.
  { apply String.eqb_eq in H2 as ->. right. by left. }
  destruct (String.eqb file_type "output") eqn:H3; [|done].
  apply String.eqb_eq in H3 as ->. do 2 right. by left.
Qed.

Lemma save_metadata_other (p : Project) (w : world) path :
  path ≠ metadata_path p → fs (save_metadata p w).2 !! path = fs w !! path.
Proof.
  intros Hne. unfold save_metadata, write_text.
  destruct (has_parent _ _ && _); [|done]. simpl. by rewrite lookup_insert_ne.
Qed.

(** X14. The endpoint that deletes a file removes the file from disk
    before it calls [Project.delete_file], which then finds no file to
    remove, fails, and leaves the records alone: for a tracked file on
    disk the endpoint answers with success, the file is gone, and the
    project, still holding the record of the deleted file, is what the
    metadata file is written from. *)
Theorem delete_endpoint_keeps_record (p : Project) (w : world)
    (filetype filename : string) (b : bucket) (target_file : file_record) :
  bucket_of filetype = Some b →
  find (λ f, String.eqb (f_name f) filename) (files_get (files p) b) = Some target_file →
  isfile (fs w) (f_path target_file) = true →
  ∃ w',
    FilesRouter.delete_file filetype filename p w = (FilesRouter.Success, p, w') ∧
    w' = (save_metadata p (World (delete (f_path target_file) (fs w)) (ticks w))).2 ∧
    (f_path target_file ≠ metadata_path p →
     path_exists (fs w') (f_path target_file) = false) ∧
    target_file ∈ files_get (files p) b.
Proof.
  intros Hb Hfind Hfile. unfold FilesRouter.delete_file.
  rewrite (bucket_of_valid _ _ Hb), Hb, Hfind. simpl.
  rewrite (isfile_path_exists _ _ Hfile). unfold remove at 1. rewrite Hfile.
  set (w1 := World (delete (f_path target_file) (fs w)) (ticks w)).
  assert (delete_file p w1 filename filetype = (false, p, w1)) as ->.
  { unfold delete_file, remove. rewrite Hb, Hfind.
    unfold isfile. simpl. by rewrite lookup_delete_eq. }
  destruct (save_metadata p w1) as [saved w2] eqn:Hsave.
  exists w2. split; [done|]. split; [done|]. split.
  - intros Hne. apply path_exists_None.
    change w2 with (saved, w2).2. rewrite <-Hsave.
    rewrite save_metadata_other by done. simpl. apply lookup_delete_eq.
  - by apply find_name_elem in Hfind as [? _].
Qed.

(** X15. When the bucket directories exist, the record found for the old
    name has its file on disk, and the new name is a plain name that is
    free in the bucket directory, [rename_file] returns [True]: the file
    is at the new path with its content and dates, nothing else changes
    on disk, and every bucket holds exactly the records of the files then
    on disk, so no record has the old path and, unless the new name ends
    in [.geometry.json], a record has the new path and name. *)
Theorem rename_file_renames (p : Project) (w : world)
    (file_name new_name file_type : string) (b : bucket) (file_info : file_record) :
  bucket_of file_type = Some b →
  NoDup [input_dir p; processed_dir p; output_dir p] →
  (∀ b', isdir (fs w) (dir_of p b') = true) →
  (∀ b', canonical (dir_of p b') = true) →
  find (λ f, String.eqb (f_name f) file_name) (files_get (files p) b) = Some file_info →
  isfile (fs w) (f_path file_info) = true →
  plain_name new_name = true →
  path_exists (fs w) (join (dir_of p b) new_name) = false →
  ∃ node p' w',
    fs w !! f_path file_info = Some node ∧
    rename_file p w file_name new_name file_type = (Ok true, p', w') ∧
    fs w' = <[join (dir_of p b) new_name := node]> (delete (f_path file_info) (fs w)) ∧
    (∀ b' r, r ∈ files_get (files p') b' ↔ recorded (fs w') (dir_of p b') r) ∧
    (∀ b' r, r ∈ files_get (files p') b' → f_path r ≠ f_path file_info) ∧
    (endswith (lower new_name) ".geometry.json" = false →
     ∃ r, r ∈ files_get (files p') b ∧
          f_path r = join (dir_of p b) new_name ∧ f_name r = new_name).
Proof.
  intros Hb Hnd Hdirs Hcan Hfind Hfile Hnew Hfree.
  destruct (isfile_lookup _ _ Hfile) as (content & ctime & mtime & Hold).
  set (new_path := join (dir_of p b) new_name) in *.
  assert (fs w !! new_path = None) as Hnone by by apply path_exists_None.
  assert (f_path file_info ≠ new_path) as Hne by congruence.
  exists (File content ctime mtime). unfold rename_file. rewrite Hb.
  pose proof (Hcan b) as [->%negb_true_iff _]%andb_prop.
  rewrite Hfind, (isfile_path_exists _ _ Hfile). simpl. fold new_path.
  rewrite Hfree. unfold rename. rewrite Hold.
  pose proof (has_parent_join _ _ _ (Hdirs b) (Hcan b) Hnew) as Hparent.
  fold new_path in Hparent. rewrite Hparent.
  assert (isdir (fs w) new_path = false) as ->.
  { unfold isdir. by rewrite Hnone. }
  simpl.
  set (f1 := <[new_path := File content ctime mtime]> (delete (f_path file_info) (fs w))).
  set (w1 := World f1 (ticks w)).
  destruct (scan_exact p w1 Hnd) as (p' & w' & Hscan & Hfs & Hrec); [|done|].
  { intros b'. specialize (Hdirs b'). unfold isdir in *. simpl. unfold f1.
    destruct (fs w !! dir_of p b') as [[]|] eqn:Hd; try done.
    rewrite lookup_insert_ne by congruence.
    rewrite lookup_delete_ne by congruence. by rewrite Hd. }
  rewrite Hscan. simpl. eexists _, _. split; [done|]. split; [done|]. simpl.
  split; [by rewrite Hfs|].
  assert (∀ b' r, r ∈ files_get (files p') b' ↔ recorded (fs w') (dir_of p b') r)
    as Hexact.
  { intros b' r. rewrite Hfs. apply Hrec. }
  split; [done|]. split.
  - intros b' r Hr%Hexact%recorded_exists Heq.
    rewrite Hfs, Heq in Hr. unfold isfile in Hr. simpl in Hr. unfold f1 in Hr.
    rewrite lookup_insert_ne in Hr by done. by rewrite lookup_delete_eq in Hr.
  - intros Hres. exists (scanned_record (fs w') new_path new_name).
    rewrite scanned_record_path, scanned_record_name. split; [|done].
    apply Hexact. exists new_name. split; [done|]. split; [|done].
    rewrite Hfs. unfold isfile. simpl. unfold f1. by rewrite lookup_insert_eq.
Qed.

(** ** The directories of a loaded project *)

Ltac load_step H :=
  cbn -[init update_from_project join folder_name base_argument lookup_str
        lookup_dict lookup_date loaded_files loaded_requirements] in H.

(** X16. [load_from_metadata] takes the base directory, the name and the
    id from the metadata file and computes the project directory and the
    three bucket directories from them: the [project], [input],
    [processed] and [output] entries of the file are not read. It leaves
    the file system as it is. *)
Theorem load_from_metadata_layout (metadata_path : string) (w w' : world) (q : Project) :
  load_from_metadata metadata_path w = (Some q, w') →
  project_dir q = join (base_dir q) (folder_name (name q) (id q)) ∧
  input_dir q = join (project_dir q) "input" ∧
  processed_dir q = join (project_dir q) "processed" ∧
  output_dir q = join (project_dir q) "output" ∧
  fs w' = fs w.
Proof.
  unfold load_from_metadata.
  destruct (read_text (fs w) metadata_path) as [content|]; [|done].
  destruct (json_load content) as [[| | | | |metadata]|]; try done.
  destruct (load_project metadata w) as [[project w1]|] eqn:Hload; [|done].
  intros [= -> ->]. unfold load_project in Hload.
  destruct (lookup_str "name" metadata) as [name|]; [|done]. load_step Hload.
  destruct (lookup_dict "directories" metadata) as [directories|]; [|done].
  load_step Hload.
  destruct (base_argument directories) as [base_arg|]; [|done]. load_step Hload.
  destruct (lookup_str "id" metadata) as [id|]; [|done]. load_step Hload.
  destruct (lookup_date "created_date" metadata) as [created|]; [|done].
  load_step Hload.
  destruct (lookup_date "modified_date" metadata) as [modified|]; [|done].
  load_step Hload.
  destruct (loaded_files metadata) as [fl|]; [|done]. load_step Hload.
  destruct (loaded_requirements metadata _) as [reqs|]; [|done]. load_step Hload.
  injection Hload as <- <-. by cbn.
Qed.

(** ** The preview *)

Lemma string_leb_trans a b c :
  String.leb a b = true → String.leb b c = true → String.leb a c = true.
Proof.
  unfold String.leb. revert b c.
  induction a as [|x a IH]; intros [|y b] [|z c]; simpl; try done.
  unfold Ascii.compare.
  destruct (N.compare_spec (N_of_ascii x) (N_of_ascii y)) as [Hxy|Hxy|Hxy]; [| |done].
  - destruct (N.compare_spec (N_of_ascii y) (N_of_ascii z)) as [Hyz|Hyz|Hyz]; [| |done].
    + rewrite (proj2 (N.compare_eq_iff _ _)) by congruence. apply IH.
    + by rewrite (proj2 (N.compare_lt_iff _ _)) by lia.
  - destruct (N.compare_spec (N_of_ascii y) (N_of_ascii z)) as [Hyz|Hyz|Hyz]; [| |done].
    + by rewrite (proj2 (N.compare_lt_iff _ _)) by lia.
    + by rewrite (proj2 (N.compare_lt_iff _ _)) by lia.
Qed.

Lemma name_le_refl r : name_le r r.
Proof. unfold name_le. by destruct (String.leb_total (f_name r) (f_name r)). Qed.

Lemma sorted_find_least (P : file_record → bool) l r :
  Sorted name_le l → find P l = Some r →
  r ∈ l ∧ P r = true ∧ ∀ r', r' ∈ l → P r' = true → name_le r r'.
Proof.
  intros Hsorted. apply Sorted_StronglySorted in Hsorted;
    [|intros x y z; apply string_leb_trans].
  induction Hsorted as [|x l Hl IH Hall]; simpl; [done|].
  destruct (P x) eqn:Hx.
  - intros [= <-]. split; [by left|]. split; [done|].
    intros r' [->|Hr']%elem_of_cons _; [apply name_le_refl|].
    rewrite Forall_forall in Hall. by apply Hall.
  - intros (Hin & HP & Hleast)%IH. split; [by right|]. split; [done|].
    intros r' [->|Hr']%elem_of_cons HP'; [congruence|]. by apply Hleast.
Qed.

Lemma find_none_elem (P : file_record → bool) l r :
  find P l = None → r ∈ l → P r = false.
Proof. intros H Hin. apply (find_none _ _ H). by apply list_elem_of_In. Qed.

(** X17. With the records sorted by name, as a scan leaves them,
    [get_preview_html_dir] returns the path of the record with the least
    name among those of the output bucket whose path ends in [.html],
    whatever the case of the letters; when the output bucket has none, the
    same of the processed bucket; and [None] when neither has one. *)
Theorem get_preview_html_dir_least (p : Project) :
  all_sorted (files p) →
  let is_html := λ r, endswith (lower (f_path r)) ".html" in
  match get_preview_html_dir p with
  | Some path =>
      ∃ b r,
        (b = Output ∨
         b = Processed ∧ ∀ r', r' ∈ output (files p) → is_html r' = false) ∧
        r ∈ files_get (files p) b ∧ f_path r = path ∧ is_html r = true ∧
        ∀ r', r' ∈ files_get (files p) b → is_html r' = true → name_le r r'
  | None =>
      ∀ r, r ∈ output (files p) ++ processed (files p) → is_html r = false
  end.
Proof.
  intros Hsorted is_html. unfold get_preview_html_dir, first_html.
  fold is_html.
  destruct (find is_html (output (files p))) as [r|] eqn:Hout; simpl.
  - destruct (sorted_find_least is_html _ r (Hsorted Output) Hout) as (? & ? & ?).
    exists Output, r. split; [by left|done].
  - destruct (find is_html (processed (files p))) as [r|] eqn:Hproc; simpl.
    + destruct (sorted_find_least is_html _ r (Hsorted Processed) Hproc) as (? & ? & ?).
      exists Processed, r. split; [|done]. right. split; [done|].
      intros r'. by apply find_none_elem.
    + intros r [?|?]%elem_of_app;
        [by apply (find_none_elem is_html _ r Hout) |
         by apply (find_none_elem is_html _ r Hproc)].
Qed.

End WithLibrary.

(** ** The examples *)

#[local] Existing Instance example_library.

Lemma two_reports_dirs :
  let p := two_reports.1 in
  let w := two_reports.2 in
  NoDup [input_dir p; processed_dir p; output_dir p] ∧
  (∀ b, isdir (fs w) (dir_of p b) = true) ∧
  (∀ b, canonical (dir_of p b) = true).
Proof.
  intros p w. split; [|split].
  - apply (bool_decide_unpack _). vm_compute. exact I.
  - intros []; vm_compute; reflexivity.
  - intros []; vm_compute; reflexivity.
Qed.

Lemma scan_and_update_files_exact_witness :
  let p := two_reports.1 in
  let w := two_reports.2 in
  NoDup [input_dir p; processed_dir p; output_dir p] ∧
  (∀ b, isdir (fs w) (dir_of p b) = true) ∧
  (∀ b, canonical (dir_of p b) = true) ∧
  ∃ p' w',
    scan_and_update_files p w = (Ok (), p', w') ∧ fs w' = fs w ∧
    ∀ b, (∀ r, r ∈ files_get (files p') b ↔ recorded (fs w) (dir_of p b) r) ∧
         NoDup (map f_path (files_get (files p') b)).
Proof.
  intros p w. destruct two_reports_dirs as (Hnd & Hdirs & Hcan).
  split; [exact Hnd|]. split; [exact Hdirs|]. split; [exact Hcan|].
  apply (scan_and_update_files_exact p w Hnd Hdirs Hcan).
Defined.

Lemma delete_file_removes_witness :
  let p := two_reports.1 in
  let w := two_reports.2 in
  let file_info :=
    FileRecord "/home/user/Demo_abc12345/output/report.md" "report.md" "text"
      "2025-01-01T00:00:00" "2025-01-01T00:00:00" 0 in
  bucket_of "output" = Some Output ∧
  find (λ f, String.eqb (f_name f) "report.md") (files_get (files p) Output) =
    Some file_info ∧
  isfile (fs w) (f_path file_info) = true ∧
  ∃ p' w',
    delete_file p w "report.md" "output" = (true, p', w') ∧
    fs w' = delete (f_path file_info) (fs w) ∧
    (∀ b' r, r ∈ files_get (files p') b' ↔ recorded (fs w') (dir_of p b') r) ∧
    (∀ b' r, r ∈ files_get (files p') b' → f_path r ≠ f_path file_info).
Proof.
  intros p w file_info. destruct two_reports_dirs as (Hnd & Hdirs & Hcan).
  split; [reflexivity|]. split; [vm_compute; reflexivity|].
  split; [vm_compute; reflexivity|].
  apply (delete_file_removes p w "report.md" "output" Output file_info).
  - reflexivity.
  - exact Hnd.
  - exact Hdirs.
  - exact Hcan.
  - vm_compute; reflexivity.
  - vm_compute; reflexivity.
Defined.

Lemma delete_endpoint_keeps_record_witness :
  let p := two_reports.1 in
  let w := two_reports.2 in
  let target_file :=
    FileRecord "/home/user/Demo_abc12345/output/report.md" "report.md" "text"
      "2025-01-01T00:00:00" "2025-01-01T00:00:00" 0 in
  bucket_of "output" = Some Output ∧
  find (λ f, String.eqb (f_name f) "report.md") (files_get (files p) Output) =
    Some target_file ∧
  isfile (fs w) (f_path target_file) = true ∧
  ∃ w',
    FilesRouter.delete_file "output" "report.md" p w = (FilesRouter.Success, p, w') ∧
    w' = (save_metadata p (World (delete (f_path target_file) (fs w)) (ticks w))).2 ∧
    (f_path target_file ≠ metadata_path p →
     path_exists (fs w') (f_path target_file) = false) ∧
    target_file ∈ files_get (files p) Output.
Proof.
  intros p w target_file.
  split; [reflexivity|]. split; [vm_compute; reflexivity|].
  split; [vm_compute; reflexivity|].
  apply (delete_endpoint_keeps_record p w "output" "report.md" Output target_file).
  - reflexivity.
  - vm_compute; reflexivity.
  - vm_compute; reflexivity.
Defined.

Lemma rename_file_renames_witness :
  let p := two_reports.1 in
  let w := two_reports.2 in
  let file_info :=
    FileRecord "/home/user/Demo_abc12345/output/report.md" "report.md" "text"
      "2025-01-01T00:00:00" "2025-01-01T00:00:00" 0 in
  bucket_of "output" = Some Output ∧
  find (λ f, String.eqb (f_name f) "report.md") (files_get (files p) Output) =
    Some file_info ∧
  isfile (fs w) (f_path file_info) = true ∧
  plain_name "summary.md" = true ∧
  path_exists (fs w) (join (dir_of p Output) "summary.md") = false ∧
  ∃ node p' w',
    fs w !! f_path file_info = Some node ∧
    rename_file p w "report.md" "summary.md" "output" = (Ok true, p', w') ∧
    fs w' = <[join (dir_of p Output) "summary.md" := node]>
              (delete (f_path file_info) (fs w)) ∧
    (∀ b' r, r ∈ files_get (files p') b' ↔ recorded (fs w') (dir_of p b') r) ∧
    (∀ b' r, r ∈ files_get (files p') b' → f_path r ≠ f_path file_info) ∧
    (endswith (lower "summary.md") ".geometry.json" = false →
     ∃ r, r ∈ files_get (files p') Output ∧
          f_path r = join (dir_of p Output) "summary.md" ∧ f_name r = "summary.md").
Proof.
  intros p w file_info. destruct two_reports_dirs as (Hnd & Hdirs & Hcan).
  split; [reflexivity|]. split; [vm_compute; reflexivity|].
  split; [vm_compute; reflexivity|]. split; [vm_compute; reflexivity|].
  split; [vm_compute; reflexivity|].
  apply (rename_file_renames p w "report.md" "summary.md" "output" Output file_info).
  - reflexivity.
  - exact Hnd.
  - exact Hdirs.
  - exact Hcan.
  - vm_compute; reflexivity.
  - vm_compute; reflexivity.
  - vm_compute; reflexivity.
  - vm_compute; reflexivity.
Defined.

Lemma loaded_some (r : option Project * world) :
  match r.1 with Some _ => true | None => false end = true →
  ∃ q, r = (Some q, r.2).
Proof. destruct r as [[q|] w]; [by exists q | done]. Qed.

Lemma load_from_metadata_layout_witness :
  let p := two_reports.1 in
  let w := (save_metadata p two_reports.2).2 in
  ∃ q w',
    load_from_metadata (metadata_path p) w = (Some q, w') ∧
    project_dir q = join (base_dir q) (folder_name (name q) (id q)) ∧
    input_dir q = join (project_dir q) "input" ∧
    processed_dir q = join (project_dir q) "processed" ∧
    output_dir q = join (project_dir q) "output" ∧
    fs w' = fs w.
Proof.
  intros p w.
  destruct (loaded_some (load_from_metadata (metadata_path p) w)) as [q Hq].
  { vm_compute. reflexivity. }
  exists q, (load_from_metadata (metadata_path p) w).2. split; [exact Hq|].
  apply (load_from_metadata_layout (metadata_path p) w _ q Hq).
Defined.

Lemma get_preview_html_dir_least_witness :
  let p :=
    (@create_file example_library 10 two_reports.1 two_reports.2 "index.html"
       "output" (VStr "<html></html>")).1.2 in
  let is_html := λ r : file_record, endswith (lower (f_path r)) ".html" in
  all_sorted (files p) ∧
  match get_preview_html_dir p with
  | Some path =>
      ∃ b r,
        (b = Output ∨
         b = Processed ∧ ∀ r', r' ∈ output (files p) → is_html r' = false) ∧
        r ∈ files_get (files p) b ∧ f_path r = path ∧ is_html r = true ∧
        ∀ r', r' ∈ files_get (files p) b → is_html r' = true → name_le r r'
  | None =>
      ∀ r, r ∈ output (files p) ++ processed (files p) → is_html r = false
  end.
Proof.
  intros p is_html.
  assert (all_sorted (files p)) as Hsorted.
  { intros []; vm_compute; repeat constructor. }
  split; [exact Hsorted|].
  apply (get_preview_html_dir_least p Hsorted).
Defined.

End StoreFacts.

(** * Facts about names, extensions and the files router *)

Module NameFacts.
Import Project ProjectFacts FilesRouter.

(** ** The last occurrence of a character *)

Lemma rfind_from_nochar c s i last :
  has_char c s = false → rfind_from c s i last = last.
Proof.
  revert i last. induction s as [|x s IH]; intros i last; simpl; [done|].
  intros [-> Hs]%orb_false_elim. by apply IH.
Qed.

Lemma rfind_from_app c a b i last :
  rfind_from c (a +:+ b) i last =
  rfind_from c b (i + Z.of_nat (String.length a))%Z (rfind_from c a i last).
Proof.
  revert i last. induction a as [|x a IH]; intros i last.
  { rewrite app_nil_string. simpl. by rewrite Z.add_0_r. }
  rewrite app_cons_string. cbn [rfind_from String.length]. rewrite IH.
  f_equal. lia.
Qed.

Lemma rfind_last c pre post :
  has_char c post = false →
  rfind c (pre +:+ String c post) = Z.of_nat (String.length pre).
Proof.
  intros Hpost. unfold rfind. rewrite rfind_from_app. cbn [rfind_from].
  rewrite ascii_eqb_refl. by rewrite rfind_from_nochar.
Qed.

Lemma rfind_nochar c s : has_char c s = false → rfind c s = (-1)%Z.
Proof. apply rfind_from_nochar. Qed.

Lemma last_occurrence c s :
  has_char c s = true →
  ∃ pre post, s = pre +:+ String c post ∧ has_char c post = false.
Proof.
  induction s as [|x s IH]; [done|]. simpl.
  destruct (has_char c s) eqn:Hs.
  - intros _. destruct (IH eq_refl) as (pre & post & -> & Hpost).
    exists (String x pre), post. by rewrite app_cons_string.
  - rewrite orb_false_r. intros ->%Ascii.eqb_eq. by exists "", s.
Qed.

Lemma last_occurrence_unique c a b a' b' :
  a +:+ String c b = a' +:+ String c b' →
  has_char c b = false → has_char c b' = false → a = a' ∧ b = b'.
Proof.
  revert a'. induction a as [|x a IH]; intros [|x' a'];
    rewrite ?app_nil_string, ?app_cons_string.
  - by intros [= ->].
  - intros [= <- ->] Hb _. rewrite has_char_app in Hb. simpl in Hb.
    rewrite ascii_eqb_refl in Hb. by rewrite orb_true_r in Hb.
  - intros [= -> <-] _ Hb. rewrite has_char_app in Hb. simpl in Hb.
    rewrite ascii_eqb_refl in Hb. by rewrite orb_true_r in Hb.
  - intros [= <- H] Hb Hb'. by destruct (IH _ H Hb Hb') as [-> ->].
Qed.

(** ** Substrings and suffixes *)

Lemma substring_all s : String.substring 0 (String.length s) s = s.
Proof. induction s as [|x s IH]; simpl; [done|]. by rewrite IH. Qed.

Lemma substring_app_r a b :
  String.substring (String.length a) (String.length b) (a +:+ b) = b.
Proof.
  induction a as [|x a IH]; [by rewrite app_nil_string; apply substring_all|].
  by rewrite app_cons_string.
Qed.

Lemma substring_app_l a b :
  String.substring 0 (String.length a) (a +:+ b) = a.
Proof.
  induction a as [|x a IH]; [by destruct b|].
  rewrite app_cons_string. simpl. by rewrite IH.
Qed.

Lemma substring_split k s :
  k ≤ String.length s →
  s = String.substring 0 k s +:+ String.substring k (String.length s - k) s.
Proof.
  revert k. induction s as [|x s IH]; intros [|k] Hk; simpl in *; try lia.
  - done.
  - by rewrite substring_all.
  - rewrite app_cons_string. f_equal. apply IH. lia.
Qed.

Lemma endswith_app s suffix :
  endswith s suffix = true ↔ ∃ pre, s = pre +:+ suffix.
Proof.
  unfold endswith. rewrite andb_true_iff, Nat.leb_le, String.eqb_eq. split.
  - intros [Hle Hsub].
    exists (String.substring 0 (String.length s - String.length suffix) s).
    pose proof (substring_split (String.length s - String.length suffix) s) as Hsplit.
    replace (String.length s - (String.length s - String.length suffix))
      with (String.length suffix) in Hsplit by lia.
    rewrite Hsub in Hsplit. apply Hsplit. lia.
  - intros [pre ->]. rewrite length_app_string. split; [lia|].
    replace (String.length pre + String.length suffix - String.length suffix)
      with (String.length pre) by lia.
    apply substring_app_r.
Qed.

Lemma lower_app a b : lower (a +:+ b) = lower a +:+ lower b.
Proof.
  induction a as [|x a IH]; [done|].
  rewrite app_cons_string. simpl. by rewrite IH, app_cons_string.
Qed.

Lemma lower_char_dot c : Ascii.eqb (lower_char c) "." = Ascii.eqb c ".".
Proof.
  unfold lower_char.
  destruct (_ && _) eqn:Hupper; [|done].
  apply andb_prop in Hupper as [H1%Nat.leb_le H2%Nat.leb_le].
  assert (nat_of_ascii "." = 46) as Hdot by reflexivity.
  destruct (Ascii.eqb c ".") eqn:Hc.
  { apply Ascii.eqb_eq in Hc as ->. lia. }
  apply Ascii.eqb_neq. intros Heq.
  apply (f_equal nat_of_ascii) in Heq. rewrite nat_ascii_embedding in Heq by lia.
  lia.
Qed.

Lemma has_dot_lower s : has_char "." (lower s) = has_char "." s.
Proof.
  induction s as [|x s IH]; [done|]. simpl. by rewrite lower_char_dot, IH.
Qed.

Lemma length_lower s : String.length (lower s) = String.length s.
Proof. induction s as [|x s IH]; simpl; [done|]. by rewrite IH. Qed.

(** ** The extensions the uploads accept *)

Lemma after_last_dot_app pre post :
  has_char "." post = false → after_last_dot (pre +:+ String "." post) = post.
Proof.
  intros Hpost. unfold after_last_dot. rewrite rfind_last by done.
  replace (Z.to_nat (Z.of_nat (String.length pre) + 1))
    with (String.length (pre +:+ ".")) by (rewrite length_app_string; simpl; lia).
  replace (pre +:+ String "." post) with ((pre +:+ ".") +:+ post)
    by by rewrite app_assoc_string.
  rewrite (length_app_string (pre +:+ ".")).
  replace (String.length (pre +:+ ".") + String.length post -
           String.length (pre +:+ ".")) with (String.length post) by lia.
  apply substring_app_r.
Qed.

Lemma lower_dotted pre post :
  lower (pre +:+ String "." post) = lower pre +:+ String "." (lower post).
Proof. by rewrite lower_app. Qed.

Lemma allowed_in_endswith extensions filename :
  (∀ e, e ∈ extensions → ∃ e', e = String "." e' ∧ has_char "." e' = false) →
  allowed_in extensions filename = endswith_any (lower filename) extensions.
Proof.
  intros Hext. unfold allowed_in, endswith_any. apply eq_true_iff_eq.
  rewrite andb_true_iff, bool_decide_eq_true, existsb_exists.
  destruct (has_char "." filename) eqn:Hdot.
  - destruct (last_occurrence _ _ Hdot) as (pre & post & -> & Hpost).
    rewrite after_last_dot_app, lower_dotted by done. split.
    + intros [_ Hin]. exists (String "." (lower post)).
      split; [by apply list_elem_of_In|]. apply endswith_app. by exists (lower pre).
    + intros (e & Hin%list_elem_of_In & [pre' Heq]%endswith_app). split; [done|].
      destruct (Hext e Hin) as (e' & -> & He').
      apply last_occurrence_unique in Heq as [_ ->]; [done| |done].
      by rewrite has_dot_lower.
  - split; [by intros [? _]|].
    intros (e & Hin%list_elem_of_In & [pre' Heq]%endswith_app).
    destruct (Hext e Hin) as (e' & -> & He').
    apply (f_equal (has_char ".")) in Heq.
    rewrite has_dot_lower, Hdot, has_char_app in Heq. simpl in Heq.
    by rewrite orb_true_r in Heq.
Qed.

(** X18. [allowed_file] accepts exactly the names that end, whatever the
    case of their letters, in [.xlsx] or [.xls], and [allowed_source_file]
    exactly those that end in [.txt], [.csv], [.png], [.jpg] or [.jpeg]:
    the text after the last dot decides, also for a name that is an
    extension and nothing more. *)
Theorem allowed_file_endswith filename :
  allowed_file filename = endswith_any (lower filename) [".xlsx"; ".xls"] ∧
  allowed_source_file filename =
    endswith_any (lower filename) [".txt"; ".csv"; ".png"; ".jpg"; ".jpeg"].
Proof.
  split; apply allowed_in_endswith; intros e He;
    repeat (apply elem_of_cons in He as [->|He]; [by eexists|]);
    by apply elem_of_nil in He.
Qed.

(** ** The status of a processing request *)

Lemma overall_status_from k results_for_response :
  foldl status_after (status_of_errors k) results_for_response =
  status_of_errors (k + files_in_error results_for_response).
Proof.
  revert k. unfold files_in_error.
  induction results_for_response as [|r rs IH]; intros k.
  { simpl. by rewrite Nat.add_0_r. }
  cbn [foldl]. rewrite filter_cons. unfold status_after at 2.
  destruct (existsb (String.eqb "error") r) eqn:Herr.
  - assert ((if String.eqb (status_of_errors k) "success" then "partial" else "error")
            = status_of_errors (S k)) as -> by by destruct k as [|[|k]].
    rewrite IH. rewrite decide_True by by apply Is_true_true.
    f_equal. simpl. lia.
  - rewrite IH. rewrite decide_False; [done|]. by apply Is_true_false.
Qed.

(** X19. The status [process_excel] reports counts files, not sheets:
    it is [success] when no file has a sheet in error, [partial] when
    exactly one file has, and [error] when two or more have, however many
    sheets succeeded. *)
Theorem overall_status_counts results_for_response :
  overall_status results_for_response =
  status_of_errors (files_in_error results_for_response).
Proof. apply (overall_status_from 0). Qed.

(** ** The type of a renamed file *)

Lemma splitext_no_dot p :
  has_char "/" p = false → has_char "." p = false → splitext p = (p, "").
Proof.
  intros Hsep Hdot. unfold splitext.
  by rewrite (rfind_nochar _ _ Hsep), (rfind_nochar _ _ Hdot).
Qed.

Lemma splitext_dot pre post :
  has_char "/" (pre +:+ String "." post) = false → has_char "." post = false →
  splitext (pre +:+ String "." post) =
    if all_dots pre then (pre +:+ String "." post, "") else (pre, String "." post).
Proof.
  intros Hsep Hdot. unfold splitext.
  rewrite (rfind_nochar _ _ Hsep), (rfind_last _ _ _ Hdot).
  assert ((-1 <? Z.of_nat (String.length pre))%Z = true) as ->
    by (apply Z.ltb_lt; lia).
  simpl. rewrite Nat2Z.id, Nat.sub_0_r, substring_app_l.
  destruct (all_dots pre); [done|]. f_equal; [apply substring_app_l|].
  rewrite length_app_string.
  replace (String.length pre + String.length (String "." post) - String.length pre)
    with (String.length (String "." post)) by lia.
  apply substring_app_r.
Qed.

Lemma has_dot_pretty_N_go x s :
  has_char "." s = false → has_char "." (pretty_N_go x s) = false.
Proof.
  revert s. induction (N.lt_wf_0 x) as [x _ IH]; intros s Hs.
  assert (x = 0 ∨ 0 < x)%N as [->|Hpos] by lia.
  - by rewrite pretty_N_go_0.
  - rewrite pretty_N_go_step by done. apply IH.
    { by apply N.div_lt. }
    simpl. rewrite Hs, orb_false_r.
    unfold pretty_N_char. by repeat case_match.
Qed.

Lemma has_dot_pretty_nat (n : nat) : has_char "." (pretty n) = false.
Proof.
  unfold pretty, pretty_nat, pretty, pretty_N.
  case_decide; [done|]. by apply has_dot_pretty_N_go.
Qed.

Lemma all_dots_app a b : all_dots (a +:+ b) = all_dots a && all_dots b.
Proof.
  induction a as [|x a IH]; [done|].
  rewrite app_cons_string. simpl. by rewrite IH, andb_assoc.
Qed.

Lemma app_nil_r_string s : s +:+ "" = s.
Proof. induction s as [|x s IH]; [done|]. by rewrite app_cons_string, IH. Qed.

Lemma splitext_numbered_name file_name counter :
  has_char "/" file_name = false →
  (splitext (numbered_name (splitext file_name).1 (splitext file_name).2 counter)).2 =
  (splitext file_name).2.
Proof.
  intros Hsep. unfold numbered_name.
  set (tag := "_" +:+ pretty counter).
  assert (has_char "." tag = false) as Htag_dot.
  { unfold tag. by rewrite has_char_app, has_dot_pretty_nat. }
  assert (has_char "/" tag = false) as Htag_sep.
  { unfold tag. by rewrite has_char_app, has_char_pretty_nat. }
  assert (all_dots tag = false) as Htag by done.
  destruct (has_char "." file_name) eqn:Hdot.
  - destruct (last_occurrence _ _ Hdot) as (pre & post & -> & Hpost).
    rewrite splitext_dot by done.
    rewrite has_char_app in Hsep. apply orb_false_elim in Hsep as [Hpre Hsep].
    destruct (all_dots pre) eqn:Hpre_dots; simpl.
    + replace ((pre +:+ String "." post) +:+ "_" +:+ pretty counter +:+ "")
        with (pre +:+ String "." (post +:+ tag)).
      2:{ unfold tag. by rewrite app_nil_r_string, app_assoc_string, app_cons_string. }
      rewrite splitext_dot, Hpre_dots; [done| |].
      * rewrite has_char_app. simpl. rewrite has_char_app.
        simpl in Hsep. by rewrite Hpre, Hsep, Htag_sep.
      * by rewrite has_char_app, Hpost, Htag_dot.
    + replace (pre +:+ "_" +:+ pretty counter +:+ String "." post)
        with ((pre +:+ tag) +:+ String "." post).
      2:{ unfold tag. by rewrite !app_assoc_string. }
      rewrite splitext_dot, all_dots_app, Htag, andb_false_r; [done| |done].
      rewrite !has_char_app, Hpre, Htag_sep. simpl. by simpl in Hsep.
  - rewrite (splitext_no_dot _ Hsep Hdot). simpl.
    rewrite splitext_no_dot; [done| |].
    + by rewrite !has_char_app, Hsep, has_char_pretty_nat.
    + by rewrite !has_char_app, Hdot, has_dot_pretty_nat.
Qed.

(** X20. The name [create_file] tries when the requested one is taken
    keeps the extension, and with it the type of the file: for a name
    without separator, [name_k.ext] has the type of [name.ext], also when
    the name has several dots, begins with dots or has no extension. *)
Theorem numbered_name_keeps_type file_name counter :
  has_char "/" file_name = false →
  _get_file_type_from_extension
    (numbered_name (splitext file_name).1 (splitext file_name).2 counter) =
  _get_file_type_from_extension file_name.
Proof.
  intros Hsep. unfold _get_file_type_from_extension.
  by rewrite splitext_numbered_name.
Qed.

Lemma numbered_name_keeps_type_witness :
  has_char "/" "Sheet.XLSX" = false ∧
  _get_file_type_from_extension
    (numbered_name (splitext "Sheet.XLSX").1 (splitext "Sheet.XLSX").2 3) =
  _get_file_type_from_extension "Sheet.XLSX".
Proof.
  split; [reflexivity|].
  apply (numbered_name_keeps_type "Sheet.XLSX" 3). reflexivity.
Defined.

End NameFacts.

(** * Scans at the edges *)

Module ScanFacts.
Import Project ProjectFacts ProjectOps StoreFacts.

Section WithLibrary.
Context {L : Library}.

Lemma dict_insert_keys {V} k (v : V) d k' :
  k' ∈ (dict_insert k v d).*1 → k' = k ∨ k' ∈ d.*1.
Proof.
  induction d as [|[k0 v0] d IH]; simpl.
  { intros ->%list_elem_of_singleton. by left. }
  destruct (String.eqb k k0) eqn:Hk; simpl; rewrite !elem_of_cons.
  - apply String.eqb_eq in Hk as ->. tauto.
  - intros [->|H]; [tauto|]. destruct (IH H); tauto.
Qed.

Lemma dict_display_keys {V} (items : list (string * V)) k :
  k ∈ (dict_display items).*1 → k ∈ items.*1.
Proof.
  unfold dict_display.
  assert (∀ d, k ∈ (foldl (λ d kv, dict_insert kv.1 kv.2 d) d items).*1 →
               k ∈ d.*1 ∨ k ∈ items.*1) as Hgen.
  { induction items as [|[k0 v0] items IH]; intros d; simpl; [by left|].
    intros [[->|?]%dict_insert_keys|?]%IH; rewrite elem_of_cons; tauto. }
  intros [?%elem_of_nil|?]%Hgen; done.
Qed.

Lemma scan_directories_missing (f : filesystem) items :
  (∀ item, item ∈ items → path_exists f item.1 = false) →
  scan_directories f (Files [] [] []) items = (Files [] [] [], None).
Proof.
  induction items as [|[d b] items IH]; intros Hmissing; [done|].
  pose proof (Hmissing (d, b) ltac:(left)) as Hd. simpl in Hd.
  simpl. rewrite Hd. simpl.
  assert (files_set (Files [] [] []) b (sorted_by_name (files_get (Files [] [] []) b))
          = Files [] [] []) as -> by by destruct b.
  apply IH. intros item Hin. apply Hmissing. by right.
Qed.

(** X21. A scan of a project none of whose bucket directories exists
    raises nothing: it succeeds, leaves the file system as it is, and
    empties the three lists of records. *)
Theorem scan_without_directories (p : Project) (w : world) :
  (∀ b, path_exists (fs w) (dir_of p b) = false) →
  ∃ p' w',
    scan_and_update_files p w = (Ok (), p', w') ∧ fs w' = fs w ∧
    files p' = Files [] [] [].
Proof.
  intros Hmissing. unfold scan_and_update_files.
  rewrite scan_directories_missing.
  - simpl. by eexists _, _.
  - intros [d b] Hin. simpl.
    assert (d ∈ (dir_map p).*1) as Hd.
    { apply list_elem_of_fmap. by exists (d, b). }
    apply dict_display_keys in Hd. simpl in Hd.
    rewrite !elem_of_cons, elem_of_nil in Hd.
    destruct Hd as [-> | [-> | [-> | []]]].
    + apply (Hmissing Input).
    + apply (Hmissing Processed).
    + apply (Hmissing Output).
Qed.

(** X22. [add_file] answers for the scan, not for the file: given the
    path of a file that exists and is not tracked, it rescans and returns
    [True], and the bucket then holds exactly the records of the files in
    its directory. A file that lies elsewhere is not among them, so it
    stays without a record although [add_file] returned [True]. *)
Theorem add_file_elsewhere (p : Project) (w : world)
    (file_path file_type : string) (b : bucket) :
  bucket_of file_type = Some b →
  NoDup [input_dir p; processed_dir p; output_dir p] →
  (∀ b', isdir (fs w) (dir_of p b') = true) →
  (∀ b', canonical (dir_of p b') = true) →
  path_exists (fs w) file_path = true →
  existsb (λ f, String.eqb (f_path f) file_path) (files_get (files p) b) = false →
  (∀ n, plain_name n = true → file_path ≠ join (dir_of p b) n) →
  ∃ p' w',
    add_file p w file_path file_type = (true, p', w') ∧ fs w' = fs w ∧
    (∀ r, r ∈ files_get (files p') b ↔ recorded (fs w) (dir_of p b) r) ∧
    ∀ r, r ∈ files_get (files p') b → f_path r ≠ file_path.
Proof.
  intros Hb Hnd Hdirs Hcan Hexists Hnew Hout. unfold add_file.
  rewrite Hb, Hexists, Hnew. simpl.
  destruct (scan_exact p w Hnd Hdirs Hcan) as (p' & w' & -> & Hfs & Hrec).
  simpl. eexists _, _. split; [done|]. split; [done|]. simpl.
  split; [apply Hrec|].
  intros r (n & Hn & _ & _ & ->)%Hrec. rewrite scanned_record_path.
  intros Heq. by apply (Hout n Hn).
Qed.

End WithLibrary.

#[local] Existing Instance example_library.

Lemma scan_without_directories_witness :
  let w : world := World {[ "/home/user" := Dir ]} 0 in
  (∀ b, path_exists (fs w) (dir_of demo_project b) = false) ∧
  ∃ p' w',
    scan_and_update_files demo_project w = (Ok (), p', w') ∧ fs w' = fs w ∧
    files p' = Files [] [] [].
Proof.
  intros w.
  assert (∀ b, path_exists (fs w) (dir_of demo_project b) = false) as Hmissing.
  { intros []; vm_compute; reflexivity. }
  split; [exact Hmissing|].
  apply (scan_without_directories demo_project w Hmissing).
Defined.

Lemma add_file_elsewhere_witness :
  let p := two_reports.1 in
  let w := two_reports.2 in
  bucket_of "input" = Some Input ∧
  path_exists (fs w) "/home/user/Demo_abc12345/output/report.md" = true ∧
  (∀ n, plain_name n = true →
     "/home/user/Demo_abc12345/output/report.md" ≠ join (dir_of p Input) n) ∧
  ∃ p' w',
    add_file p w "/home/user/Demo_abc12345/output/report.md" "input" = (true, p', w') ∧
    fs w' = fs w ∧
    (∀ r, r ∈ files_get (files p') Input ↔ recorded (fs w) (dir_of p Input) r) ∧
    ∀ r, r ∈ files_get (files p') Input →
      f_path r ≠ "/home/user/Demo_abc12345/output/report.md".
Proof.
  intros p w. destruct two_reports_dirs as (Hnd & Hdirs & Hcan).
  assert (∀ n, plain_name n = true →
            "/home/user/Demo_abc12345/output/report.md" ≠ join (dir_of p Input) n)
    as Hout.
  { intros n Hn. rewrite join_plain by (apply Hcan || done).
    change (dir_of p Input) with "/home/user/Demo_abc12345/input".
    rewrite !app_cons_string. discriminate. }
  split; [reflexivity|]. split; [vm_compute; reflexivity|]. split; [exact Hout|].
  apply (add_file_elsewhere p w "/home/user/Demo_abc12345/output/report.md" "input"
           Input).
  - reflexivity.
  - exact Hnd.
  - exact Hdirs.
  - exact Hcan.
  - vm_compute; reflexivity.
  - vm_compute; reflexivity.
  - exact Hout.
Defined.

End ScanFacts.

(** * Facts about the id of a project *)

Module ProjectIdFacts.
Import Project ProjectFacts NameFacts ProjectId.

Lemma hex_go_acc fuel n acc : hex_go fuel n acc = hex_go fuel n "" +:+ acc.
Proof.
  revert n acc. induction fuel as [|fuel IH]; intros n acc; simpl.
  { by rewrite app_cons_string, app_nil_string. }
  destruct (n <? 16)%N.
  - by rewrite app_cons_string, app_nil_string.
  - rewrite (IH _ (String _ acc)), (IH _ (String _ "")).
    by rewrite app_assoc_string, app_cons_string, app_nil_string.
Qed.

(** A number with more than [k] digits ends in its [k + 1] low digits. *)
Lemma hex_go_low k : ∀ fuel n,
  (16 ^ N.of_nat k ≤ n)%N → k ≤ fuel →
  ∃ hi, hex_go fuel n "" = hi +:+ low_digits (S k) n.
Proof.
  induction k as [|k IH]; intros fuel n Hn Hfuel.
  - destruct fuel as [|fuel]; simpl.
    { exists "". by rewrite !app_nil_string. }
    destruct (n <? 16)%N.
    + exists "". by rewrite !app_nil_string.
    + exists (hex_go fuel (n / 16) ""). by rewrite hex_go_acc, app_nil_string.
  - destruct fuel as [|fuel]; [lia|].
    assert (16 ^ N.of_nat (S k) = 16 * 16 ^ N.of_nat k)%N as Hpow.
    { by rewrite Nat2N.inj_succ, N.pow_succ_r'. }
    assert (16 ^ N.of_nat k ≤ n / 16)%N as Hn'.
    { apply N.div_le_lower_bound; lia. }
    assert (0 < 16 ^ N.of_nat k)%N by (apply N.neq_0_lt_0, N.pow_nonzero; lia).
    cbn [hex_go]. rewrite (proj2 (N.ltb_ge n 16)) by lia.
    rewrite hex_go_acc.
    destruct (IH fuel (n / 16)%N Hn' ltac:(lia)) as [hi ->].
    exists hi. by rewrite app_assoc_string.
Qed.

Lemma length_low_digits k n : String.length (low_digits k n) = k.
Proof.
  revert n. induction k as [|k IH]; intros n; simpl; [done|].
  rewrite length_app_string, IH. simpl. lia.
Qed.

Lemma last8_app hi l : String.length l = 8 → last8 (hi +:+ l) = l.
Proof.
  intros Hl. unfold last8. rewrite length_app_string, Hl.
  replace (String.length hi + 8 - 8) with (String.length hi) by lia.
  rewrite <-Hl. apply substring_app_r.
Qed.

Lemma generate_id_low t :
  (16 ^ 7 ≤ t)%Z → _generate_id t = low_digits 8 (Z.to_N t).
Proof.
  intros Ht. unfold _generate_id, format_x.
  rewrite (proj2 (Z.ltb_ge t 0)) by lia. unfold hex.
  assert (16 ^ N.of_nat 7 ≤ Z.to_N t)%N as Hn.
  { change (16 ^ N.of_nat 7)%N with (Z.to_N (16 ^ 7)). lia. }
  destruct (hex_go_low 7 (N.to_nat (N.log2 (Z.to_N t))) (Z.to_N t) Hn) as [hi ->].
  - assert (N.log2 (16 ^ N.of_nat 7) ≤ N.log2 (Z.to_N t))%N as Hlog
      by by apply N.log2_le_mono.
    change (N.log2 (16 ^ N.of_nat 7)) with 28%N in Hlog. lia.
  - apply last8_app, length_low_digits.
Qed.

Lemma app_inj_last a b c d :
  a +:+ String c "" = b +:+ String d "" → a = b ∧ c = d.
Proof.
  revert b. induction a as [|x a IH]; intros [|y b];
    rewrite ?app_cons_string, ?app_nil_string.
  - by intros [= ->].
  - intros [= -> H]. destruct b; by rewrite ?app_cons_string, ?app_nil_string in H.
  - intros [= -> H]. destruct a; by rewrite ?app_cons_string, ?app_nil_string in H.
  - intros [= -> H]. by destruct (IH _ H) as [-> ->].
Qed.

Lemma hex_digit_inj d d' :
  (d < 16)%N → (d' < 16)%N → hex_digit d = hex_digit d' → d = d'.
Proof.
  intros Hd Hd'.
  assert (∀ x, (x < 16)%N → x ∈ N.of_nat <$> seq 0 16) as Hall.
  { intros x Hx. apply list_elem_of_fmap. exists (N.to_nat x).
    split; [lia|]. apply elem_of_seq. lia. }
  pose proof (Hall d Hd) as H1. pose proof (Hall d' Hd') as H2.
  cbv [fmap list_fmap seq] in H1, H2. simpl in H1, H2.
  rewrite !elem_of_cons, elem_of_nil in H1, H2.
  repeat (destruct H1 as [-> | H1]); try done;
    repeat (destruct H2 as [-> | H2]); try done.
Qed.

Lemma low_digits_mod k n n' :
  low_digits k n = low_digits k n' ↔
  (n mod 16 ^ N.of_nat k = n' mod 16 ^ N.of_nat k)%N.
Proof.
  revert n n'. induction k as [|k IH]; intros n n'.
  { simpl. by rewrite !N.mod_1_r. }
  assert (16 ^ N.of_nat (S k) = 16 * 16 ^ N.of_nat k)%N as ->.
  { by rewrite Nat2N.inj_succ, N.pow_succ_r'. }
  assert (16 ^ N.of_nat k ≠ 0)%N as Hpow by (apply N.pow_nonzero; lia).
  rewrite !N.Div0.mod_mul_r. cbn [low_digits]. split.
  - intros [Hlow Hd]%app_inj_last. apply IH in Hlow.
    apply hex_digit_inj in Hd; [|by apply N.mod_upper_bound..].
    by rewrite Hlow, Hd.
  - intros Heq.
    assert (n mod 16 = n' mod 16 ∧
            (n / 16) mod 16 ^ N.of_nat k = (n' / 16) mod 16 ^ N.of_nat k)%N
      as [Hd Hlow].
    { pose proof (N.mod_upper_bound n 16 ltac:(lia)) as Hr.
      pose proof (N.mod_upper_bound n' 16 ltac:(lia)) as Hr'.
      revert Heq. generalize ((n / 16) mod 16 ^ N.of_nat k)%N.
      generalize ((n' / 16) mod 16 ^ N.of_nat k)%N.
      revert Hr Hr'. generalize (n mod 16)%N. generalize (n' mod 16)%N.
      clear. intros a b Ha Hb c e Heq. split; lia. }
    apply IH in Hlow. by rewrite Hlow, Hd.
Qed.

(** X23. The id of a project keeps the eight last hexadecimal digits of
    the time in milliseconds: from [16^7] milliseconds on, two times
    give the same id exactly when they differ by a multiple of [2^32]
    milliseconds, so that ids come back after a little less than fifty
    days; and the id has eight characters. *)
Theorem generate_id_wraps (t t' : Z) :
  (16 ^ 7 ≤ t)%Z → (16 ^ 7 ≤ t')%Z →
  (_generate_id t = _generate_id t' ↔ (t mod 2 ^ 32 = t' mod 2 ^ 32)%Z) ∧
  String.length (_generate_id t) = 8.
Proof.
  intros Ht Ht'. rewrite !generate_id_low by done. split.
  - rewrite low_digits_mod.
    change (16 ^ N.of_nat 8)%N with (Z.to_N (2 ^ 32)).
    rewrite <-!Z2N.inj_mod by lia. split.
    + intros H%Z2N.inj; [done|by apply Z.mod_pos_bound..].
    + by intros ->.
  - apply length_low_digits.
Qed.

Lemma generate_id_wraps_witness :
  (16 ^ 7 ≤ 1762209000123)%Z ∧ (16 ^ 7 ≤ 1762209000123 + 2 ^ 32)%Z ∧
  ((_generate_id 1762209000123 = _generate_id (1762209000123 + 2 ^ 32) ↔
    (1762209000123 mod 2 ^ 32 = (1762209000123 + 2 ^ 32) mod 2 ^ 32)%Z) ∧
   String.length (_generate_id 1762209000123) = 8).
Proof.
  split; [lia|]. split; [lia|].
  apply (generate_id_wraps 1762209000123 (1762209000123 + 2 ^ 32)); lia.
Defined.

End ProjectIdFacts.
